(** * DrCov log parser (drcov.py, base.py): a shallow embedding

    The parser of DynamoRIO coverage logs is modelled function by
    function.  Python [bytes] are lists of 8-bit characters, Python [str]
    is [string] (text in the ASCII range), Python [int] is [Z], the ctypes
    array of [DrcovBasicBlock] is a list of records whose fields wrap at
    their width, the hit-count dictionary is a [gmap] of [gmap]s, and an
    exception is a result of the monad [M], which keeps the state reached
    when the exception was raised. *)

From Stdlib Require Import ZArith Lia Ascii String List Permutation.
From Stdlib Require Import DecimalString HexadecimalString.
From Stdlib Require DecimalN DecimalPos HexadecimalN HexadecimalPos.
From stdpp Require Import base option list gmap strings fin_maps.

Open Scope Z_scope.

(** ** Python values *)

(** [bytes] objects. *)
Abbreviation bytes := (list ascii).

(** [str] objects. *)
Abbreviation str := string.

(** A bytes literal, written [B "text"]. *)
Definition B (s : string) : bytes := list_ascii_of_string s.

Definition LF : ascii := ascii_of_nat 10.
Definition NUL : ascii := ascii_of_nat 0.

(** The values that meet in an [==] or [!=] of the parser: Python compares
    a [bytes] object and a [str] object as unequal, whatever they hold. *)
Inductive pyval : Type :=
  | PyBytes (b : bytes)
  | PyStr (s : str).

Definition py_eq (x y : pyval) : bool :=
  match x, y with
  | PyBytes a, PyBytes b => bool_decide (a = b)
  | PyStr a, PyStr b => bool_decide (a = b)
  | _, _ => false
  end.

Definition py_ne (x y : pyval) : bool := negb (py_eq x y).

(** The exceptions the parser can raise. *)
Inductive exn : Type :=
  | ValueError
  | IndexError
  | TypeError
  | AssertionError
  | UnicodeDecodeError.

Inductive result (A : Type) : Type :=
  | Ok (a : A)
  | Raise (e : exn).

Arguments Ok {A} a.
Arguments Raise {A} e.

(** ** The monad of a method body

    A method reads and updates the state [S] (the object, and the stream
    it reads) and returns a value or raises; the state reached at a raise
    is kept, as the fields of a Python object keep what was assigned
    before the exception. *)
Definition M (S A : Type) : Type := S → result A * S.

Definition ret {S A} (a : A) : M S A := λ s, (Ok a, s).

Definition raise {S A} (e : exn) : M S A := λ s, (Raise e, s).

Definition bind {S A C} (m : M S A) (k : A → M S C) : M S C :=
  λ s, match m s with
       | (Ok a, s') => k a s'
       | (Raise e, s') => (Raise e, s')
       end.

Definition get {S} : M S S := λ s, (Ok s, s).

Definition modify {S} (g : S → S) : M S unit := λ s, (Ok tt, g s).

(** A pure computation that may raise, inside a method. *)
Definition lift {S A} (r : result A) : M S A := λ s, (r, s).

Notation "'do' x <- m ; k" := (bind m (λ x, k))
  (at level 10, x name, m at level 100, k at level 200).
Notation "'do' ' p <- m ; k" := (bind m (λ x, match x with p => k end))
  (at level 10, p pattern, m at level 100, k at level 200).
Notation "m ;; k" := (bind m (λ _, k))
  (at level 100, k at level 200, right associativity).

(** [for x in xs: body x]. *)
Fixpoint for_each {S A} (xs : list A) (body : A → M S unit) : M S unit :=
  match xs with
  | [] => ret tt
  | x :: xs' => body x ;; for_each xs' body
  end.

(** ** [bytes] methods *)

(** ASCII whitespace, as [bytes.strip()] and [int()] see it. *)
Definition is_space (c : ascii) : bool :=
  let n := nat_of_ascii c in
  (n =? 32)%nat || ((9 <=? n)%nat && (n <=? 13)%nat).

Fixpoint bytes_lstrip (s : bytes) : bytes :=
  match s with
  | c :: s' => if is_space c then bytes_lstrip s' else s
  | [] => []
  end.

Definition bytes_rstrip (s : bytes) : bytes := rev (bytes_lstrip (rev s)).

(** [s.strip()]. *)
Definition bytes_strip (s : bytes) : bytes := bytes_rstrip (bytes_lstrip s).

(** [s.startswith(p)]. *)
Fixpoint starts_with (p s : bytes) : bool :=
  match p, s with
  | [], _ => true
  | a :: p', c :: s' => Ascii.eqb a c && starts_with p' s'
  | _ :: _, [] => false
  end.

(** The scan of [s.split(sep)] for a non-empty [sep]: [skip] counts the
    bytes of a separator found that are still to be passed over. *)
Fixpoint split_scan (sep : bytes) (skip : nat) (s : bytes) : list bytes :=
  match s with
  | [] => [[]]
  | c :: s' =>
      match skip with
      | S k => split_scan sep k s'
      | O =>
          if starts_with sep s
          then [] :: split_scan sep (length sep - 1) s'
          else match split_scan sep 0 s' with
               | w :: ws => (c :: w) :: ws
               | [] => [[c]]
               end
      end
  end.

(** [s.split(sep)]; Python raises [ValueError] for an empty separator,
    which the parser never passes. *)
Definition bytes_split (sep s : bytes) : list bytes := split_scan sep 0 s.

(** [xs[i]] for [i >= 0]. *)
Definition index {A} (xs : list A) (i : nat) : result A :=
  match xs !! i with
  | Some x => Ok x
  | None => Raise IndexError
  end.

(** [xs[-1]]. *)
Definition index_last {A} (xs : list A) : result A :=
  match last xs with
  | Some x => Ok x
  | None => Raise IndexError
  end.

(** [a, b = xs]. *)
Definition unpack2 {A} (xs : list A) : result (A * A) :=
  match xs with
  | [a; b] => Ok (a, b)
  | _ => Raise ValueError
  end.

(** ** [int(s)] and [int(s, 16)] *)

Definition digit_value (c : ascii) : option Z :=
  let n := Z.of_nat (nat_of_ascii c) in
  if (48 <=? n) && (n <=? 57) then Some (n - 48)
  else if (97 <=? n) && (n <=? 122) then Some (n - 87)
  else if (65 <=? n) && (n <=? 90) then Some (n - 55)
  else None.

(** The digits, where single underscores may separate two digits. *)
Fixpoint int_digits (base acc : Z) (after_digit : bool) (s : bytes)
    : option Z :=
  match s with
  | [] => if after_digit then Some acc else None
  | c :: s' =>
      if Ascii.eqb c "_"
      then (if after_digit then int_digits base acc false s' else None)
      else match digit_value c with
           | Some d =>
               if d <? base
               then int_digits base (acc * base + d) true s'
               else None
           | None => None
           end
  end.

(** After the sign: for base 16 an optional [0x] or [0X], which one
    underscore may follow. *)
Definition int_unsigned (base : Z) (s : bytes) : option Z :=
  let body :=
    match s with
    | z :: x :: s' =>
        if (base =? 16) && Ascii.eqb z "0"
           && (Ascii.eqb x "x" || Ascii.eqb x "X")
        then match s' with
             | u :: s'' => if Ascii.eqb u "_" then s'' else s'
             | [] => s'
             end
        else s
    | _ => s
    end in
  int_digits base 0 false body.

(** [int(s, base)] for base 10 or 16: surrounding whitespace is dropped, a
    sign is accepted, anything else raises [ValueError]. *)
Definition py_int (base : Z) (s : bytes) : result Z :=
  let r :=
    match bytes_strip s with
    | c :: s' =>
        if Ascii.eqb c "-" then Z.opp <$> int_unsigned base s'
        else if Ascii.eqb c "+" then int_unsigned base s'
        else int_unsigned base (c :: s')
    | [] => None
    end in
  match r with
  | Some v => Ok v
  | None => Raise ValueError
  end.

(** [b.decode()]: text is modelled in the ASCII range, where UTF-8
    decoding keeps every byte; a byte above 127 is reported as
    [UnicodeDecodeError], which is what Python raises when it does not
    start a valid UTF-8 sequence (valid multi-byte sequences are outside
    the model). *)
Definition bytes_decode (b : bytes) : result str :=
  if forallb (λ c, (nat_of_ascii c <? 128)%nat) b
  then Ok (string_of_list_ascii b)
  else Raise UnicodeDecodeError.

(** ** [str] methods *)

Definition ascii_lower (c : ascii) : ascii :=
  let n := nat_of_ascii c in
  if (65 <=? n)%nat && (n <=? 90)%nat then ascii_of_nat (n + 32) else c.

(** [s.lower()] on text of ASCII characters: the 26 letters are lowered
    one by one.  Outside ASCII [str.lower()] follows Unicode, where the
    lower case of a character can depend on its neighbours; a statement
    that compares the lower case of two texts of its own takes ASCII
    texts ([ascii_text], with the further notions). *)
Fixpoint str_lower (s : str) : str :=
  match s with
  | EmptyString => EmptyString
  | String c s' => String (ascii_lower c) (str_lower s')
  end.

(** [needle in hay]. *)
Fixpoint str_contains (needle hay : str) : bool :=
  String.prefix needle hay
  || match hay with
     | EmptyString => false
     | String _ hay' => str_contains needle hay'
     end.

(** [s.split(sep)]. *)
Definition str_split (sep s : str) : list str :=
  string_of_list_ascii
    <$> bytes_split (list_ascii_of_string sep) (list_ascii_of_string s).

Fixpoint lstrip_chars (chars : bytes) (s : bytes) : bytes :=
  match s with
  | c :: s' =>
      if existsb (Ascii.eqb c) chars then lstrip_chars chars s' else s
  | [] => []
  end.

(** [s.strip(chars)]: every leading and every trailing character that is
    in [chars] goes. *)
Definition str_strip (chars s : str) : str :=
  let cs := list_ascii_of_string chars in
  string_of_list_ascii
    (rev (lstrip_chars cs (rev (lstrip_chars cs (list_ascii_of_string s))))).

(** [os.path.basename(p)] of posixpath: [p[p.rfind('/') + 1:]].  [rest]
    is the text after the last slash met so far. *)
Fixpoint basename_from (rest p : str) : str :=
  match p with
  | EmptyString => rest
  | String c p' =>
      if Ascii.eqb c "/" then basename_from p' p' else basename_from rest p'
  end.

Definition basename (p : str) : str := basename_from p p.

(** ** The input stream ([io.BytesIO], or a file opened ["rb"]) *)

Record stream : Type := mkStream {
  buf : bytes;
  pos : nat
}.

(** What is left to read. *)
Definition stream_rest (f : stream) : bytes := drop (pos f) (buf f).

(** The bytes of the next line, with its line feed when there is one. *)
Fixpoint take_line (s : bytes) : bytes :=
  match s with
  | [] => []
  | c :: s' => if Ascii.eqb c LF then [c] else c :: take_line s'
  end.

Definition stream_readline (f : stream) : bytes * stream :=
  let line := take_line (stream_rest f) in
  (line, mkStream (buf f) (pos f + length line)).

Definition stream_read (n : nat) (f : stream) : bytes * stream :=
  let got := take n (stream_rest f) in
  (got, mkStream (buf f) (pos f + length got)).

Definition stream_seek (p : nat) (f : stream) : stream := mkStream (buf f) p.

(** ** ctypes structure [DrcovBasicBlock] *)

Module DrcovBasicBlock.

(** [_pack_ = 1], fields [c_uint32 offset], [c_uint16 size],
    [c_uint16 mod_id]: eight bytes, little endian on the hosts drcov
    runs on. *)
Record t : Type := mk {
  offset : Z;
  size : Z;
  mod_id : Z
}.

(** A field assignment keeps the low bits of the value. *)
Definition set_offset (v : Z) (bb : t) : t :=
  mk (v mod 2 ^ 32) (size bb) (mod_id bb).
Definition set_size (v : Z) (bb : t) : t :=
  mk (offset bb) (v mod 2 ^ 16) (mod_id bb).
Definition set_mod_id (v : Z) (bb : t) : t :=
  mk (offset bb) (size bb) (v mod 2 ^ 16).

(** A fresh element of a ctypes array: its memory is zero. *)
Definition zero : t := mk 0 0 0.

End DrcovBasicBlock.

#[global] Instance DrcovBasicBlock_eq_dec : EqDecision DrcovBasicBlock.t.
Proof. solve_decision. Defined.

Definition byte_val (c : ascii) : Z := Z.of_nat (nat_of_ascii c).

Definition byte_of (v : Z) : ascii := ascii_of_nat (Z.to_nat (v mod 256)).

(** The value of a little-endian byte string. *)
Fixpoint le_value (b : bytes) : Z :=
  match b with
  | [] => 0
  | c :: b' => byte_val c + 256 * le_value b'
  end.

(** The [n] low bytes of [v], little endian. *)
Fixpoint le_bytes (n : nat) (v : Z) : bytes :=
  match n with
  | O => []
  | S k => byte_of v :: le_bytes k (v / 256)
  end.

(** The eight bytes of memory of one structure, and the structure that
    eight bytes of memory hold. *)
Definition struct_bytes (bb : DrcovBasicBlock.t) : bytes :=
  le_bytes 4 (DrcovBasicBlock.offset bb)
  ++ le_bytes 2 (DrcovBasicBlock.size bb)
  ++ le_bytes 2 (DrcovBasicBlock.mod_id bb).

Definition struct_of_bytes (b : bytes) : DrcovBasicBlock.t :=
  DrcovBasicBlock.mk (le_value (take 4 b))
                     (le_value (take 2 (drop 4 b)))
                     (le_value (take 2 (drop 6 b))).

(** The memory of a ctypes array, and the array of [n] structures that
    lies over a memory of [8 * n] bytes. *)
Definition array_bytes (arr : list DrcovBasicBlock.t) : bytes :=
  concat (struct_bytes <$> arr).

Fixpoint array_of_bytes (n : nat) (mem : bytes) : list DrcovBasicBlock.t :=
  match n with
  | O => []
  | S k => struct_of_bytes (take 8 mem) :: array_of_bytes k (drop 8 mem)
  end.

(** [f.readinto(arr)]: the bytes the stream still has, at most as many
    as the array's memory holds, overwrite the start of that memory; the
    rest of the memory is left as it was.  Returns the number of bytes
    read and the array as it is afterwards. *)
Definition stream_readinto (arr : list DrcovBasicBlock.t) (f : stream)
    : (nat * list DrcovBasicBlock.t) * stream :=
  let mem := array_bytes arr in
  let got := take (length mem) (stream_rest f) in
  let mem' := got ++ drop (length got) mem in
  ((length got, array_of_bytes (length arr) mem'),
   mkStream (buf f) (pos f + length got)).

(** ** Parsed objects (base.py) *)

Module ParsedModule.

Record t : Type := mk {
  id : Z;
  filename : str;
  base : Z;
  end_ : Z;
  size : Z;
  checksum : Z;
  path : str;
  entry : Z
}.

End ParsedModule.

Module ParsedBasicBlock.

Record t : Type := mk {
  offset : Z;
  size : Z;
  mod_id : Z
}.

End ParsedBasicBlock.

#[global] Instance ParsedBasicBlock_eq_dec : EqDecision ParsedBasicBlock.t.
Proof. solve_decision. Defined.

(** ** Module-table entries: class [DrcovModule] *)

Module DrcovModule.

(** The attributes of the object; [offset] exists only once
    [_parse_module_v4] has assigned it. *)
Record t : Type := mk {
  id : Z;
  base : Z;
  end_ : Z;
  size : Z;
  entry : Z;
  checksum : Z;
  timestamp : Z;
  path : str;
  filename : str;
  containing_id : Z;
  offset : option Z
}.

Definition set_id (v : Z) (m : t) : t :=
  mk v (base m) (end_ m) (size m) (entry m) (checksum m) (timestamp m)
     (path m) (filename m) (containing_id m) (offset m).
Definition set_base (v : Z) (m : t) : t :=
  mk (id m) v (end_ m) (size m) (entry m) (checksum m) (timestamp m)
     (path m) (filename m) (containing_id m) (offset m).
Definition set_end (v : Z) (m : t) : t :=
  mk (id m) (base m) v (size m) (entry m) (checksum m) (timestamp m)
     (path m) (filename m) (containing_id m) (offset m).
Definition set_size (v : Z) (m : t) : t :=
  mk (id m) (base m) (end_ m) v (entry m) (checksum m) (timestamp m)
     (path m) (filename m) (containing_id m) (offset m).
Definition set_entry (v : Z) (m : t) : t :=
  mk (id m) (base m) (end_ m) (size m) v (checksum m) (timestamp m)
     (path m) (filename m) (containing_id m) (offset m).
Definition set_checksum (v : Z) (m : t) : t :=
  mk (id m) (base m) (end_ m) (size m) (entry m) v (timestamp m)
     (path m) (filename m) (containing_id m) (offset m).
Definition set_timestamp (v : Z) (m : t) : t :=
  mk (id m) (base m) (end_ m) (size m) (entry m) (checksum m) v
     (path m) (filename m) (containing_id m) (offset m).
Definition set_path (v : str) (m : t) : t :=
  mk (id m) (base m) (end_ m) (size m) (entry m) (checksum m) (timestamp m)
     v (filename m) (containing_id m) (offset m).
Definition set_filename (v : str) (m : t) : t :=
  mk (id m) (base m) (end_ m) (size m) (entry m) (checksum m) (timestamp m)
     (path m) v (containing_id m) (offset m).
Definition set_containing_id (v : Z) (m : t) : t :=
  mk (id m) (base m) (end_ m) (size m) (entry m) (checksum m) (timestamp m)
     (path m) (filename m) v (offset m).
Definition set_offset (v : Z) (m : t) : t :=
  mk (id m) (base m) (end_ m) (size m) (entry m) (checksum m) (timestamp m)
     (path m) (filename m) (containing_id m) (Some v).

(** The attributes [__init__] assigns before it parses the line. *)
Definition init : t :=
  mk 0 0 0 0 0 0 0 EmptyString EmptyString 0 None.

(** [int(data[i])] and [int(data[i], 16)]: the index is evaluated first. *)
Definition int_field (base_ : Z) (data : list bytes) (i : nat) : M t Z :=
  lift (match index data i with
        | Ok b => py_int base_ b
        | Raise e => Raise e
        end).

(** [data[-1].decode()]. *)
Definition last_field (data : list bytes) : M t str :=
  lift (match index_last data with
        | Ok b => bytes_decode b
        | Raise e => Raise e
        end).

(** [self.filename = os.path.basename(self.path).strip("'")]. *)
Definition assign_filename : M t unit :=
  do self <- get;
  modify (set_filename (str_strip "'" (basename (path self)))).

Definition _parse_module_v1 (data : list bytes) : M t unit :=
  do v <- int_field 10 data 0; modify (set_id v) ;;
  do v <- int_field 10 data 1; modify (set_size v) ;;
  do v <- lift (match index data 2 with
                | Ok b => bytes_decode b
                | Raise e => Raise e
                end);
  modify (set_path v) ;;
  assign_filename.

Definition _parse_module_v2 (data : list bytes) : M t unit :=
  do v <- int_field 10 data 0; modify (set_id v) ;;
  do v <- int_field 16 data 1; modify (set_base v) ;;
  do v <- int_field 16 data 2; modify (set_end v) ;;
  do v <- int_field 16 data 3; modify (set_entry v) ;;
  (if (length data =? 7)%nat
   then do v <- int_field 16 data 4; modify (set_checksum v) ;;
        do v <- int_field 16 data 5; modify (set_timestamp v)
   else ret tt) ;;
  do v <- last_field data; modify (set_path v) ;;
  do self <- get; modify (set_size (end_ self - base self)) ;;
  assign_filename.

Definition _parse_module_v3 (data : list bytes) : M t unit :=
  do v <- int_field 10 data 0; modify (set_id v) ;;
  do v <- int_field 10 data 1; modify (set_containing_id v) ;;
  do v <- int_field 16 data 2; modify (set_base v) ;;
  do v <- int_field 16 data 3; modify (set_end v) ;;
  do v <- int_field 16 data 4; modify (set_entry v) ;;
  (if (length data =? 7)%nat
   then do v <- int_field 16 data 5; modify (set_checksum v) ;;
        do v <- int_field 16 data 6; modify (set_timestamp v)
   else ret tt) ;;
  do v <- last_field data; modify (set_path v) ;;
  do self <- get; modify (set_size (end_ self - base self)) ;;
  assign_filename.

Definition _parse_module_v4 (data : list bytes) : M t unit :=
  do v <- int_field 10 data 0; modify (set_id v) ;;
  do v <- int_field 10 data 1; modify (set_containing_id v) ;;
  do v <- int_field 16 data 2; modify (set_base v) ;;
  do v <- int_field 16 data 3; modify (set_end v) ;;
  do v <- int_field 16 data 4; modify (set_entry v) ;;
  do v <- int_field 16 data 5; modify (set_offset v) ;;
  (if (length data =? 7)%nat
   then do v <- int_field 16 data 6; modify (set_checksum v) ;;
        do v <- int_field 16 data 7; modify (set_timestamp v)
   else ret tt) ;;
  do v <- last_field data; modify (set_path v) ;;
  do self <- get; modify (set_size (end_ self - base self)) ;;
  assign_filename.

Definition _parse_module (module_line : bytes) (version : Z) : M t unit :=
  let data := bytes_split (B ", ") module_line in
  if version =? 1 then _parse_module_v1 data
  else if version =? 2 then _parse_module_v2 data
  else if version =? 3 then _parse_module_v3 data
  else if version =? 4 then _parse_module_v4 data
  else raise ValueError.

(** [DrcovModule(module_data, version)]: the object, or the exception
    that left the constructor. *)
Definition new (module_data : bytes) (version : Z) : result t :=
  match _parse_module module_data version init with
  | (Ok _, self) => Ok self
  | (Raise e, _) => Raise e
  end.

End DrcovModule.

(** ** The text form of a block record *)

(** [\s] of a [str] pattern, in the ASCII range. *)
Definition is_re_space (c : ascii) : bool :=
  let n := nat_of_ascii c in
  (n =? 32)%nat || ((9 <=? n)%nat && (n <=? 13)%nat)
  || ((28 <=? n)%nat && (n <=? 31)%nat).

Definition is_dec_digit (c : ascii) : bool :=
  let n := nat_of_ascii c in (48 <=? n)%nat && (n <=? 57)%nat.

Definition is_hex_lower (c : ascii) : bool :=
  let n := nat_of_ascii c in
  is_dec_digit c || ((97 <=? n)%nat && (n <=? 102)%nat).

(** The longest prefix of [s] in the class [p], and what follows it. *)
Fixpoint span (p : ascii → bool) (s : bytes) : bytes * bytes :=
  match s with
  | c :: s' =>
      if p c then let '(a, b) := span p s' in (c :: a, b) else ([], s)
  | [] => ([], [])
  end.

(** [s] without the literal [lit] in front. *)
Fixpoint expect (lit s : bytes) : option bytes :=
  match lit, s with
  | [], _ => Some s
  | a :: lit', c :: s' => if Ascii.eqb a c then expect lit' s' else None
  | _ :: _, [] => None
  end.

(** A non-empty run of the class [p]. *)
Definition some_of (p : ascii → bool) (s : bytes) : option (bytes * bytes) :=
  match span p s with
  | ([], _) => None
  | r => Some r
  end.

(** The pattern
    [^module\[\s*(?P<mod>[0-9]+)\]\:\s*(?P<start>0x[0-9a-f]+)\,\s*(?P<size>[0-9]+)$]
    on a [str]; the groups [mod], [start] and [size] of a match.  Each
    repetition is followed by a character outside its class, so the
    greedy match is the only one; [$] also matches before a final line
    feed. *)
Definition bb_pattern (s : str) : option (str * str * str) :=
  s0 ← expect (B "module[") (list_ascii_of_string s);
  '(mod_, s1) ← some_of is_dec_digit (snd (span is_re_space s0));
  s2 ← expect (B "]:") s1;
  s3 ← expect (B "0x") (snd (span is_re_space s2));
  '(hex, s4) ← some_of is_hex_lower s3;
  s5 ← expect (B ",") s4;
  '(size_, s6) ← some_of is_dec_digit (snd (span is_re_space s5));
  if bool_decide (s6 = []) || bool_decide (s6 = [LF])
  then Some (string_of_list_ascii mod_,
             string_of_list_ascii (B "0x" ++ hex),
             string_of_list_ascii size_)
  else None.

(** [pattern.match(subject)] for the compiled [str] pattern: a [bytes]
    subject raises [TypeError]. *)
Definition pattern_match (subject : pyval)
    : result (option (str * str * str)) :=
  match subject with
  | PyStr s => Ok (bb_pattern s)
  | PyBytes _ => Raise TypeError
  end.

(** ** Hit-count aggregation *)

Module HitCount.

(** The dictionary [bb_hit_count_map]: module id, then block offset, then
    the count. *)
Abbreviation hit_map := (gmap Z (gmap Z Z)).

(** One iteration of the loop of [_generate_bb_hit_count_map]. *)
Definition record_hit (m : hit_map) (bb : DrcovBasicBlock.t) : hit_map :=
  let mod_id := DrcovBasicBlock.mod_id bb in
  let m1 := match m !! mod_id with
            | None => <[mod_id := ∅]> m
            | Some _ => m
            end in
  let inner := default ∅ (m1 !! mod_id) in
  match inner !! DrcovBasicBlock.offset bb with
  | Some c => <[mod_id := <[DrcovBasicBlock.offset bb := c + 1]> inner]> m1
  | None => <[mod_id := <[DrcovBasicBlock.offset bb := 1]> inner]> m1
  end.

(** The loop, from the dictionary held so far. *)
Definition generate (m : hit_map) (raw : list DrcovBasicBlock.t) : hit_map :=
  foldl record_hit m raw.

(** [m[mod_id][offset]] when both keys are present. *)
Definition hit_count (m : hit_map) (mid off : Z) : option Z :=
  m !! mid ≫= (λ inner, inner !! off).

(** The sum of the counts of one inner dictionary, and of all of them. *)
Definition sum_counts (inner : gmap Z Z) : Z :=
  map_fold (λ _ c acc, acc + c) 0 inner.

Definition total_hits (m : hit_map) : Z :=
  map_fold (λ _ inner acc, acc + sum_counts inner) 0 m.

(** How often a pair occurs in a block sequence. *)
Definition same_key (mid off : Z) (bb : DrcovBasicBlock.t) : bool :=
  bool_decide (DrcovBasicBlock.mod_id bb = mid)
  && bool_decide (DrcovBasicBlock.offset bb = off).

Fixpoint occurrences (mid off : Z) (bbs : list DrcovBasicBlock.t) : Z :=
  match bbs with
  | [] => 0
  | bb :: bbs' =>
      (if same_key mid off bb then 1 else 0) + occurrences mid off bbs'
  end.

End HitCount.

(** ** class [DrcovParser] *)

Module DrcovParser.

(** The attributes of the parser object. *)
Record t : Type := mk {
  data : bytes;
  _parsed : bool;
  version : Z;
  flavor : option bytes;
  module_table_count : Z;
  module_table_version : Z;
  _raw_modules : list DrcovModule.t;
  _parsed_modules : list ParsedModule.t;
  bb_table_count : Z;
  bb_table_is_binary : bool;
  _raw_basic_blocks : list DrcovBasicBlock.t;
  _parsed_basic_blocks : list ParsedBasicBlock.t;
  bb_hit_count_map : HitCount.hit_map
}.

(** The object after the assignments of [__init__], before [parse()]. *)
Definition init (data_ : bytes) : t :=
  mk data_ false 0 None 0 0 [] [] 0 true [] [] ∅.

Definition set_parsed (v : bool) (o : t) : t :=
  mk (data o) v (version o) (flavor o) (module_table_count o)
     (module_table_version o) (_raw_modules o) (_parsed_modules o)
     (bb_table_count o) (bb_table_is_binary o) (_raw_basic_blocks o)
     (_parsed_basic_blocks o) (bb_hit_count_map o).
Definition set_version (v : Z) (o : t) : t :=
  mk (data o) (_parsed o) v (flavor o) (module_table_count o)
     (module_table_version o) (_raw_modules o) (_parsed_modules o)
     (bb_table_count o) (bb_table_is_binary o) (_raw_basic_blocks o)
     (_parsed_basic_blocks o) (bb_hit_count_map o).
Definition set_flavor (v : bytes) (o : t) : t :=
  mk (data o) (_parsed o) (version o) (Some v) (module_table_count o)
     (module_table_version o) (_raw_modules o) (_parsed_modules o)
     (bb_table_count o) (bb_table_is_binary o) (_raw_basic_blocks o)
     (_parsed_basic_blocks o) (bb_hit_count_map o).
Definition set_module_table_count (v : Z) (o : t) : t :=
  mk (data o) (_parsed o) (version o) (flavor o) v
     (module_table_version o) (_raw_modules o) (_parsed_modules o)
     (bb_table_count o) (bb_table_is_binary o) (_raw_basic_blocks o)
     (_parsed_basic_blocks o) (bb_hit_count_map o).
Definition set_module_table_version (v : Z) (o : t) : t :=
  mk (data o) (_parsed o) (version o) (flavor o) (module_table_count o)
     v (_raw_modules o) (_parsed_modules o)
     (bb_table_count o) (bb_table_is_binary o) (_raw_basic_blocks o)
     (_parsed_basic_blocks o) (bb_hit_count_map o).
Definition set_raw_modules (v : list DrcovModule.t) (o : t) : t :=
  mk (data o) (_parsed o) (version o) (flavor o) (module_table_count o)
     (module_table_version o) v (_parsed_modules o)
     (bb_table_count o) (bb_table_is_binary o) (_raw_basic_blocks o)
     (_parsed_basic_blocks o) (bb_hit_count_map o).
Definition set_parsed_modules (v : list ParsedModule.t) (o : t) : t :=
  mk (data o) (_parsed o) (version o) (flavor o) (module_table_count o)
     (module_table_version o) (_raw_modules o) v
     (bb_table_count o) (bb_table_is_binary o) (_raw_basic_blocks o)
     (_parsed_basic_blocks o) (bb_hit_count_map o).
Definition set_bb_table_count (v : Z) (o : t) : t :=
  mk (data o) (_parsed o) (version o) (flavor o) (module_table_count o)
     (module_table_version o) (_raw_modules o) (_parsed_modules o)
     v (bb_table_is_binary o) (_raw_basic_blocks o)
     (_parsed_basic_blocks o) (bb_hit_count_map o).
Definition set_bb_table_is_binary (v : bool) (o : t) : t :=
  mk (data o) (_parsed o) (version o) (flavor o) (module_table_count o)
     (module_table_version o) (_raw_modules o) (_parsed_modules o)
     (bb_table_count o) v (_raw_basic_blocks o)
     (_parsed_basic_blocks o) (bb_hit_count_map o).
Definition set_raw_basic_blocks (v : list DrcovBasicBlock.t) (o : t) : t :=
  mk (data o) (_parsed o) (version o) (flavor o) (module_table_count o)
     (module_table_version o) (_raw_modules o) (_parsed_modules o)
     (bb_table_count o) (bb_table_is_binary o) v
     (_parsed_basic_blocks o) (bb_hit_count_map o).
Definition set_parsed_basic_blocks (v : list ParsedBasicBlock.t) (o : t) : t :=
  mk (data o) (_parsed o) (version o) (flavor o) (module_table_count o)
     (module_table_version o) (_raw_modules o) (_parsed_modules o)
     (bb_table_count o) (bb_table_is_binary o) (_raw_basic_blocks o)
     v (bb_hit_count_map o).
Definition set_bb_hit_count_map (v : HitCount.hit_map) (o : t) : t :=
  mk (data o) (_parsed o) (version o) (flavor o) (module_table_count o)
     (module_table_version o) (_raw_modules o) (_parsed_modules o)
     (bb_table_count o) (bb_table_is_binary o) (_raw_basic_blocks o)
     (_parsed_basic_blocks o) v.

(** What a parsing routine works on: the object and the open stream. *)
Record env : Type := mkEnv {
  self : t;
  f : stream
}.

Definition assign (g : t → t) : M env unit :=
  modify (λ e, mkEnv (g (self e)) (f e)).

Definition this : M env t := do e <- get; ret (self e).

Definition on_stream {A} (op : stream → A * stream) : M env A :=
  λ e, let '(a, f') := op (f e) in (Ok a, mkEnv (self e) f').

(** [f.readline().strip()]. *)
Definition readline_strip : M env bytes :=
  do line <- on_stream stream_readline; ret (bytes_strip line).

(** [_parse_drcov_header]; the [print] of the version line writes to
    standard output and is left out. *)
Definition _parse_drcov_header : M env unit :=
  do version_line <- readline_strip;
  do v <- lift (match index (bytes_split (B ":") version_line) 1 with
                | Ok b => py_int 10 b
                | Raise e => Raise e
                end);
  assign (set_version v) ;;
  do flavor_line <- readline_strip;
  do fl <- lift (index (bytes_split (B ":") flavor_line) 1);
  assign (set_flavor fl) ;;
  do o <- this;
  if version o =? 2 then ret tt else raise AssertionError.

Definition _parse_module_table_header : M env unit :=
  do header_line <- readline_strip;
  do '(field_name, field_data) <-
    lift (unpack2 (bytes_split (B ": ") header_line));
  match unpack2 (bytes_split (B ", ") field_data) with
  | Raise _ =>
      (* except ValueError: the older, v1 table *)
      do c <- lift (py_int 10 field_data);
      assign (set_module_table_count c) ;;
      assign (set_module_table_version 1)
  | Ok (version_data, count_data) =>
      do '(data_name, version_) <-
        lift (unpack2 (bytes_split (B " ") version_data));
      do v <- lift (py_int 10 version_);
      assign (set_module_table_version v) ;;
      (if bool_decide (v ∈ [2; 3; 4]) then ret tt else raise ValueError) ;;
      do '(data_name, count) <-
        lift (unpack2 (bytes_split (B " ") count_data));
      do c <- lift (py_int 10 count);
      assign (set_module_table_count c)
  end.

Definition _parse_module_table_columns : M env unit :=
  do o <- this;
  if module_table_version o =? 1 then ret tt
  else
    do column_line <- readline_strip;
    do '(field_name, field_data) <-
      lift (unpack2 (bytes_split (B ": ") column_line));
    let columns := bytes_split (B ", ") field_data in
    ret tt.

(** [range(0, n)] is empty for a negative [n]. *)
Definition range (n : Z) : list nat := seq 0 (Z.to_nat n).

Definition _parse_module_table_modules : M env unit :=
  do o <- this;
  for_each (range (module_table_count o)) (λ i,
    do line <- readline_strip;
    do o <- this;
    do module <- lift (DrcovModule.new line (module_table_version o));
    assign (λ o, set_raw_modules (_raw_modules o ++ [module]) o)).

Definition _parse_module_table : M env unit :=
  _parse_module_table_header ;;
  _parse_module_table_columns ;;
  _parse_module_table_modules.

Definition _parse_bb_table_header : M env unit :=
  do header_line <- readline_strip;
  do '(field_name, field_data) <-
    lift (unpack2 (bytes_split (B ": ") header_line));
  do '(count_data, data_name) <-
    lift (unpack2 (bytes_split (B " ") field_data));
  do c <- lift (py_int 10 count_data);
  assign (set_bb_table_count c) ;;
  let token : str := "module id" in
  do e <- get;
  let saved_position := pos (f e) in
  do got <- on_stream (stream_read (String.length token));
  (if py_eq (PyBytes got) (PyStr token)
   then assign (set_bb_table_is_binary false)
   else assign (set_bb_table_is_binary true)) ;;
  on_stream (λ s, (tt, stream_seek saved_position s)).

(** [basic_block.<field> = v] for the element at index [i] of the array. *)
Definition assign_block (i : nat)
    (g : DrcovBasicBlock.t → DrcovBasicBlock.t) : M env unit :=
  assign (λ o, set_raw_basic_blocks (alter g i (_raw_basic_blocks o)) o).

(** [_parse_bb_table_entries].  The creation of the array,
    [(DrcovBasicBlock * n)()], is modelled for the counts an array can
    have on the host: it raises [ValueError] for a negative [n] and gives
    [n] zero records otherwise.  CPython raises [OverflowError] instead
    for [n] below [-2^63] and from [2^60] on, and [MemoryError] when the
    host cannot give [8 n] bytes; the statements that rest on the
    creation of the array keep the count within the range modelled. *)
Definition _parse_bb_table_entries : M env unit :=
  do o <- this;
  (if bb_table_count o <? 0 then raise ValueError
   else assign (set_raw_basic_blocks
                  (replicate (Z.to_nat (bb_table_count o))
                             DrcovBasicBlock.zero))) ;;
  do o <- this;
  if bb_table_is_binary o
  then
    do '(n, arr) <- on_stream (stream_readinto (_raw_basic_blocks o));
    assign (set_raw_basic_blocks arr)
  else
    do text_entry <- readline_strip;
    (if py_ne (PyBytes text_entry) (PyStr "module id, start, size:")
     then raise ValueError else ret tt) ;;
    for_each (seq 0 (length (_raw_basic_blocks o))) (λ i,
      do text_entry <- readline_strip;
      do match_ <- lift (pattern_match (PyBytes text_entry));
      match match_ with
      | None => raise ValueError
      | Some (mod_, start, size_) =>
          do v <- lift (py_int 16 (list_ascii_of_string start));
          assign_block i (DrcovBasicBlock.set_offset v) ;;
          do v <- lift (py_int 10 (list_ascii_of_string size_));
          assign_block i (DrcovBasicBlock.set_size v) ;;
          do v <- lift (py_int 10 (list_ascii_of_string mod_));
          assign_block i (DrcovBasicBlock.set_mod_id v)
      end).

Definition _parse_bb_table : M env unit :=
  _parse_bb_table_header ;;
  _parse_bb_table_entries.

Definition _generate_bb_hit_count_map : M env unit :=
  assign (λ o, set_bb_hit_count_map
                 (HitCount.generate (bb_hit_count_map o)
                                    (_raw_basic_blocks o)) o).

(** The body of the [with] block of [_parse_drcov_data] and of
    [_parse_drcov_file]. *)
Definition parse_stream : M env unit :=
  _parse_drcov_header ;;
  _parse_module_table ;;
  _parse_bb_table ;;
  _generate_bb_hit_count_map.

(** [_parse_drcov_data]: the stream is opened on the blob, and closed
    when the block is left, by an exception too.  [_parse_drcov_file]
    does the same on the bytes of the file. *)
Definition _parse_drcov_data (drcov_data : bytes) : M t unit :=
  λ o, let '(r, e) := parse_stream (mkEnv o (mkStream drcov_data 0)) in
       (r, self e).

Definition to_parsed_module (raw : DrcovModule.t) : ParsedModule.t :=
  ParsedModule.mk (DrcovModule.id raw) (DrcovModule.filename raw)
                  (DrcovModule.base raw) (DrcovModule.end_ raw)
                  (DrcovModule.size raw) (DrcovModule.checksum raw)
                  (DrcovModule.path raw) (DrcovModule.entry raw).

Definition to_parsed_block (raw : DrcovBasicBlock.t) : ParsedBasicBlock.t :=
  ParsedBasicBlock.mk (DrcovBasicBlock.offset raw)
                      (DrcovBasicBlock.size raw)
                      (DrcovBasicBlock.mod_id raw).

Definition _convert_to_parsed_objects : M t unit :=
  modify (λ o, set_parsed_modules (to_parsed_module <$> _raw_modules o) o) ;;
  modify (λ o, set_parsed_basic_blocks
                 (to_parsed_block <$> _raw_basic_blocks o) o).

Definition parse : M t unit :=
  do o <- get;
  if _parsed o then ret tt
  else
    _parse_drcov_data (data o) ;;
    _convert_to_parsed_objects ;;
    modify (set_parsed true).

(** [DrcovParser(data=blob)]: [__init__] assigns the attributes and calls
    [parse()]; the object, or the exception that left the constructor. *)
Definition new (blob : bytes) : result t :=
  match parse (init blob) with
  | (Ok _, o) => Ok o
  | (Raise e, _) => Raise e
  end.

Definition get_modules (o : t) : list ParsedModule.t := _parsed_modules o.

Definition get_basic_blocks (o : t) : list ParsedBasicBlock.t :=
  _parsed_basic_blocks o.

(** The first module of the table whose lower-cased file name contains
    the lower-cased name: the [for] loop that returns at its first hit. *)
Definition lookup_fuzzy (o : t) (module_name : str) : option ParsedModule.t :=
  List.find (λ module,
               str_contains (str_lower module_name)
                            (str_lower (ParsedModule.filename module)))
            (_parsed_modules o).

Definition get_module (o : t) (module_name : str) (fuzzy : bool)
    : option ParsedModule.t :=
  if fuzzy then
    match lookup_fuzzy o module_name with
    | Some module => Some module
    | None =>
        let module_name :=
          if str_contains "." module_name
          then match str_split "." module_name with
               | first :: _ => first
               | [] => module_name
               end
          else module_name in
        lookup_fuzzy o module_name
    end
  else
    List.find (λ module,
                 bool_decide (module_name = ParsedModule.filename module))
              (_parsed_modules o).

(** [get_blocks_by_module]: a [ParsedModule] object is true, so
    [not module] holds for [None] only. *)
Definition get_blocks_by_module (o : t) (module_name : str)
    : result (list ParsedBasicBlock.t) :=
  match get_module o module_name true with
  | None => Raise ValueError
  | Some module =>
      let mod_id := ParsedModule.id module in
      Ok (List.filter (λ bb, bool_decide (ParsedBasicBlock.mod_id bb = mod_id))
                      (_parsed_basic_blocks o))
  end.

End DrcovParser.

(** ** Notions of the statements *)

(** [a] occurs in [b] as a contiguous piece. *)
Definition is_substring (a b : str) : Prop :=
  ∃ pre post : str, b = pre +:+ a +:+ post.

(** The text before the first ['.'], the whole text when it has none. *)
Fixpoint before_first_dot (s : str) : str :=
  match s with
  | EmptyString => EmptyString
  | String c s' =>
      if Ascii.eqb c "." then EmptyString else String c (before_first_dot s')
  end.

(** A module is a hit of a fuzzy query: its lower-cased file name
    contains the lower-cased query. *)
Definition fuzzy_hit (query : str) (module : ParsedModule.t) : Prop :=
  is_substring (str_lower query) (str_lower (ParsedModule.filename module)).

(** [r] is the first element of [xs], in the order of [xs], that
    satisfies [P]; [None] when no element does. *)
Definition first_in_order {A} (P : A → Prop) (xs : list A) (r : option A)
    : Prop :=
  match r with
  | Some x =>
      ∃ before after,
        xs = before ++ x :: after ∧ P x ∧ Forall (λ y, ¬ P y) before
  | None => Forall (λ y, ¬ P y) xs
  end.

(** The widths of the fields of a block record. *)
Definition fits_widths (bb : ParsedBasicBlock.t) : Prop :=
  0 ≤ ParsedBasicBlock.offset bb < 2 ^ 32
  ∧ 0 ≤ ParsedBasicBlock.size bb < 2 ^ 16
  ∧ 0 ≤ ParsedBasicBlock.mod_id bb < 2 ^ 16.

(** The log version the first line of an input declares. *)
Definition header_version (blob : bytes) : result Z :=
  match index (bytes_split (B ":") (bytes_strip (take_line blob))) 1 with
  | Ok b => py_int 10 b
  | Raise e => Raise e
  end.

(** The parsing environment at the start of a blob. *)
Definition start_env (blob : bytes) : DrcovParser.env :=
  DrcovParser.mkEnv (DrcovParser.init blob) (mkStream blob 0).

(** The bytes the stream still holds once the header line of the block
    table has been read: what there is for the block records. *)
Definition bb_records_available (blob : bytes) : bytes :=
  stream_rest
    (DrcovParser.f
       (snd ((DrcovParser._parse_drcov_header ;;
              DrcovParser._parse_module_table ;;
              DrcovParser._parse_bb_table_header) (start_env blob)))).

(** *** The two encodings of a block sequence, as the format defines them *)

Definition decimal (v : Z) : bytes :=
  B (DecimalString.NilEmpty.string_of_uint (N.to_uint (Z.to_N v))).

Definition hexadecimal (v : Z) : bytes :=
  B (HexadecimalString.NilEmpty.string_of_uint (N.to_hex_uint (Z.to_N v))).

(** Packed records of eight bytes. *)
Definition binary_encoding (bbs : list DrcovBasicBlock.t) : bytes :=
  array_bytes bbs.

(** The line [module[<mod>]: 0x<start>, <size>] of one block. *)
Definition text_line (bb : DrcovBasicBlock.t) : bytes :=
  B "module[" ++ decimal (DrcovBasicBlock.mod_id bb) ++ B "]: 0x"
  ++ hexadecimal (DrcovBasicBlock.offset bb) ++ B ", "
  ++ decimal (DrcovBasicBlock.size bb) ++ [LF].

(** The literal header line, then one line for each block. *)
Definition text_encoding (bbs : list DrcovBasicBlock.t) : bytes :=
  B "module id, start, size:" ++ [LF] ++ concat (text_line <$> bbs).

(** The header line [BB Table: <n> bbs] in front of an encoding. *)
Definition bb_table (n : nat) (records : bytes) : bytes :=
  B "BB Table: " ++ decimal (Z.of_nat n) ++ B " bbs" ++ [LF] ++ records.

(** The block table read from a stream that starts at its header line,
    by an object fresh from [__init__]. *)
Definition decode_bb_table (table : bytes)
    : result (list DrcovBasicBlock.t) :=
  match DrcovParser._parse_bb_table
          (DrcovParser.mkEnv (DrcovParser.init table) (mkStream table 0)) with
  | (Ok _, e) => Ok (DrcovParser._raw_basic_blocks (DrcovParser.self e))
  | (Raise x, _) => Raise x
  end.

(** What the last steps of [parse] make of the object the stream was
    parsed into: the hit counts, the parsed objects, the mark. *)
Definition finish (o : DrcovParser.t) : DrcovParser.t :=
  let o1 := DrcovParser.set_bb_hit_count_map
              (HitCount.generate (DrcovParser.bb_hit_count_map o)
                                 (DrcovParser._raw_basic_blocks o)) o in
  let o2 := DrcovParser.set_parsed_modules
              (DrcovParser.to_parsed_module <$> DrcovParser._raw_modules o1)
              o1 in
  let o3 := DrcovParser.set_parsed_basic_blocks
              (DrcovParser.to_parsed_block
                 <$> DrcovParser._raw_basic_blocks o2) o2 in
  DrcovParser.set_parsed true o3.

(** [DrcovParser(data=blob).get_basic_blocks()]. *)
Definition parsed_blocks (blob : bytes) : result (list ParsedBasicBlock.t) :=
  match DrcovParser.new blob with
  | Ok o => Ok (DrcovParser.get_basic_blocks o)
  | Raise x => Raise x
  end.

(** *** A sample log *)

Definition lines (ls : list str) : bytes :=
  concat ((λ l, B l ++ [LF]) <$> ls).

(** The header and the module table of the end-to-end scenario. *)
Definition sample_head : bytes :=
  lines ["DRCOV VERSION: 2";
         "DRCOV FLAVOR: drcov";
         "Module Table: version 2, count 1";
         "Columns: id, base, end, entry, path";
         "0, 0x400000, 0x401000, 0x400010, target.exe"].

Definition sample_block : DrcovBasicBlock.t := DrcovBasicBlock.mk 16 4 0.

(** Letters and digits: the characters of a printed number. *)
Definition alnum (c : ascii) : Prop := is_Some (digit_value c).

(** *** The entry line of a module, as the format lays it out *)

Definition hex_field (v : Z) : bytes := B "0x" ++ hexadecimal v.

(** The fields, joined by comma and space. *)
Fixpoint join_fields (fields : list bytes) : bytes :=
  match fields with
  | [] => []
  | [x] => x
  | x :: rest => x ++ B ", " ++ join_fields rest
  end.

(** The line of module [m] in the layout of table version [version];
    [windows] says whether the checksum and timestamp pair is there. *)
Definition entry_line (version : Z) (windows : bool) (m : DrcovModule.t)
    : bytes :=
  let pair :=
    if windows
    then [hex_field (DrcovModule.checksum m);
          hex_field (DrcovModule.timestamp m)]
    else [] in
  let path := [list_ascii_of_string (DrcovModule.path m)] in
  let addresses :=
    [hex_field (DrcovModule.base m); hex_field (DrcovModule.end_ m);
     hex_field (DrcovModule.entry m)] in
  join_fields
    (if version =? 1 then
       [decimal (DrcovModule.id m); decimal (DrcovModule.size m)] ++ path
     else if version =? 2 then
       [decimal (DrcovModule.id m)] ++ addresses ++ pair ++ path
     else if version =? 3 then
       [decimal (DrcovModule.id m); decimal (DrcovModule.containing_id m)]
       ++ addresses ++ pair ++ path
     else
       [decimal (DrcovModule.id m); decimal (DrcovModule.containing_id m)]
       ++ addresses ++ [hex_field (default 0 (DrcovModule.offset m))]
       ++ pair ++ path).

(** The modules an entry line can carry: numbers that are not negative,
    an ASCII path without the separator. *)
Definition encodable (m : DrcovModule.t) : Prop :=
  0 ≤ DrcovModule.id m
  ∧ 0 ≤ DrcovModule.containing_id m
  ∧ 0 ≤ DrcovModule.base m
  ∧ 0 ≤ DrcovModule.end_ m
  ∧ 0 ≤ DrcovModule.size m
  ∧ 0 ≤ DrcovModule.entry m
  ∧ 0 ≤ DrcovModule.checksum m
  ∧ 0 ≤ DrcovModule.timestamp m
  ∧ 0 ≤ default 0 (DrcovModule.offset m)
  ∧ Forall (λ c, (nat_of_ascii c < 128)%nat)
           (list_ascii_of_string (DrcovModule.path m))
  ∧ ¬ ∃ pre post,
        list_ascii_of_string (DrcovModule.path m) = pre ++ B ", " ++ post.

(** What the line of [m] in the layout of [version] is to decode to:
    the fields the layout carries, the size from the addresses (from the
    size field in version 1), the file name from the path; a field the
    layout does not carry keeps its initial value. *)
Definition expected_module (version : Z) (windows : bool)
    (m : DrcovModule.t) : DrcovModule.t :=
  let v1 := version =? 1 in
  let pair := windows && negb v1 in
  DrcovModule.mk
    (DrcovModule.id m)
    (if v1 then 0 else DrcovModule.base m)
    (if v1 then 0 else DrcovModule.end_ m)
    (if v1 then DrcovModule.size m
     else DrcovModule.end_ m - DrcovModule.base m)
    (if v1 then 0 else DrcovModule.entry m)
    (if pair then DrcovModule.checksum m else 0)
    (if pair then DrcovModule.timestamp m else 0)
    (DrcovModule.path m)
    (str_strip "'" (basename (DrcovModule.path m)))
    (if (version =? 3) || (version =? 4)
     then DrcovModule.containing_id m else 0)
    (if version =? 4 then Some (default 0 (DrcovModule.offset m))
     else None).

(** A module loaded at 0x400000, with a checksum and a timestamp. *)
Definition sample_module (offset : option Z) : DrcovModule.t :=
  DrcovModule.mk 7 4194304 4198400 4096 4194320 4660 22136
                 "/bin/ls" "ls" 1 offset.

(** *** Quotes around a file name *)

Definition only_quotes (s : str) : Prop :=
  Forall (λ c, c = "'"%char) (list_ascii_of_string s).

Definition starts_with_quote (s : str) : Prop :=
  ∃ rest, s = String "'" rest.

Definition ends_with_quote (s : str) : Prop :=
  ∃ front, s = front +:+ "'".

(** *** The file name of a module as the specification words it *)

Definition is_quote (c : ascii) : bool :=
  Ascii.eqb c "'" || Ascii.eqb c (ascii_of_nat 34).

(** One layer of surrounding quotes goes when the same quote character
    stands at both ends; any other text is kept. *)
Definition strip_one_quote_layer (s : str) : str :=
  match list_ascii_of_string s with
  | c :: rest =>
      match rev rest with
      | d :: mid =>
          if is_quote c && Ascii.eqb c d
          then string_of_list_ascii (rev mid)
          else s
      | [] => s
      end
  | [] => s
  end.

Definition spec_filename (path : str) : str :=
  strip_one_quote_layer (basename path).

(** ** Further notions of the statements *)

(** A line of text as the parser gets it back from
    [f.readline().strip()]: no line feed inside, no white space at
    either end. *)
Definition clean (l : bytes) : Prop :=
  Forall (λ c, c ≠ LF) l
  ∧ (∀ c, head l = Some c → is_space c = false)
  ∧ (∀ c, last l = Some c → is_space c = false).

(** [is_parsed()] of base.py. *)
Definition is_parsed (o : DrcovParser.t) : bool := DrcovParser._parsed o.

(** Text of ASCII characters, the range in which [str_lower] is
    [str.lower()]. *)
Definition ascii_text (s : str) : Prop :=
  Forall (λ c, (nat_of_ascii c < 128)%nat) (list_ascii_of_string s).

(** An array of [n] records is no larger than the input the stream was
    opened on: such an array can be created whenever the input itself
    could be held. *)
Definition array_within_input (n : Z) (s : stream) : Prop :=
  8 * n ≤ Z.of_nat (length (buf s)).

(** *** A log, line by line *)

(** The lines [ls], each closed by a line feed, then [rest]. *)
Fixpoint lines_then (ls : list bytes) (rest : bytes) : bytes :=
  match ls with
  | [] => rest
  | l :: ls' => l ++ LF :: lines_then ls' rest
  end.

Definition version_line (v : Z) : bytes := B "DRCOV VERSION: " ++ decimal v.

Definition flavor_line (fl : bytes) : bytes := B "DRCOV FLAVOR: " ++ fl.

(** The header line of the module table: the legacy form for version 1,
    the form with a version token otherwise. *)
Definition module_table_line (version count : Z) : bytes :=
  if version =? 1 then B "Module Table: " ++ decimal count
  else B "Module Table: version " ++ decimal version
       ++ B ", count " ++ decimal count.

Definition columns_line (cols : bytes) : bytes := B "Columns: " ++ cols.

Definition bb_table_line (n : Z) : bytes :=
  B "BB Table: " ++ decimal n ++ B " bbs".

(** Text that can stand after the colon of a line: not empty, clean, and
    without a colon of its own. *)
Definition phrase (t : bytes) : Prop :=
  t ≠ [] ∧ clean t ∧ Forall (λ c, c ≠ ":"%char) t.

(** A path that an entry line can end with and the line stay clean. *)
Definition clean_path (m : DrcovModule.t) : Prop :=
  list_ascii_of_string (DrcovModule.path m) ≠ []
  ∧ clean (list_ascii_of_string (DrcovModule.path m)).

(** A whole log: the two header lines, the module table with its header
    line, its columns line (none in table version 1) and its entries,
    then the block table with its header line and its packed records,
    and whatever bytes follow them. *)
Definition drcov_log (fl cols : bytes) (version : Z) (windows : bool)
    (ms : list DrcovModule.t) (bbs : list DrcovBasicBlock.t) (tail : bytes)
    : bytes :=
  lines_then
    ([version_line 2; flavor_line fl;
      module_table_line version (Z.of_nat (length ms))]
     ++ (if version =? 1 then [] else [columns_line cols])
     ++ (entry_line version windows <$> ms)
     ++ [bb_table_line (Z.of_nat (length bbs))])
    (binary_encoding bbs ++ tail).

(** *** The hit counts of one module *)

(** The exceptions of [get_hit_count_map_by_module]: the [ValueError] it
    raises itself, and the [KeyError] of a dictionary subscript. *)
Inductive hit_exn : Type :=
  | HitValueError
  | HitKeyError.

(** [get_hit_count_map_by_module].  The subscript
    [self.bb_hit_count_map[mod_id]] raises [KeyError] when the id is no
    key.  The comprehension walks the inner dictionary in the order of
    its insertions, which the map does not record: the pairs come in the
    order of [map_to_list], and what is stated of them holds in any
    order. *)
Definition get_hit_count_map_by_module (o : DrcovParser.t) (module_name : str)
    : hit_exn + list (Z * Z) :=
  match DrcovParser.get_module o module_name true with
  | None => inl HitValueError
  | Some module =>
      let mod_id := ParsedModule.id module in
      match DrcovParser.bb_hit_count_map o !! mod_id with
      | None => inl HitKeyError
      | Some inner => inr (map_to_list inner)
      end
  end.

(** *** What the stages of the stream leave alone *)

(** A routine that leaves what [P] reads of the object as it was,
    whether it returns or raises. *)
Definition keeps {A X} (P : DrcovParser.t → X) (m : M DrcovParser.env A)
    : Prop :=
  ∀ e r e',
    m e = (r, e') → P (DrcovParser.self e') = P (DrcovParser.self e).

(** The attributes no routine that reads the stream assigns: the data,
    the mark, the parsed lists and the hit counts. *)
Definition untouched (o : DrcovParser.t)
    : bytes * bool * list ParsedModule.t * list ParsedBasicBlock.t
      * HitCount.hit_map :=
  (DrcovParser.data o, DrcovParser._parsed o, DrcovParser._parsed_modules o,
   DrcovParser._parsed_basic_blocks o, DrcovParser.bb_hit_count_map o).

(** What the module table leaves in the object. *)
Definition table_attributes (o : DrcovParser.t)
    : Z * Z * list DrcovModule.t :=
  (DrcovParser.module_table_version o, DrcovParser.module_table_count o,
   DrcovParser._raw_modules o).

(** The legacy accessors [modules] and [basic_blocks]. *)
Definition modules (o : DrcovParser.t) : list DrcovModule.t :=
  DrcovParser._raw_modules o.

Definition basic_blocks (o : DrcovParser.t) : list DrcovBasicBlock.t :=
  DrcovParser._raw_basic_blocks o.

(** How many blocks of a list are at offset [off] of module [mid]. *)
Definition block_hits (mid off : Z) (bbs : list ParsedBasicBlock.t) : Z :=
  Z.of_nat
    (length
       (List.filter
          (λ bb, bool_decide (ParsedBasicBlock.mod_id bb = mid)
                 && bool_decide (ParsedBasicBlock.offset bb = off))
          bbs)).

(** * Properties *)

(** ** Hit-count aggregation *)

Section hit_count.

Import HitCount.

Implicit Types (m : gmap Z (gmap Z Z)) (bb : DrcovBasicBlock.t).
Implicit Types (bbs : list DrcovBasicBlock.t).

(** The loop body as a single update of the inner dictionary. *)
Lemma record_hit_insert m bb :
  record_hit m bb =
    let inner := default ∅ (m !! DrcovBasicBlock.mod_id bb) in
    <[DrcovBasicBlock.mod_id bb :=
        <[DrcovBasicBlock.offset bb :=
            default 0 (inner !! DrcovBasicBlock.offset bb) + 1]> inner]> m.
Proof.
  unfold record_hit. cbn zeta.
  destruct (m !! DrcovBasicBlock.mod_id bb) as [inner|] eqn:Hm; cbn.
  - rewrite Hm. cbn. by destruct (inner !! DrcovBasicBlock.offset bb).
  - rewrite lookup_insert_eq. cbn. rewrite lookup_empty. cbn.
    by rewrite insert_insert_eq.
Qed.

Lemma hit_count_record_hit m bb mid off :
  hit_count (record_hit m bb) mid off =
    if same_key mid off bb
    then Some (default 0 (hit_count m mid off) + 1)
    else hit_count m mid off.
Proof.
  rewrite record_hit_insert. unfold hit_count, same_key. cbn zeta.
  destruct (decide (DrcovBasicBlock.mod_id bb = mid)) as [->|Hmid].
  - rewrite lookup_insert_eq, bool_decide_eq_true_2 by done. cbn.
    destruct (decide (DrcovBasicBlock.offset bb = off)) as [->|Hoff].
    + rewrite lookup_insert_eq, bool_decide_eq_true_2 by done.
      destruct (m !! mid); cbn; [done|]. by rewrite lookup_empty.
    + rewrite lookup_insert_ne, bool_decide_eq_false_2 by done.
      destruct (m !! mid); cbn; [done|]. by rewrite lookup_empty.
  - rewrite lookup_insert_ne, bool_decide_eq_false_2 by done. done.
Qed.

Lemma occurrences_nonneg mid off bbs : 0 ≤ occurrences mid off bbs.
Proof. induction bbs as [|bb bbs IH]; cbn; [lia|]. destruct same_key; lia. Qed.

(** A pair met at least once in the loop is a key, and its count is what
    the dictionary held before plus the number of times it was met. *)
Lemma hit_count_generate bbs m mid off :
  hit_count (generate m bbs) mid off =
    if decide (occurrences mid off bbs = 0) then hit_count m mid off
    else Some (default 0 (hit_count m mid off) + occurrences mid off bbs).
Proof.
  unfold generate. revert m.
  induction bbs as [|bb bbs IH]; intros m; cbn; [done|].
  rewrite IH, hit_count_record_hit.
  pose proof (occurrences_nonneg mid off bbs).
  destruct (same_key mid off bb); repeat case_decide; cbn;
    try lia; try done; f_equal; lia.
Qed.

(** Which module ids are keys of the outer dictionary. *)
Lemma lookup_record_hit_ne m bb mid :
  DrcovBasicBlock.mod_id bb ≠ mid → record_hit m bb !! mid = m !! mid.
Proof. intros. rewrite record_hit_insert. cbn zeta. by rewrite lookup_insert_ne. Qed.

Lemma record_hit_comm m a b :
  record_hit (record_hit m a) b = record_hit (record_hit m b) a.
Proof.
  rewrite !record_hit_insert. cbn zeta.
  destruct (decide (DrcovBasicBlock.mod_id a = DrcovBasicBlock.mod_id b))
    as [Hk|Hk].
  - rewrite Hk, !lookup_insert_eq, !insert_insert_eq. cbn. f_equal.
    destruct (decide (DrcovBasicBlock.offset a = DrcovBasicBlock.offset b))
      as [Ho|Ho].
    + by rewrite Ho, !lookup_insert_eq, !insert_insert_eq.
    + rewrite !lookup_insert_ne by done. by apply insert_insert_ne.
  - rewrite !lookup_insert_ne by done. by apply insert_insert_ne.
Qed.

Lemma generate_permutation bbs bbs' m :
  bbs ≡ₚ bbs' → generate m bbs = generate m bbs'.
Proof.
  unfold generate. intros Hp. revert m.
  induction Hp as [|x l l' _ IH|x y l|l l' l'' _ IH1 _ IH2]; intros m; cbn.
  - done.
  - apply IH.
  - by rewrite record_hit_comm.
  - by rewrite IH1.
Qed.

(** The sum over a dictionary after an assignment to one key. *)
Lemma sum_counts_insert (inner : gmap Z Z) k v :
  sum_counts (<[k := v]> inner) = sum_counts inner - default 0 (inner !! k) + v.
Proof.
  unfold sum_counts.
  destruct (inner !! k) as [c|] eqn:Hk; cbn.
  - rewrite <-insert_delete_eq.
    rewrite map_fold_insert_L;
      [|intros; lia|apply lookup_delete_eq].
    rewrite (map_fold_delete_L _ _ k c inner); [lia|intros; lia|done].
  - rewrite map_fold_insert_L; [lia|intros; lia|done].
Qed.

Lemma sum_counts_empty : sum_counts ∅ = 0.
Proof. unfold sum_counts. apply map_fold_empty. Qed.

Lemma total_hits_insert m k (inner : gmap Z Z) :
  total_hits (<[k := inner]> m) =
    total_hits m - sum_counts (default ∅ (m !! k)) + sum_counts inner.
Proof.
  unfold total_hits.
  destruct (m !! k) as [old|] eqn:Hk; cbn.
  - rewrite <-insert_delete_eq.
    rewrite map_fold_insert_L;
      [|intros; lia|apply lookup_delete_eq].
    rewrite (map_fold_delete_L _ _ k old m); [lia|intros; lia|done].
  - rewrite map_fold_insert_L; [|intros; lia|done].
    rewrite sum_counts_empty. lia.
Qed.

Lemma total_hits_record_hit m bb :
  total_hits (record_hit m bb) = total_hits m + 1.
Proof.
  rewrite record_hit_insert. cbn zeta.
  rewrite total_hits_insert, sum_counts_insert. lia.
Qed.

Lemma total_hits_generate bbs m :
  total_hits (generate m bbs) = total_hits m + Z.of_nat (length bbs).
Proof.
  unfold generate. revert m.
  induction bbs as [|bb bbs IH]; intros m; cbn [foldl length]; [lia|].
  rewrite IH, total_hits_record_hit. lia.
Qed.

(** C5. From the empty dictionary of a fresh parser, the aggregator maps
    every (mod_id, offset) pair that occurs k >= 1 times in the block
    sequence to the count k, the counts of the whole dictionary sum to the
    number of blocks, and a reordering of the sequence gives the same
    dictionary. *)
Theorem C5_hit_count_map bbs :
  (∀ mid off k,
     occurrences mid off bbs = k → 1 ≤ k →
     hit_count (generate ∅ bbs) mid off = Some k)
  ∧ total_hits (generate ∅ bbs) = Z.of_nat (length bbs)
  ∧ (∀ bbs', bbs ≡ₚ bbs' → generate ∅ bbs' = generate ∅ bbs).
Proof.
  split; [|split].
  - intros mid off k Hk Hpos. rewrite hit_count_generate.
    case_decide; [lia|]. unfold hit_count. rewrite lookup_empty. cbn.
    f_equal. lia.
  - rewrite total_hits_generate. unfold total_hits.
    rewrite map_fold_empty. lia.
  - intros bbs' Hp. symmetry. by apply generate_permutation.
Qed.

(** A pair that does not occur is no key of the dictionary. *)
Lemma hit_count_absent bbs mid off :
  occurrences mid off bbs = 0 → hit_count (generate ∅ bbs) mid off = None.
Proof.
  intros H0. rewrite hit_count_generate. case_decide; [|done].
  unfold hit_count. by rewrite lookup_empty.
Qed.

End hit_count.

(** The block sequence of the end-to-end scenario, met in another order. *)
Lemma C5_hit_count_map_witness :
  HitCount.hit_count
    (HitCount.generate ∅ [DrcovBasicBlock.mk 16 4 0; DrcovBasicBlock.mk 32 4 1;
                          DrcovBasicBlock.mk 16 4 0]) 0 16 = Some 2
  ∧ HitCount.generate ∅ [DrcovBasicBlock.mk 32 4 1; DrcovBasicBlock.mk 16 4 0;
                         DrcovBasicBlock.mk 16 4 0]
    = HitCount.generate ∅ [DrcovBasicBlock.mk 16 4 0; DrcovBasicBlock.mk 32 4 1;
                           DrcovBasicBlock.mk 16 4 0].
Proof.
  split.
  - apply (C5_hit_count_map
             [DrcovBasicBlock.mk 16 4 0; DrcovBasicBlock.mk 32 4 1;
              DrcovBasicBlock.mk 16 4 0]); [reflexivity | lia].
  - apply (C5_hit_count_map
             [DrcovBasicBlock.mk 16 4 0; DrcovBasicBlock.mk 32 4 1;
              DrcovBasicBlock.mk 16 4 0]).
    apply perm_swap.
Defined.

(** ** Running a method body *)

Section monad.

Context {S A C : Type}.

Lemma bind_ok (m : M S A) (k : A → M S C) s c s' :
  bind m k s = (Ok c, s') → ∃ a s1, m s = (Ok a, s1) ∧ k a s1 = (Ok c, s').
Proof.
  unfold bind. destruct (m s) as [[a|e] s1]; [eauto|discriminate].
Qed.

Lemma bind_run (m : M S A) (k : A → M S C) s a s1 :
  m s = (Ok a, s1) → bind m k s = k a s1.
Proof. unfold bind. by intros ->. Qed.

Lemma bind_raise (m : M S A) (k : A → M S C) s e s1 :
  m s = (Raise e, s1) → bind m k s = (Raise e, s1).
Proof. unfold bind. by intros ->. Qed.

Lemma lift_ok (r : result A) (s s1 : S) a :
  lift r s = (Ok a, s1) → r = Ok a ∧ s1 = s.
Proof. unfold lift. by intros [= -> ->]. Qed.

End monad.

(** Splits a successful run of a sequence of steps into its steps. *)
Ltac split_run H :=
  repeat match type of H with
         | bind _ _ _ = (Ok _, _) =>
             let a := fresh "a" in
             let s := fresh "s" in
             let Hs := fresh "Hstep" in
             apply bind_ok in H as (a & s & Hs & H)
         end.

(** ** The stream *)

Section stream_facts.

Import DrcovParser.

Lemma readline_strip_run e :
  readline_strip e =
    (Ok (bytes_strip (take_line (stream_rest (f e)))),
     mkEnv (self e)
           (mkStream (buf (f e))
              (pos (f e) + length (take_line (stream_rest (f e)))))).
Proof. reflexivity. Qed.

(** The sniff of [_parse_bb_table_header], after the count has been
    assigned: whatever bytes come next, the table is marked binary, and
    the stream is back where it was. *)
Lemma bb_table_header_ok e e' :
  _parse_bb_table_header e = (Ok tt, e') →
  bb_table_is_binary (self e') = true
  ∧ buf (f e') = buf (f e)
  ∧ pos (f e') = (pos (f e) + length (take_line (stream_rest (f e))))%nat
  ∧ _raw_basic_blocks (self e') = _raw_basic_blocks (self e)
  ∧ _raw_modules (self e') = _raw_modules (self e).
Proof.
  unfold _parse_bb_table_header. intros H.
  rewrite (bind_run _ _ _ _ _ (readline_strip_run e)) in H.
  apply bind_ok in H as ([fn fd] & s1 & [_ ->]%lift_ok & H).
  apply bind_ok in H as ([cd dn] & s2 & [_ ->]%lift_ok & H).
  apply bind_ok in H as (c & s3 & [_ ->]%lift_ok & H).
  cbv [bind assign modify get on_stream stream_read stream_seek py_eq] in H.
  cbn in H. by injection H as <-.
Qed.

End stream_facts.

(** ** The memory of the block array *)

Lemma byte_val_bounds c : 0 ≤ byte_val c < 256.
Proof.
  unfold byte_val. pose proof (nat_ascii_bounded c). lia.
Qed.

Lemma le_value_bounds b : 0 ≤ le_value b < 256 ^ Z.of_nat (length b).
Proof.
  induction b as [|c b IH]; cbn [le_value length]; [cbn; lia|].
  pose proof (byte_val_bounds c).
  rewrite Nat2Z.inj_succ, Z.pow_succ_r by lia. lia.
Qed.

Lemma le_value_zeros k : le_value (replicate k NUL) = 0.
Proof. induction k as [|k IH]; cbn [replicate le_value]; [done|]. rewrite IH. done. Qed.

Lemma le_value_lt b (k : nat) :
  (length b ≤ k)%nat → 0 ≤ le_value b < 256 ^ Z.of_nat k.
Proof.
  intros Hlen. pose proof (le_value_bounds b) as [? Hlt]. split; [done|].
  eapply Z.lt_le_trans; [exact Hlt|]. apply Z.pow_le_mono_r; lia.
Qed.

(** Whatever eight bytes lie under a structure, its fields fit their
    widths. *)
Lemma struct_of_bytes_fits b :
  fits_widths (DrcovParser.to_parsed_block (struct_of_bytes b)).
Proof.
  unfold fits_widths, struct_of_bytes. cbn.
  pose proof (le_value_lt (take 4 b) 4) as H4.
  pose proof (le_value_lt (take 2 (drop 4 b)) 2) as H2.
  pose proof (le_value_lt (take 2 (drop 6 b)) 2) as H2'.
  rewrite length_take in H4, H2, H2'.
  change (256 ^ Z.of_nat 4) with (2 ^ 32) in H4.
  change (256 ^ Z.of_nat 2) with (2 ^ 16) in H2, H2'.
  repeat split; first [apply H4 | apply H2 | apply H2']; lia.
Qed.

Lemma struct_of_zeros k :
  struct_of_bytes (replicate k NUL) = DrcovBasicBlock.zero.
Proof.
  unfold struct_of_bytes, DrcovBasicBlock.zero.
  rewrite !drop_replicate, !take_replicate, !le_value_zeros. done.
Qed.

Lemma array_bytes_zero n :
  array_bytes (replicate n DrcovBasicBlock.zero) = replicate (8 * n) NUL.
Proof.
  unfold array_bytes. induction n as [|n IH]; [done|].
  replace (8 * S n)%nat with (8 + 8 * n)%nat by lia.
  rewrite replicate_add. cbn [replicate fmap list_fmap concat]. by rewrite <-IH.
Qed.

Lemma length_array_of_bytes n mem : length (array_of_bytes n mem) = n.
Proof. revert mem. induction n as [|n IH]; intros mem; cbn; [done|]. by rewrite IH. Qed.

Lemma lookup_array_of_bytes n mem i :
  (i < n)%nat →
  array_of_bytes n mem !! i = Some (struct_of_bytes (take 8 (drop (8 * i) mem))).
Proof.
  revert mem i. induction n as [|n IH]; intros mem i Hi; [lia|].
  destruct i as [|i]; cbn [array_of_bytes lookup list_lookup].
  - done.
  - rewrite IH by lia. rewrite drop_drop.
    by replace (8 + 8 * i)%nat with (8 * S i)%nat by lia.
Qed.

Lemma array_of_bytes_fits n mem :
  Forall fits_widths (DrcovParser.to_parsed_block <$> array_of_bytes n mem).
Proof.
  revert mem. induction n as [|n IH]; intros mem; cbn; constructor.
  - apply struct_of_bytes_fits.
  - apply IH.
Qed.

(** An element that starts at or after the end of the bytes read is
    zero: its memory was never written. *)
Lemma lookup_array_padded n got k i bb :
  array_of_bytes n (got ++ replicate k NUL) !! i = Some bb →
  (length got ≤ 8 * i)%nat →
  bb = DrcovBasicBlock.zero.
Proof.
  intros Hi Hlen.
  assert (i < n)%nat as Hlt.
  { apply lookup_lt_Some in Hi. by rewrite length_array_of_bytes in Hi. }
  rewrite lookup_array_of_bytes in Hi by done. injection Hi as <-.
  rewrite drop_app_ge by done.
  rewrite drop_replicate, take_replicate. apply struct_of_zeros.
Qed.

(** ** The block table *)

Section bb_table.

Import DrcovParser.

(** [_parse_bb_table_entries] on a table marked binary: a negative count
    raises, any other count completes, whatever the stream holds. *)
Lemma bb_table_entries_binary e :
  bb_table_is_binary (self e) = true →
  _parse_bb_table_entries e =
    if bb_table_count (self e) <? 0 then (Raise ValueError, e)
    else
      let n := Z.to_nat (bb_table_count (self e)) in
      let got := take (8 * n) (stream_rest (f e)) in
      (Ok tt,
       mkEnv (set_raw_basic_blocks
                (array_of_bytes n (got ++ replicate (8 * n - length got) NUL))
                (self e))
             (mkStream (buf (f e)) (pos (f e) + length got))).
Proof.
  intros Hbin. unfold _parse_bb_table_entries.
  destruct e as [o s]. cbn [self f] in *.
  cbv [bind this get ret assign modify raise self f].
  destruct (bb_table_count o <? 0); [done|].
  cbn [set_raw_basic_blocks bb_table_is_binary _raw_basic_blocks self f].
  rewrite Hbin. cbv [on_stream stream_readinto self f].
  rewrite array_bytes_zero, !length_replicate, drop_replicate.
  cbn [set_raw_basic_blocks bb_table_count _raw_basic_blocks data _parsed
       version flavor module_table_count module_table_version _raw_modules
       _parsed_modules bb_table_is_binary _parsed_basic_blocks
       bb_hit_count_map].
  done.
Qed.

(** The text branch of [_parse_bb_table_entries] never gets past its
    header line: the line read is a [bytes] object, the literal it is
    compared with is a [str]. *)
Lemma bb_table_entries_text e :
  bb_table_is_binary (self e) = false →
  ∃ e', _parse_bb_table_entries e = (Raise ValueError, e').
Proof.
  intros Hbin. unfold _parse_bb_table_entries.
  destruct e as [o s]. cbn [self f] in *.
  cbv [bind this get ret assign modify raise self f].
  destruct (bb_table_count o <? 0); [eauto|].
  cbn [set_raw_basic_blocks bb_table_is_binary _raw_basic_blocks self f].
  rewrite Hbin. cbn. eauto.
Qed.

End bb_table.

(** ** The binary encoding is read back *)

Lemma byte_val_of v : byte_val (byte_of v) = v mod 256.
Proof.
  unfold byte_val, byte_of.
  pose proof (Z.mod_pos_bound v 256 ltac:(lia)).
  rewrite nat_ascii_embedding by lia. lia.
Qed.

Lemma length_le_bytes k v : length (le_bytes k v) = k.
Proof. revert v. induction k as [|k IH]; intros v; cbn; [done|]. by rewrite IH. Qed.

Lemma le_value_le_bytes k v :
  0 ≤ v < 256 ^ Z.of_nat k → le_value (le_bytes k v) = v.
Proof.
  revert v. induction k as [|k IH]; intros v Hv; cbn [le_bytes le_value].
  - cbn in Hv. lia.
  - rewrite Nat2Z.inj_succ, Z.pow_succ_r in Hv by lia.
    rewrite byte_val_of, IH.
    + pose proof (Z.div_mod v 256 ltac:(lia)). lia.
    + split; [apply Z.div_pos; lia|]. apply Z.div_lt_upper_bound; lia.
Qed.

Lemma struct_bytes_read_back bb tail :
  fits_widths (DrcovParser.to_parsed_block bb) →
  struct_of_bytes (take 8 (struct_bytes bb ++ tail)) = bb.
Proof.
  destruct bb as [o s m]. intros (Ho & Hs & Hm).
  cbn [DrcovParser.to_parsed_block ParsedBasicBlock.offset
       ParsedBasicBlock.size ParsedBasicBlock.mod_id DrcovBasicBlock.offset
       DrcovBasicBlock.size DrcovBasicBlock.mod_id] in Ho, Hs, Hm.
  unfold struct_bytes, struct_of_bytes. cbn [DrcovBasicBlock.offset
    DrcovBasicBlock.size DrcovBasicBlock.mod_id].
  rewrite take_app_length'
    by (rewrite !length_app, !length_le_bytes; reflexivity).
  rewrite take_app_length' by (by rewrite length_le_bytes).
  rewrite drop_app_length' by (by rewrite length_le_bytes).
  rewrite take_app_length' by (by rewrite length_le_bytes).
  replace (drop 6 (le_bytes 4 o ++ le_bytes 2 s ++ le_bytes 2 m))
    with (le_bytes 2 m).
  - rewrite firstn_all2 by (rewrite length_le_bytes; lia).
    by rewrite !le_value_le_bytes.
  - rewrite app_assoc. rewrite drop_app_length'; [done|].
    rewrite length_app, !length_le_bytes. reflexivity.
Qed.

Lemma length_struct_bytes bb : length (struct_bytes bb) = 8%nat.
Proof. unfold struct_bytes. rewrite !length_app, !length_le_bytes. done. Qed.

Lemma length_array_bytes bbs : length (array_bytes bbs) = (8 * length bbs)%nat.
Proof.
  unfold array_bytes. induction bbs as [|bb bbs IH]; [done|].
  cbn [fmap list_fmap concat length].
  rewrite length_app, length_struct_bytes.
  change (concat (list_fmap _ _ struct_bytes bbs))
    with (concat (struct_bytes <$> bbs)).
  rewrite IH. lia.
Qed.

Lemma array_bytes_read_back bbs tail :
  Forall (λ bb, fits_widths (DrcovParser.to_parsed_block bb)) bbs →
  array_of_bytes (length bbs) (array_bytes bbs ++ tail) = bbs.
Proof.
  unfold array_bytes. induction 1 as [|bb bbs Hbb _ IH]; [done|].
  cbn [fmap list_fmap concat length array_of_bytes].
  rewrite <-app_assoc, struct_bytes_read_back by done.
  rewrite drop_app_length' by (by rewrite length_struct_bytes).
  f_equal. apply IH.
Qed.

(** A table marked binary that declares as many records as a block
    sequence has, on a stream that holds the packed records of that
    sequence: the array read is the sequence, and the stream is left
    after the records. *)
Lemma binary_table_read_back e bbs tail :
  DrcovParser.bb_table_is_binary (DrcovParser.self e) = true →
  DrcovParser.bb_table_count (DrcovParser.self e) = Z.of_nat (length bbs) →
  Forall (λ bb, fits_widths (DrcovParser.to_parsed_block bb)) bbs →
  stream_rest (DrcovParser.f e) = binary_encoding bbs ++ tail →
  ∃ e',
    DrcovParser._parse_bb_table_entries e = (Ok tt, e')
    ∧ DrcovParser._raw_basic_blocks (DrcovParser.self e') = bbs
    ∧ pos (DrcovParser.f e')
      = (pos (DrcovParser.f e) + 8 * length bbs)%nat.
Proof.
  intros Hbin Hn Hfit Hrest. rewrite (bb_table_entries_binary e Hbin).
  rewrite Hn, Nat2Z.id, Hrest.
  destruct (Z.ltb_spec (Z.of_nat (length bbs)) 0) as [|_]; [lia|].
  cbn zeta. unfold binary_encoding.
  rewrite take_app_length' by (by rewrite length_array_bytes).
  rewrite length_array_bytes, Nat.sub_diag.
  eexists. split; [reflexivity|]. cbn [DrcovParser.self DrcovParser.f pos].
  split; [|done].
  destruct (DrcovParser.self e). cbn. by apply array_bytes_read_back.
Qed.

(** ** The whole parse *)

Section pipeline.

Import DrcovParser.

(** A parse that completes went through its four stages in turn. *)
Lemma new_ok blob o :
  new blob = Ok o →
  ∃ e1 e2 e3 e4,
    _parse_drcov_header (start_env blob) = (Ok tt, e1)
    ∧ _parse_module_table e1 = (Ok tt, e2)
    ∧ _parse_bb_table_header e2 = (Ok tt, e3)
    ∧ _parse_bb_table_entries e3 = (Ok tt, e4)
    ∧ o = finish (self e4).
Proof.
  unfold new. destruct (parse (init blob)) as [[[]|x] o'] eqn:Hp; [|done].
  intros [= ->]. unfold parse in Hp.
  apply bind_ok in Hp as (o0 & s0 & [= <- <-] & Hp). cbn [init _parsed] in Hp.
  apply bind_ok in Hp as ([] & o1 & Hdata & Hp).
  unfold _parse_drcov_data in Hdata. cbn [init data] in Hdata.
  fold (init blob) in Hdata. fold (start_env blob) in Hdata.
  destruct (parse_stream (start_env blob)) as [r e] eqn:Hs.
  injection Hdata as -> <-.
  unfold parse_stream in Hs.
  apply bind_ok in Hs as ([] & e1 & H1 & Hs).
  apply bind_ok in Hs as ([] & e2 & H2 & Hs).
  apply bind_ok in Hs as ([] & e4 & H34 & Hs).
  unfold _parse_bb_table in H34.
  apply bind_ok in H34 as ([] & e3 & H3 & H4).
  exists e1, e2, e3, e4. repeat split; try done.
  unfold _generate_bb_hit_count_map, assign, modify in Hs.
  injection Hs as <-. cbn [self] in Hp.
  unfold _convert_to_parsed_objects, bind, modify in Hp.
  by injection Hp as <-.
Qed.

End pipeline.

(** ** The claims on the block table *)

Section bb_table_claims.

Import DrcovParser.

(** C1. The block sequence of the end-to-end scenario, one block
    (offset 0x10, size 4, module 0).  Its text line matches the pattern of
    the text records.  The log that carries the block as a packed record
    parses to that block; the log that carries it as text parses to
    another block, made of the first eight characters of the text header,
    ["module i"]: the text table is read as if it were binary.  The text
    branch itself, entered on that table, raises [ValueError]. *)
Theorem C1_text_table_read_as_binary :
  bb_pattern (string_of_list_ascii (bytes_strip (text_line sample_block)))
    = Some ("0", "0x10", "4")%string
  ∧ parsed_blocks (sample_head ++ bb_table 1 (binary_encoding [sample_block]))
    = Ok [ParsedBasicBlock.mk 16 4 0]
  ∧ parsed_blocks (sample_head ++ bb_table 1 (text_encoding [sample_block]))
    = Ok [ParsedBasicBlock.mk 1969516397 25964 26912]
  ∧ (le_value (B "modu") = 1969516397
     ∧ le_value (B "le") = 25964
     ∧ le_value (B " i") = 26912)
  ∧ fst (_parse_bb_table_entries
           (mkEnv (set_bb_table_is_binary false
                     (set_bb_table_count 1 (init [])))
                  (mkStream (text_encoding [sample_block]) 0)))
    = Raise ValueError.
Proof. repeat split; vm_compute; reflexivity. Qed.

(** C2. When the header line of the block table has been read, the table
    is marked binary even if the bytes that follow are the text
    ["module id"]; the stream is left at the first byte after the header
    line. *)
Theorem C2_sniff_marks_text_table_binary e e' :
  _parse_bb_table_header e = (Ok tt, e') →
  take 9 (stream_rest (f e')) = B "module id" →
  bb_table_is_binary (self e') = true
  ∧ buf (f e') = buf (f e)
  ∧ pos (f e') = (pos (f e) + length (take_line (stream_rest (f e))))%nat.
Proof.
  intros H _. apply bb_table_header_ok in H as (? & ? & ? & _). done.
Qed.




(** C10. When the parse of an input completes, [get_basic_blocks] returns
    as many blocks as the header of the block table declares; the offset
    of each fits 32 bits, its size and module id fit 16 bits; the table
    was read as binary, and every block that starts at or after the end
    of the bytes the stream still held is zero in all fields. *)
Theorem C10_block_list_shape blob o :
  new blob = Ok o →
  0 ≤ bb_table_count o
  ∧ length (get_basic_blocks o) = Z.to_nat (bb_table_count o)
  ∧ Forall fits_widths (get_basic_blocks o)
  ∧ bb_table_is_binary o = true
  ∧ ∀ i bb,
      get_basic_blocks o !! i = Some bb →
      (length (bb_records_available blob) ≤ 8 * i)%nat →
      bb = ParsedBasicBlock.mk 0 0 0.
Proof.
  intros (e1 & e2 & e3 & e4 & H1 & H2 & H3 & H4 & ->)%new_ok.
  assert (bb_records_available blob = stream_rest (f e3)) as ->.
  { unfold bb_records_available.
    rewrite (bind_run _ _ _ _ _ H1), (bind_run _ _ _ _ _ H2), H3. done. }
  apply bb_table_header_ok in H3 as (Hbin & _).
  rewrite (bb_table_entries_binary e3 Hbin) in H4.
  destruct (Z.ltb_spec (bb_table_count (self e3)) 0) as [|Hn]; [done|].
  cbn zeta in H4. injection H4 as <-.
  unfold get_basic_blocks, finish. destruct (self e3) as [].
  cbn -[array_of_bytes Z.to_nat Nat.mul] in *.
  split; [done|]. split; [by rewrite length_fmap, length_array_of_bytes|].
  split; [apply array_of_bytes_fits|]. split; [done|].
  intros i bb Hi Hlen. rewrite list_lookup_fmap in Hi.
  destruct (array_of_bytes _ _ !! i) as [raw|] eqn:Hraw; [|done].
  injection Hi as <-.
  apply lookup_array_padded in Hraw as ->; [done|].
  rewrite length_take. lia.
Qed.

Lemma C10_block_list_shape_witness :
  ∃ o,
    new (sample_head ++ bb_table 2 (binary_encoding [sample_block])) = Ok o
    ∧ length (get_basic_blocks o) = 2%nat
    ∧ get_basic_blocks o !! 1%nat = Some (ParsedBasicBlock.mk 0 0 0).
Proof.
  destruct (new (sample_head ++ bb_table 2 (binary_encoding [sample_block])))
    as [o|x] eqn:Hnew; [|vm_compute in Hnew; discriminate].
  exists o. split; [reflexivity|].
  destruct (C10_block_list_shape _ o Hnew) as (_ & Hlen & _ & _ & Hzero).
  assert (bb_table_count o = 2) as Hc
    by (vm_compute in Hnew; injection Hnew as <-; reflexivity).
  rewrite Hc in Hlen. split; [exact Hlen|].
  destruct (get_basic_blocks o !! 1%nat) as [bb|] eqn:Hbb.
  - f_equal. apply (Hzero 1%nat bb Hbb). vm_compute. lia.
  - apply lookup_ge_None in Hbb. rewrite Hlen in Hbb. lia.
Defined.

End bb_table_claims.

Lemma C2_sniff_marks_text_table_binary_witness :
  ∃ e',
    DrcovParser._parse_bb_table_header
      (start_env (bb_table 1 (text_encoding [sample_block]))) = (Ok tt, e')
    ∧ take 9 (stream_rest (DrcovParser.f e')) = B "module id"
    ∧ DrcovParser.bb_table_is_binary (DrcovParser.self e') = true.
Proof.
  destruct (DrcovParser._parse_bb_table_header
              (start_env (bb_table 1 (text_encoding [sample_block]))))
    as [[[]|x] e'] eqn:Hrun; [|vm_compute in Hrun; discriminate].
  exists e'. split; [reflexivity|].
  assert (take 9 (stream_rest (DrcovParser.f e')) = B "module id") as Hnext
    by (vm_compute in Hrun; injection Hrun as <-; reflexivity).
  split; [exact Hnext|].
  apply (C2_sniff_marks_text_table_binary _ e' Hrun Hnext).
Defined.

(** ** The log header *)

Section header.

Import DrcovParser.

Lemma index_raise {A} (xs : list A) i x : index xs i = Raise x → x = IndexError.
Proof. unfold index. destruct (xs !! i); [done|]. by intros [= <-]. Qed.

(** What a failed parse of the stream makes of the constructor. *)
Lemma new_raise blob x e' :
  parse_stream (start_env blob) = (Raise x, e') → new blob = Raise x.
Proof.
  intros Hs. unfold new.
  assert (parse (init blob) = (Raise x, self e')) as ->; [|done].
  unfold parse. rewrite (bind_run get _ _ (init blob) (init blob) eq_refl).
  change (_parsed (init blob)) with false. cbv iota beta.
  apply bind_raise. unfold _parse_drcov_data.
  change (mkEnv (init blob) (mkStream (data (init blob)) 0))
    with (start_env blob).
  by rewrite Hs.
Qed.

(** C6. When the first line of an input declares a log version other than
    2, the constructor raises, and the exception leaves the header stage:
    it is the [AssertionError] of the version check, or the [IndexError]
    of a second line without a colon; the stream has then given out its
    first two lines only, and the object holds no module and no block. *)
Theorem C6_other_version_rejected blob v :
  header_version blob = Ok v →
  v ≠ 2 →
  ∃ x e',
    _parse_drcov_header (start_env blob) = (Raise x, e')
    ∧ parse_stream (start_env blob) = (Raise x, e')
    ∧ new blob = Raise x
    ∧ (x = AssertionError ∨ x = IndexError)
    ∧ pos (f e') =
        (let first := take_line blob in
         length first + length (take_line (drop (length first) blob)))%nat
    ∧ _raw_modules (self e') = []
    ∧ module_table_count (self e') = 0
    ∧ _raw_basic_blocks (self e') = []
    ∧ bb_table_count (self e') = 0.
Proof.
  intros Hv Hne. unfold header_version in Hv.
  assert (∃ x e',
    _parse_drcov_header (start_env blob) = (Raise x, e')
    ∧ (x = AssertionError ∨ x = IndexError)
    ∧ pos (f e') =
        (let first := take_line blob in
         length first + length (take_line (drop (length first) blob)))%nat
    ∧ _raw_modules (self e') = []
    ∧ module_table_count (self e') = 0
    ∧ _raw_basic_blocks (self e') = []
    ∧ bb_table_count (self e') = 0) as (x & e' & Hh & Hrest).
  { unfold _parse_drcov_header.
    rewrite (bind_run _ _ _ _ _ (readline_strip_run _)).
    cbn [start_env self f pos buf].
    change (stream_rest {| buf := blob; pos := 0 |}) with blob.
    rewrite Nat.add_0_l.
    unfold bind at 1. unfold lift at 1. rewrite Hv.
    unfold bind at 1. unfold assign at 1, modify at 1.
    rewrite (bind_run _ _ _ _ _ (readline_strip_run _)).
    cbn [self f pos buf].
    change (stream_rest {| buf := blob; pos := length (take_line blob) |})
      with (drop (length (take_line blob)) blob).
    unfold bind at 1. unfold lift at 1.
    destruct (index (bytes_split (B ":")
                (bytes_strip (take_line (drop (length (take_line blob)) blob))))
                1) as [fl|x] eqn:Hfl.
    - cbv [bind assign modify this get ret raise self f].
      cbn [set_flavor set_version version].
      destruct (Z.eqb_spec v 2) as [|_]; [done|].
      eexists _, _. split; [reflexivity|]. cbn. auto 10.
    - eexists _, _. split; [reflexivity|]. cbn.
      apply index_raise in Hfl as ->. auto 10. }
  exists x, e'. split; [done|].
  assert (parse_stream (start_env blob) = (Raise x, e')) as Hs.
  { unfold parse_stream. by apply bind_raise. }
  split; [done|]. split; [by eapply new_raise|]. done.
Qed.

Lemma C6_other_version_rejected_witness :
  ∃ x e',
    parse_stream (start_env (lines ["DRCOV VERSION: 3"; "DRCOV FLAVOR: drcov"]))
      = (Raise x, e')
    ∧ new (lines ["DRCOV VERSION: 3"; "DRCOV FLAVOR: drcov"]) = Raise x
    ∧ pos (f e') = 37%nat.
Proof.
  destruct (C6_other_version_rejected
              (lines ["DRCOV VERSION: 3"; "DRCOV FLAVOR: drcov"]) 3)
    as (x & e' & _ & Hs & Hnew & _ & Hpos & _); [reflexivity | lia |].
  exists x, e'. split; [exact Hs|]. split; [exact Hnew|]. exact Hpos.
Defined.

End header.

(** ** Text *)

Lemma append_cons c (a b : str) : String c a +:+ b = String c (a +:+ b).
Proof. reflexivity. Qed.

Lemma append_nil (b : str) : EmptyString +:+ b = b.
Proof. reflexivity. Qed.

Lemma string_prefix_spec (a b : str) :
  String.prefix a b = true ↔ ∃ post, b = a +:+ post.
Proof.
  revert b. induction a as [|c a IH]; intros [|d b]; cbn.
  - split; [eauto|done].
  - split; [eauto|done].
  - split; [done|]. by intros [post [=]].
  - destruct (ascii_dec c d) as [->|Hne].
    + rewrite IH. split; intros [post Hp]; exists post;
        rewrite append_cons in *; congruence.
    + split; [done|]. intros [post Hp]. rewrite append_cons in Hp.
      congruence.
Qed.

(** [needle in hay] is the substring test. *)
Lemma str_contains_spec (a b : str) :
  str_contains a b = true ↔ is_substring a b.
Proof.
  unfold is_substring. induction b as [|d b IH]; cbn [str_contains].
  - rewrite orb_false_r, string_prefix_spec. split.
    + intros [post Hp]. by exists EmptyString, post.
    + intros ([|? pre] & post & Hp); [eauto|done].
  - rewrite orb_true_iff, string_prefix_spec, IH. split.
    + intros [[post Hp]|(pre & post & Hp)].
      * by exists EmptyString, post.
      * exists (String d pre), post. by rewrite append_cons, Hp.
    + intros ([|c pre] & post & Hp).
      * rewrite append_nil in Hp. eauto.
      * rewrite append_cons in Hp. injection Hp as -> Hp. eauto.
Qed.

Lemma str_contains_dec_spec (a b : str) :
  str_contains a b = false ↔ ¬ is_substring a b.
Proof.
  rewrite <-str_contains_spec. by destruct (str_contains a b).
Qed.

(** The first piece of a split at dots is the text before the first. *)
Lemma split_scan_dot_first (s : str) :
  ∃ rest,
    split_scan (B ".") 0 (list_ascii_of_string s)
    = list_ascii_of_string (before_first_dot s) :: rest.
Proof.
  change (B ".") with ["."%char].
  induction s as [|c s [rest IH]]; cbn [split_scan list_ascii_of_string].
  - by exists [].
  - cbn [before_first_dot starts_with].
    rewrite andb_true_r, (Ascii.eqb_sym "." c).
    destruct (Ascii.eqb c "."); [eauto|]. rewrite IH. eauto.
Qed.

Lemma str_split_dot_first (s : str) :
  ∃ rest, str_split "." s = before_first_dot s :: rest.
Proof.
  unfold str_split. destruct (split_scan_dot_first s) as [rest Hs].
  unfold bytes_split. change (list_ascii_of_string ".") with (B ".").
  rewrite Hs. cbn. rewrite string_of_list_ascii_of_string. eauto.
Qed.

(** ** Lookup of a module *)

Section find.

Context {A : Type} (p : A → bool) (P : A → Prop).
Context (Hp : ∀ x, p x = true ↔ P x).

(** [List.find] returns the first element, in list order, that passes. *)
Lemma find_first_in_order xs : first_in_order P xs (List.find p xs).
Proof.
  induction xs as [|x xs IH]; cbn; [constructor|].
  destruct (p x) eqn:Hx.
  - exists [], xs. split; [done|]. split; [by apply Hp|constructor].
  - assert (¬ P x) by (rewrite <-Hp; congruence).
    destruct (List.find p xs) as [y|]; cbn in *.
    + destruct IH as (before & after & -> & ? & ?).
      exists (x :: before), after. split; [done|]. split; [done|].
      by constructor.
    + by constructor.
Qed.

Lemma first_in_order_find xs r : first_in_order P xs r → List.find p xs = r.
Proof.
  destruct r as [x|]; cbn.
  - intros (before & after & -> & Hx & Hb).
    induction Hb as [|y before Hy _ IH]; cbn.
    + apply Hp in Hx. by rewrite Hx.
    + destruct (p y) eqn:Hpy; [|done]. by apply Hp in Hpy.
  - induction 1 as [|y xs Hy _ IH]; cbn; [done|].
    destruct (p y) eqn:Hpy; [|done]. by apply Hp in Hpy.
Qed.

End find.

Section lookup.

Import DrcovParser.

Lemma lookup_fuzzy_first o q :
  first_in_order (fuzzy_hit q) (_parsed_modules o) (lookup_fuzzy o q).
Proof.
  unfold lookup_fuzzy. apply find_first_in_order.
  intros m. apply str_contains_spec.
Qed.

Lemma lookup_fuzzy_unique o q r :
  first_in_order (fuzzy_hit q) (_parsed_modules o) r → lookup_fuzzy o q = r.
Proof.
  unfold lookup_fuzzy. apply first_in_order_find.
  intros m. apply str_contains_spec.
Qed.

(** C7. Fuzzy lookup of a query in a module list: when some module is a
    hit of the query, the result is the first hit in table order; when
    none is and the query contains a dot, the result is the first hit, in
    table order, of the text before the first dot of the query, and
    not-found when that has no hit either; when none is and the query has
    no dot, the result is not-found. *)
Theorem C7_fuzzy_lookup o q :
  let mods := _parsed_modules o in
  let r := get_module o q true in
  (∀ m, first_in_order (fuzzy_hit q) mods (Some m) → r = Some m)
  ∧ (first_in_order (fuzzy_hit q) mods None →
     is_substring "." q →
     first_in_order (fuzzy_hit (before_first_dot q)) mods r)
  ∧ (first_in_order (fuzzy_hit q) mods None →
     ¬ is_substring "." q →
     r = None).
Proof.
  cbn zeta. unfold get_module. split; [|split].
  - intros m Hm. by rewrite (lookup_fuzzy_unique o q _ Hm).
  - intros Hnone Hdot. rewrite (lookup_fuzzy_unique o q _ Hnone).
    apply str_contains_spec in Hdot. rewrite Hdot.
    destruct (str_split_dot_first q) as [rest ->].
    apply lookup_fuzzy_first.
  - intros Hnone Hdot. rewrite (lookup_fuzzy_unique o q _ Hnone).
    apply str_contains_dec_spec in Hdot. rewrite Hdot.
    by apply lookup_fuzzy_unique.
Qed.

(** C8. [get_blocks_by_module] on a name that fuzzy lookup resolves to no
    module raises [ValueError], so it returns no list, not an empty one
    either; on a name that resolves to a module it returns the blocks of
    [get_basic_blocks] whose [mod_id] is the id of that module, in their
    order. *)
Theorem C8_blocks_by_module o q :
  (get_module o q true = None →
   get_blocks_by_module o q = Raise ValueError
   ∧ ∀ bbs, get_blocks_by_module o q ≠ Ok bbs)
  ∧ (∀ m, get_module o q true = Some m →
       ∃ bbs,
         get_blocks_by_module o q = Ok bbs
         ∧ bbs = List.filter
                   (λ bb, bool_decide (ParsedBasicBlock.mod_id bb
                                       = ParsedModule.id m))
                   (get_basic_blocks o)
         ∧ (∀ bb, bb ∈ bbs ↔
                  bb ∈ get_basic_blocks o
                  ∧ ParsedBasicBlock.mod_id bb = ParsedModule.id m)
         ∧ sublist bbs (get_basic_blocks o)).
Proof.
  unfold get_blocks_by_module, get_basic_blocks. split.
  - intros ->. split; [done|]. by intros bbs.
  - intros m ->. eexists. split; [reflexivity|]. split; [reflexivity|].
    split.
    + intros bb. rewrite !list_elem_of_In, filter_In, bool_decide_eq_true.
      done.
    + induction (_parsed_basic_blocks o) as [|bb l IH]; cbn; [constructor|].
      destruct (bool_decide _); by constructor.
Qed.

End lookup.

Lemma C7_fuzzy_lookup_witness :
  let m := ParsedModule.mk 0 "MyBinary.exe" 4194304 4198400 4096 0
                           "C:\bin\MyBinary.exe" 4194320 in
  let o := DrcovParser.set_parsed_modules [m] (DrcovParser.init []) in
  DrcovParser.get_module o "mybinary" true = Some m
  ∧ first_in_order (fuzzy_hit "mybinary") [m]
      (DrcovParser.get_module o "mybinary.dll" true).
Proof.
  intros m o.
  destruct (C7_fuzzy_lookup o "mybinary") as (Hfirst & _ & _).
  destruct (C7_fuzzy_lookup o "mybinary.dll") as (_ & Hretry & _).
  split.
  - apply Hfirst. exists [], []. split; [reflexivity|].
    split; [|constructor]. apply str_contains_spec. reflexivity.
  - apply Hretry.
    + repeat constructor. apply str_contains_dec_spec. reflexivity.
    + apply str_contains_spec. reflexivity.
Defined.

Lemma C8_blocks_by_module_witness :
  let m := ParsedModule.mk 1 "target.exe" 4194304 4198400 4096 0
                           "target.exe" 4194320 in
  let o := DrcovParser.set_parsed_basic_blocks
             [ParsedBasicBlock.mk 16 4 1; ParsedBasicBlock.mk 32 4 0;
              ParsedBasicBlock.mk 48 2 1]
             (DrcovParser.set_parsed_modules [m] (DrcovParser.init [])) in
  DrcovParser.get_blocks_by_module o "libc" = Raise ValueError
  ∧ DrcovParser.get_blocks_by_module o "TARGET"
    = Ok [ParsedBasicBlock.mk 16 4 1; ParsedBasicBlock.mk 48 2 1].
Proof.
  cbn zeta. split.
  - apply C8_blocks_by_module. reflexivity.
  - destruct (C8_blocks_by_module
                (DrcovParser.set_parsed_basic_blocks
                   [ParsedBasicBlock.mk 16 4 1; ParsedBasicBlock.mk 32 4 0;
                    ParsedBasicBlock.mk 48 2 1]
                   (DrcovParser.set_parsed_modules
                      [ParsedModule.mk 1 "target.exe" 4194304 4198400 4096 0
                                       "target.exe" 4194320]
                      (DrcovParser.init []))) "TARGET") as [_ Hsome].
    destruct (Hsome _ eq_refl) as (bbs & -> & -> & _). reflexivity.
Defined.

(** ** File names *)

Lemma list_ascii_app (a b : str) :
  list_ascii_of_string (a +:+ b)
  = list_ascii_of_string a ++ list_ascii_of_string b.
Proof.
  induction a as [|c a IH]; [done|]. rewrite append_cons. cbn. by rewrite IH.
Qed.

Lemma string_of_app (a b : bytes) :
  string_of_list_ascii (a ++ b)
  = string_of_list_ascii a +:+ string_of_list_ascii b.
Proof.
  induction a as [|c a IH]; [done|]. cbn. by rewrite IH, append_cons.
Qed.

Lemma append_snoc (a b : str) c :
  a +:+ String c b = (a +:+ String c EmptyString) +:+ b.
Proof.
  induction a as [|d a IH]; [done|]. by rewrite !append_cons, IH.
Qed.

Lemma str_contains_slash_cons c (s : str) :
  str_contains "/" (String c s) = Ascii.eqb c "/" || str_contains "/" s.
Proof.
  cbn [str_contains String.prefix]. f_equal.
  destruct (ascii_dec "/" c) as [<-|Hne]; [by destruct s|].
  symmetry. apply Ascii.eqb_neq. congruence.
Qed.

Lemma basename_from_no_slash (rest p : str) :
  str_contains "/" p = false → basename_from rest p = rest.
Proof.
  induction p as [|c p IH]; [done|]. rewrite str_contains_slash_cons.
  intros [Hc Hp]%orb_false_elim. cbn. rewrite Hc. auto.
Qed.

Lemma basename_from_slash (rest a b : str) :
  basename_from rest (a +:+ String "/" b) = basename_from b b.
Proof.
  revert rest. induction a as [|c a IH]; intros rest.
  - done.
  - rewrite append_cons. cbn [basename_from].
    destruct (Ascii.eqb c "/"); apply IH.
Qed.

Lemma last_slash (p : str) :
  str_contains "/" p = false
  ∨ ∃ a b, p = a +:+ String "/" b ∧ str_contains "/" b = false.
Proof.
  induction p as [|c p [IH|(a & b & -> & Hb)]].
  - by left.
  - rewrite str_contains_slash_cons.
    destruct (Ascii.eqb_spec c "/") as [->|_]; [|by left].
    right. by exists EmptyString, p.
  - right. exists (String c a), b. by rewrite append_cons.
Qed.

(** [basename]: what follows the last slash, all of the path when it has
    no slash. *)
Lemma basename_spec (p : str) :
  ∃ dir,
    p = dir +:+ basename p
    ∧ (dir = EmptyString ∨ ∃ d, dir = d +:+ "/")
    ∧ ¬ is_substring "/" (basename p).
Proof.
  unfold basename. destruct (last_slash p) as [Hp|(a & b & -> & Hb)].
  - exists EmptyString. rewrite basename_from_no_slash by done.
    split; [done|]. split; [by left|]. by apply str_contains_dec_spec.
  - exists (a +:+ "/"). rewrite basename_from_slash.
    rewrite basename_from_no_slash by done.
    split; [|split; [eauto|by apply str_contains_dec_spec]].
    apply append_snoc.
Qed.

Lemma is_quote_char c : existsb (Ascii.eqb c) ["'"%char] = true ↔ c = "'"%char.
Proof. cbn. rewrite orb_false_r. apply Ascii.eqb_eq. Qed.

(** [lstrip_chars] removes a run of listed characters, and stops at the
    first character that is not listed. *)
Lemma lstrip_chars_spec (s : bytes) :
  ∃ lead,
    s = lead ++ lstrip_chars ["'"%char] s
    ∧ Forall (λ c, c = "'"%char) lead
    ∧ head (lstrip_chars ["'"%char] s) ≠ Some "'"%char.
Proof.
  induction s as [|c s (lead & Hs & Hlead & Hhead)]; cbn [lstrip_chars].
  - by exists [].
  - destruct (existsb (Ascii.eqb c) ["'"%char]) eqn:Hc.
    + apply is_quote_char in Hc as ->. exists ("'"%char :: lead).
      split; [cbn; congruence|]. split; [by constructor|done].
    + exists []. split; [done|]. split; [constructor|].
      cbn. intros [= ->]. by rewrite (proj2 (is_quote_char _)) in Hc.
Qed.

(** [strip("'")]: a run of quotes goes at each end, all of it. *)
Lemma str_strip_spec (s : str) :
  ∃ lead trail,
    s = lead +:+ str_strip "'" s +:+ trail
    ∧ only_quotes lead
    ∧ only_quotes trail
    ∧ ¬ starts_with_quote (str_strip "'" s)
    ∧ ¬ ends_with_quote (str_strip "'" s).
Proof.
  unfold str_strip. change (list_ascii_of_string "'") with ["'"%char].
  destruct (lstrip_chars_spec (list_ascii_of_string s))
    as (a & Ha & Hqa & Hha).
  set (l1 := lstrip_chars ["'"%char] (list_ascii_of_string s)) in *.
  destruct (lstrip_chars_spec (rev l1)) as (b & Hb & Hqb & Hhb).
  set (l2 := lstrip_chars ["'"%char] (rev l1)) in *.
  assert (l1 = rev l2 ++ rev b) as Hl1.
  { rewrite <-rev_app_distr, <-Hb. by rewrite rev_involutive. }
  exists (string_of_list_ascii a), (string_of_list_ascii (rev b)).
  split; [|split; [|split; [|split]]].
  - rewrite <-!string_of_app, <-Hl1, <-Ha.
    by rewrite string_of_list_ascii_of_string.
  - unfold only_quotes. by rewrite list_ascii_of_string_of_list_ascii.
  - unfold only_quotes. rewrite list_ascii_of_string_of_list_ascii.
    by apply List.Forall_rev.
  - intros [rest Hr]. apply Hha. rewrite Hl1.
    apply (f_equal list_ascii_of_string) in Hr.
    rewrite list_ascii_of_string_of_list_ascii in Hr. cbn in Hr.
    by rewrite Hr.
  - intros [front Hr]. apply Hhb.
    apply (f_equal list_ascii_of_string) in Hr.
    rewrite list_ascii_of_string_of_list_ascii, list_ascii_app in Hr.
    apply (f_equal (@rev ascii)) in Hr.
    rewrite rev_involutive, rev_app_distr in Hr. by rewrite Hr.
Qed.

(** ** Module-table entries *)

Section module_entry.

Import DrcovModule.

(** Every version of the entry parser ends with the assignment of the
    file name. *)
Lemma assign_filename_ok s s' :
  assign_filename s = (Ok tt, s') →
  filename s' = str_strip "'" (basename (path s')).
Proof.
  unfold assign_filename, bind, get, modify. intros [= <-]. done.
Qed.

Ltac to_last_step H :=
  repeat match type of H with
         | bind _ _ _ = (Ok _, _) =>
             let a := fresh "a" in
             let s := fresh "s" in
             apply bind_ok in H as (a & s & _ & H)
         end.

Lemma new_filename line v m :
  new line v = Ok m → filename m = str_strip "'" (basename (path m)).
Proof.
  unfold new. destruct (_parse_module line v init) as [[[]|x] s'] eqn:H;
    [|done].
  intros [= <-]. unfold _parse_module in H.
  repeat match type of H with
         | (if ?c then _ else _) _ = _ => destruct c
         end;
    [unfold _parse_module_v1 in H | unfold _parse_module_v2 in H
     | unfold _parse_module_v3 in H | unfold _parse_module_v4 in H
     | discriminate];
    to_last_step H; exact (assign_filename_ok _ _ H).
Qed.

(** C9 (amended). The file name of a decoded module is the text after the
    last slash of its path, with every single quote at its start and
    every single quote at its end removed, whether or not both ends have
    one: the path is a directory part, empty or ending in a slash, then a
    run of quotes, the file name, and a run of quotes; these three hold no
    slash, and the file name neither starts nor ends with a quote. *)
Theorem C9_filename_strips_every_quote line v m :
  new line v = Ok m →
  filename m = str_strip "'" (basename (path m))
  ∧ ∃ dir lead trail,
      path m = dir +:+ lead +:+ filename m +:+ trail
      ∧ (dir = EmptyString ∨ ∃ d, dir = d +:+ "/")
      ∧ ¬ is_substring "/" (lead +:+ filename m +:+ trail)
      ∧ only_quotes lead
      ∧ only_quotes trail
      ∧ ¬ starts_with_quote (filename m)
      ∧ ¬ ends_with_quote (filename m).
Proof.
  intros Hname%new_filename. split; [done|]. rewrite Hname.
  destruct (basename_spec (path m)) as (dir & Hdir & Hd & Hslash).
  destruct (str_strip_spec (basename (path m)))
    as (lead & trail & Hb & Hl & Ht & Hs & He).
  exists dir, lead, trail. rewrite <-Hb. done.
Qed.

End module_entry.

Lemma C9_filename_strips_every_quote_witness :
  ∃ m,
    DrcovModule.new
      (B "0, 0x400000, 0x401000, 0x400010, /opt/''tool'") 2 = Ok m
    ∧ DrcovModule.filename m = "tool".
Proof.
  destruct (DrcovModule.new
              (B "0, 0x400000, 0x401000, 0x400010, /opt/''tool'") 2)
    as [m|x] eqn:Hnew; [|vm_compute in Hnew; discriminate].
  exists m. split; [reflexivity|].
  destruct (C9_filename_strips_every_quote _ _ m Hnew) as [-> _].
  vm_compute in Hnew. injection Hnew as <-. reflexivity.
Defined.

(** C9 (as stated, refuted). A path whose last component has a quote at
    one end only, and one with two layers of quotes: the decoder strips
    the lone quote, and both layers, where the wording keeps the first
    name unchanged and takes one layer off the second. *)
Lemma C9_lone_quote_stripped :
  (∃ m,
     DrcovModule.new (B "0, 0x400000, 0x401000, 0x400010, /tmp/'abc") 2
       = Ok m
     ∧ DrcovModule.path m = "/tmp/'abc"
     ∧ DrcovModule.filename m = "abc"
     ∧ spec_filename (DrcovModule.path m) = "'abc"
     ∧ DrcovModule.filename m ≠ spec_filename (DrcovModule.path m))
  ∧ (∃ m,
       DrcovModule.new (B "0, 0x400000, 0x401000, 0x400010, /tmp/''abc''") 2
         = Ok m
       ∧ DrcovModule.filename m = "abc"
       ∧ spec_filename (DrcovModule.path m) = "'abc'"
       ∧ DrcovModule.filename m ≠ spec_filename (DrcovModule.path m)).
Proof.
  split; eexists; (split; [vm_compute; reflexivity|]); cbn;
    repeat split; done.
Qed.

(** ** Numbers in text *)

Lemma alnum_plain c :
  alnum c →
  is_space c = false ∧ Ascii.eqb c "-" = false ∧ Ascii.eqb c "+" = false
  ∧ Ascii.eqb c "_" = false ∧ Ascii.eqb c "," = false.
Proof.
  unfold alnum.
  destruct c as [[] [] [] [] [] [] [] []]; vm_compute; intros [? H];
    first [discriminate H | repeat split].
Qed.

Lemma decimal_digits_alnum d :
  Forall alnum (B (DecimalString.NilEmpty.string_of_uint d)).
Proof.
  induction d; cbn [DecimalString.NilEmpty.string_of_uint B
                    list_ascii_of_string];
    constructor; first [by eexists | assumption].
Qed.

Lemma hex_digits_alnum d :
  Forall alnum (B (HexadecimalString.NilEmpty.string_of_uint d)).
Proof.
  induction d; cbn [HexadecimalString.NilEmpty.string_of_uint B
                    list_ascii_of_string];
    constructor; first [by eexists | assumption].
Qed.

Lemma int_digits_step base acc b c s d :
  digit_value c = Some d →
  (d <? base) = true →
  int_digits base acc b (c :: s) = int_digits base (acc * base + d) true s.
Proof.
  intros Hc Hd. cbn [int_digits].
  destruct (alnum_plain c) as (_ & _ & _ & -> & _); [by eexists|].
  by rewrite Hc, Hd.
Qed.

Ltac digit_step :=
  erewrite int_digits_step; [|vm_compute; reflexivity|reflexivity].

Lemma int_digits_decimal_acc d p :
  int_digits 10 (Z.pos p) true (B (DecimalString.NilEmpty.string_of_uint d))
  = Some (Z.pos (Pos.of_uint_acc d p)).
Proof.
  revert p.
  induction d as [|d IH|d IH|d IH|d IH|d IH|d IH|d IH|d IH|d IH|d IH];
    intros p; [done|..];
    cbn [DecimalString.NilEmpty.string_of_uint B list_ascii_of_string
         Pos.of_uint_acc];
    digit_step; rewrite <-IH; f_equal; lia.
Qed.

Lemma int_digits_decimal d :
  int_digits 10 0 true (B (DecimalString.NilEmpty.string_of_uint d))
  = Some (Z.of_N (Pos.of_uint d)).
Proof.
  induction d as [|d IH|d IH|d IH|d IH|d IH|d IH|d IH|d IH|d IH|d IH];
    [done|..];
    cbn [DecimalString.NilEmpty.string_of_uint B list_ascii_of_string
         Pos.of_uint];
    digit_step; first [exact IH | apply int_digits_decimal_acc].
Qed.

Lemma int_digits_hex_acc d p :
  int_digits 16 (Z.pos p) true
    (B (HexadecimalString.NilEmpty.string_of_uint d))
  = Some (Z.pos (Pos.of_hex_uint_acc d p)).
Proof.
  revert p.
  induction d as [|d IH|d IH|d IH|d IH|d IH|d IH|d IH|d IH|d IH|d IH
                   |d IH|d IH|d IH|d IH|d IH|d IH];
    intros p; [done|..];
    cbn [HexadecimalString.NilEmpty.string_of_uint B list_ascii_of_string
         Pos.of_hex_uint_acc];
    digit_step; rewrite <-IH; f_equal; lia.
Qed.

Lemma int_digits_hex d :
  int_digits 16 0 true (B (HexadecimalString.NilEmpty.string_of_uint d))
  = Some (Z.of_N (Pos.of_hex_uint d)).
Proof.
  induction d as [|d IH|d IH|d IH|d IH|d IH|d IH|d IH|d IH|d IH|d IH
                   |d IH|d IH|d IH|d IH|d IH|d IH];
    [done|..];
    cbn [HexadecimalString.NilEmpty.string_of_uint B list_ascii_of_string
         Pos.of_hex_uint];
    digit_step; first [exact IH | apply int_digits_hex_acc].
Qed.

(** The flag of [int_digits] only matters at an underscore and at the
    end. *)
Lemma int_digits_first base acc c s :
  alnum c →
  int_digits base acc false (c :: s) = int_digits base acc true (c :: s).
Proof.
  intros Hc. cbn [int_digits].
  by destruct (alnum_plain c Hc) as (_ & _ & _ & -> & _).
Qed.

Lemma lstrip_plain c s : is_space c = false → bytes_lstrip (c :: s) = c :: s.
Proof. intros Hc. cbn. by rewrite Hc. Qed.

(** A text of letters and digits has nothing to strip. *)
Lemma bytes_strip_alnum s : Forall alnum s → bytes_strip s = s.
Proof.
  intros Hs. unfold bytes_strip, bytes_rstrip.
  assert (∀ t, Forall alnum t → bytes_lstrip t = t) as Hl.
  { intros [|c t] Ht; [done|]. apply lstrip_plain.
    apply Forall_cons in Ht as [Hc _]. by apply alnum_plain. }
  rewrite (Hl s Hs), Hl by (by apply List.Forall_rev).
  apply rev_involutive.
Qed.

Lemma py_int_alnum base c s :
  Forall alnum (c :: s) →
  py_int base (c :: s)
  = match int_unsigned base (c :: s) with
    | Some v => Ok v
    | None => Raise ValueError
    end.
Proof.
  intros Hs. unfold py_int. rewrite bytes_strip_alnum by done.
  apply Forall_cons in Hs as [Hc _].
  by destruct (alnum_plain c Hc) as (_ & -> & -> & _).
Qed.

Lemma decimal_nonempty v :
  ∃ c s, decimal v = c :: s ∧ Forall alnum (c :: s)
         ∧ int_digits 10 0 true (c :: s) = Some (Z.of_N (Z.to_N v)).
Proof.
  unfold decimal. pose proof (decimal_digits_alnum (N.to_uint (Z.to_N v))) as Ha.
  pose proof (int_digits_decimal (N.to_uint (Z.to_N v))) as Hd.
  change (Pos.of_uint (N.to_uint (Z.to_N v)))
    with (N.of_uint (N.to_uint (Z.to_N v))) in Hd.
  rewrite DecimalN.Unsigned.of_to in Hd.
  destruct (B (DecimalString.NilEmpty.string_of_uint (N.to_uint (Z.to_N v))))
    as [|c s] eqn:Hs; [|eauto].
  exfalso. destruct (Z.to_N v) as [|p]; [discriminate|].
  cbn in Hs. pose proof (DecimalPos.Unsigned.to_uint_nonnil p) as Hn.
  destruct (Pos.to_uint p); [done|discriminate..].
Qed.

(** [int(s)] reads back a number printed in decimal. *)
Lemma py_int_decimal v : 0 ≤ v → py_int 10 (decimal v) = Ok v.
Proof.
  intros Hv. destruct (decimal_nonempty v) as (c & s & -> & Ha & Hd).
  rewrite py_int_alnum by done.
  assert (int_unsigned 10 (c :: s) = int_digits 10 0 true (c :: s)) as ->.
  { unfold int_unsigned. change (10 =? 16) with false. cbn [andb].
    rewrite <-int_digits_first by (by apply Forall_cons in Ha as [? _]).
    by destruct s. }
  rewrite Hd. f_equal. lia.
Qed.

Lemma hexadecimal_nonempty v :
  ∃ c s, hexadecimal v = c :: s ∧ Forall alnum (c :: s)
         ∧ int_digits 16 0 true (c :: s) = Some (Z.of_N (Z.to_N v)).
Proof.
  unfold hexadecimal.
  pose proof (hex_digits_alnum (N.to_hex_uint (Z.to_N v))) as Ha.
  pose proof (int_digits_hex (N.to_hex_uint (Z.to_N v))) as Hd.
  change (Pos.of_hex_uint (N.to_hex_uint (Z.to_N v)))
    with (N.of_hex_uint (N.to_hex_uint (Z.to_N v))) in Hd.
  rewrite HexadecimalN.Unsigned.of_to in Hd.
  destruct (B (HexadecimalString.NilEmpty.string_of_uint
                 (N.to_hex_uint (Z.to_N v)))) as [|c s] eqn:Hs; [|eauto].
  exfalso. destruct (Z.to_N v) as [|p]; [discriminate|].
  cbn in Hs. pose proof (HexadecimalPos.Unsigned.to_uint_nonnil p) as Hn.
  destruct (Pos.to_hex_uint p); [done|discriminate..].
Qed.

Lemma hex_field_alnum v : Forall alnum (hex_field v).
Proof.
  unfold hex_field. destruct (hexadecimal_nonempty v) as (c & s & -> & Ha & _).
  change (B "0x") with ["0"%char; "x"%char]. cbn [app].
  apply Forall_cons. split; [by eexists|].
  apply Forall_cons. split; [by eexists|done].
Qed.

(** [int(s, 16)] reads back a number printed with the [0x] prefix. *)
Lemma py_int_hex_field v : 0 ≤ v → py_int 16 (hex_field v) = Ok v.
Proof.
  intros Hv. unfold hex_field.
  destruct (hexadecimal_nonempty v) as (c & s & -> & Ha & Hd).
  change (B "0x") with ["0"%char; "x"%char]. cbn [app].
  rewrite py_int_alnum
    by (apply Forall_cons; split; [by eexists|];
        apply Forall_cons; split; [by eexists|done]).
  assert (int_unsigned 16 ("0"%char :: "x"%char :: c :: s)
          = int_digits 16 0 true (c :: s)) as ->.
  { unfold int_unsigned.
    change ((16 =? 16) && Ascii.eqb "0" "0"
            && (Ascii.eqb "x" "x" || Ascii.eqb "x" "X")) with true.
    cbv iota. apply Forall_cons in Ha as [Hc _].
    destruct (alnum_plain c Hc) as (_ & _ & _ & -> & _).
    by apply int_digits_first. }
  rewrite Hd. f_equal. lia.
Qed.

(** ** Fields of an entry line *)

Lemma starts_with_spec p s :
  starts_with p s = true ↔ ∃ post, s = p ++ post.
Proof.
  revert s. induction p as [|a p IH]; intros s; cbn.
  - split; [eauto|done].
  - destruct s as [|c s]; [split; [done|by intros [? [=]]]|].
    rewrite andb_true_iff, Ascii.eqb_eq, IH. split.
    + intros [-> [post ->]]. eauto.
    + intros [post [= -> ->]]. eauto.
Qed.

(** A field without a comma, then the separator: the split cuts there. *)
Lemma split_scan_field a rest :
  Forall (λ c, Ascii.eqb c "," = false) a →
  split_scan (B ", ") 0 (a ++ B ", " ++ rest)
  = a :: split_scan (B ", ") 0 rest.
Proof.
  change (B ", ") with [","%char; " "%char].
  induction 1 as [|c a Hc _ IH]; cbn [app split_scan].
  - change (starts_with [","%char; " "%char] (","%char :: " "%char :: rest))
      with (starts_with [] rest).
    by destruct rest.
  - cbn [starts_with]. rewrite Ascii.eqb_sym, Hc. cbn [andb].
    cbn [app] in IH. by rewrite IH.
Qed.

(** A last field that holds no separator is one piece. *)
Lemma split_scan_last a :
  (¬ ∃ pre post, a = pre ++ B ", " ++ post) →
  split_scan (B ", ") 0 a = [a].
Proof.
  induction a as [|c a IH]; intros Hno; [done|]. cbn [split_scan].
  destruct (starts_with (B ", ") (c :: a)) eqn:Hs.
  - apply starts_with_spec in Hs as [post Hs]. destruct Hno.
    by exists [], post.
  - rewrite IH; [done|]. intros (pre & post & ->). apply Hno.
    by exists (c :: pre), post.
Qed.

Lemma alnum_no_comma s :
  Forall alnum s → Forall (λ c, Ascii.eqb c "," = false) s.
Proof.
  intros Hs. eapply Forall_impl; [exact Hs|].
  intros c Hc. by apply alnum_plain.
Qed.

Lemma decimal_alnum v : Forall alnum (decimal v).
Proof. by destruct (decimal_nonempty v) as (c & s & -> & Ha & _). Qed.

(** ASCII text is decoded to itself. *)
Lemma bytes_decode_ascii (p : str) :
  Forall (λ c, (nat_of_ascii c < 128)%nat) (list_ascii_of_string p) →
  bytes_decode (list_ascii_of_string p) = Ok p.
Proof.
  intros Hp. unfold bytes_decode.
  rewrite (proj2 (forallb_forall _ _)).
  - by rewrite string_of_list_ascii_of_string.
  - intros c Hc. rewrite List.Forall_forall in Hp.
    apply Nat.ltb_lt. by apply Hp.
Qed.

(** The split of a line gives back the fields that were joined, when the
    last field holds no separator and the others no comma. *)
Lemma split_join_fields nums p :
  Forall (Forall (λ c, Ascii.eqb c "," = false)) nums →
  (¬ ∃ pre post, p = pre ++ B ", " ++ post) →
  bytes_split (B ", ") (join_fields (nums ++ [p])) = nums ++ [p].
Proof.
  unfold bytes_split. intros Hnums Hp.
  induction Hnums as [|x nums Hx _ IH]; cbn [app].
  - by apply split_scan_last.
  - replace (join_fields (x :: nums ++ [p]))
      with (x ++ B ", " ++ join_fields (nums ++ [p]))
      by (by destruct nums).
    by rewrite split_scan_field, IH.
Qed.

Lemma py_int_raise base s x : py_int base s = Raise x → x = ValueError.
Proof.
  unfold py_int. cbv zeta.
  destruct (match bytes_strip s with [] => None | _ => _ end);
    congruence.
Qed.

Section entry_read_back.

Import DrcovModule.

Variable m : t.
Hypothesis Hm : encodable m.

Ltac numbers :=
  repeat (apply Forall_cons; split;
          [first [apply alnum_no_comma, decimal_alnum
                 |apply alnum_no_comma, hex_field_alnum]|]);
  try apply Forall_nil_2.

Ltac front_fields l :=
  match l with
  | [_] => constr:(@nil bytes)
  | ?x :: ?r => let fr := front_fields r in constr:(x :: fr)
  end.

Ltac last_field_of l :=
  match l with
  | [?p] => p
  | _ :: ?r => last_field_of r
  end.

Ltac split_line :=
  cbn [app];
  match goal with
  | |- context [bytes_split (B ", ") (join_fields ?fields)] =>
      let n := front_fields fields in
      let p := last_field_of fields in
      change fields with (n ++ [p]);
      rewrite (split_join_fields n p); [cbn [app]|numbers|apply Hm]
  end.

Ltac run_fields :=
  cbv [int_field last_field index index_last];
  cbn [lookup list_lookup last length Nat.eqb app];
  repeat first
    [ rewrite py_int_decimal by apply Hm
    | rewrite py_int_hex_field by apply Hm
    | rewrite bytes_decode_ascii by apply Hm ];
  cbv [bind lift modify get ret assign_filename];
  lazy [set_id set_base set_end set_size set_entry set_checksum
        set_timestamp set_path set_filename set_containing_id set_offset
        init expected_module
        id base end_ size entry checksum timestamp path filename
        containing_id offset Z.eqb Pos.eqb andb orb negb].

(** The version 1 layout is decoded in full. *)
Lemma entry_v1_read_back windows :
  new (entry_line 1 windows m) 1 = Ok (expected_module 1 windows m).
Proof.
  unfold new, _parse_module, entry_line. cbn [Z.eqb Pos.eqb].
  split_line.
  unfold _parse_module_v1. run_fields. by destruct windows.
Qed.

(** The version 2 layout is decoded in full, with and without the
    checksum and timestamp pair. *)
Lemma entry_v2_read_back windows :
  new (entry_line 2 windows m) 2 = Ok (expected_module 2 windows m).
Proof.
  unfold new, _parse_module, entry_line. cbn [Z.eqb Pos.eqb].
  destruct windows.
  - split_line.
    unfold _parse_module_v2. run_fields. reflexivity.
  - split_line.
    unfold _parse_module_v2. run_fields. reflexivity.
Qed.

(** The version 3 layout without the pair is decoded in full. *)
Lemma entry_v3_read_back :
  new (entry_line 3 false m) 3 = Ok (expected_module 3 false m).
Proof.
  unfold new, _parse_module, entry_line. cbn [Z.eqb Pos.eqb app].
  split_line.
  unfold _parse_module_v3. run_fields. reflexivity.
Qed.

(** The version 3 layout with the pair has eight fields: checksum and
    timestamp are not read. *)
Lemma entry_v3_pair_dropped :
  new (entry_line 3 true m) 3
  = Ok (set_timestamp 0 (set_checksum 0 (expected_module 3 true m))).
Proof.
  unfold new, _parse_module, entry_line. cbn [Z.eqb Pos.eqb app].
  split_line.
  unfold _parse_module_v3. run_fields. reflexivity.
Qed.

(** The version 4 layout with the pair has nine fields: checksum and
    timestamp are not read. *)
Lemma entry_v4_pair_dropped :
  new (entry_line 4 true m) 4
  = Ok (set_timestamp 0 (set_checksum 0 (expected_module 4 true m))).
Proof.
  unfold new, _parse_module, entry_line. cbn [Z.eqb Pos.eqb app].
  split_line.
  unfold _parse_module_v4. run_fields. reflexivity.
Qed.

(** The version 4 layout without the pair has seven fields: the decoder
    reads the path as a checksum, and when that is a number it indexes a
    field that is not there; no such line is decoded. *)
Lemma entry_v4_rejected :
  ∃ x, new (entry_line 4 false m) 4 = Raise x
       ∧ (x = ValueError ∨ x = IndexError).
Proof.
  unfold new, _parse_module, entry_line. cbn [Z.eqb Pos.eqb app].
  split_line.
  unfold _parse_module_v4.
  cbv [int_field last_field index index_last].
  cbn [lookup list_lookup last length Nat.eqb app].
  repeat first
    [ rewrite py_int_decimal by apply Hm
    | rewrite py_int_hex_field by apply Hm ].
  cbv [bind lift modify get ret].
  destruct (py_int 16 (list_ascii_of_string (path m))) as [v|x] eqn:Hp.
  - eauto.
  - exists x. split; [done|]. left. by apply py_int_raise in Hp.
Qed.

End entry_read_back.

(** C3. Entry lines in the layouts of table versions 4 and 3.  The
    version 4 line without the checksum and timestamp pair has seven
    fields: the decoder takes it for a line with the pair, reads the path
    as a hexadecimal checksum, and raises.  The version 4 line with the
    pair has nine fields, the version 3 line with the pair has eight: the
    decoder takes them for lines without the pair, and leaves checksum
    and timestamp at zero, not at the encoded 0x1234 and 0x5678.  The
    version 2 line with the pair is decoded in full. *)
Theorem C3_windows_pair_missed :
  entry_line 4 false (sample_module (Some 0))
    = B "7, 1, 0x400000, 0x401000, 0x400010, 0x0, /bin/ls"
  ∧ DrcovModule.new (entry_line 4 false (sample_module (Some 0))) 4
    = Raise ValueError
  ∧ DrcovModule.new (entry_line 4 true (sample_module (Some 0))) 4
    = Ok (DrcovModule.set_timestamp 0
            (DrcovModule.set_checksum 0 (sample_module (Some 0))))
  ∧ DrcovModule.new (entry_line 3 true (sample_module None)) 3
    = Ok (DrcovModule.set_timestamp 0
            (DrcovModule.set_checksum 0 (sample_module None)))
  ∧ DrcovModule.new (entry_line 2 true (sample_module None)) 2
    = Ok (DrcovModule.set_containing_id 0 (sample_module None)).
Proof. repeat split; vm_compute; reflexivity. Qed.

(** * Further properties *)

(** ** Lookup of a module, strict and fuzzy *)

Section more_lookup.

Import DrcovParser.

Lemma find_some_member {A} (p : A → bool) xs x :
  List.find p xs = Some x → x ∈ xs.
Proof.
  intros [Hin _]%find_some. by apply list_elem_of_In.
Qed.

Lemma is_substring_refl (s : str) : is_substring s s.
Proof.
  exists EmptyString, EmptyString. rewrite append_nil.
  induction s as [|c s IH]; [done|]. by rewrite append_cons, <-IH.
Qed.

(** X1. Strict lookup returns the first module, in table order, whose
    file name is the query, letter case included; not-found when no
    module has that file name. *)
Theorem strict_lookup_first o q :
  first_in_order (λ m, ParsedModule.filename m = q)
                 (get_modules o) (get_module o q false).
Proof.
  unfold get_module, get_modules. apply find_first_in_order.
  intros m. rewrite bool_decide_eq_true. split; congruence.
Qed.

(** X2. A module returned by a lookup, strict or fuzzy, is a module of
    the table. *)
Theorem get_module_member o q fuzzy m :
  get_module o q fuzzy = Some m → m ∈ get_modules o.
Proof.
  unfold get_module, get_modules, lookup_fuzzy.
  destruct fuzzy; [|apply find_some_member].
  destruct (List.find _ _) as [m1|] eqn:H1.
  - intros [= <-]. by eapply find_some_member.
  - apply find_some_member.
Qed.

Lemma get_module_member_witness :
  let m := ParsedModule.mk 3 "libc.so" 0 4096 4096 0 "/lib/libc.so" 16 in
  let o := set_parsed_modules [m] (init []) in
  m ∈ get_modules o.
Proof.
  intros m o. apply (get_module_member o "LIBC" true m). reflexivity.
Defined.

(** X3. A name that strict lookup resolves is resolved by fuzzy lookup
    too: to the first module of the table, in its order, that is a fuzzy
    hit of the name; and this module is the strict result, or it stands
    before the strict result in the table. *)
Theorem strict_hit_is_fuzzy_hit o q m :
  get_module o q false = Some m →
  ∃ m' before after,
    get_module o q true = Some m'
    ∧ get_modules o = before ++ m' :: after
    ∧ fuzzy_hit q m'
    ∧ Forall (λ y, ¬ fuzzy_hit q y) before
    ∧ (m' = m ∨ m ∈ after).
Proof.
  intros Hs. unfold get_module in Hs.
  pose proof (find_some_member _ _ _ Hs) as Hin.
  apply find_some in Hs as [_ Hq%bool_decide_eq_true].
  assert (fuzzy_hit q m) as Hm
    by (unfold fuzzy_hit; rewrite <-Hq; apply is_substring_refl).
  pose proof (lookup_fuzzy_first o q) as Hf. unfold get_module, get_modules.
  destruct (lookup_fuzzy o q) as [m'|].
  - destruct Hf as (before & after & Hmods & Hhit & Hbefore).
    exists m', before, after. repeat split; try done.
    rewrite Hmods in Hin.
    apply elem_of_app in Hin as [Hin|Hin].
    + rewrite Forall_forall in Hbefore. by destruct (Hbefore m Hin).
    + apply elem_of_cons in Hin as [->|Hin]; [by left|by right].
  - exfalso. cbn in Hf. rewrite Forall_forall in Hf. by apply (Hf m Hin).
Qed.

Lemma strict_hit_is_fuzzy_hit_witness :
  let m1 := ParsedModule.mk 0 "libfoo.so.1" 0 4096 4096 0 "/lib/libfoo.so.1" 0 in
  let m2 := ParsedModule.mk 1 "foo" 8192 12288 4096 0 "/bin/foo" 8200 in
  let o := set_parsed_modules [m1; m2] (init []) in
  get_module o "foo" false = Some m2
  ∧ ∃ m' before after,
      get_module o "foo" true = Some m'
      ∧ get_modules o = before ++ m' :: after
      ∧ fuzzy_hit "foo" m'
      ∧ Forall (λ y, ¬ fuzzy_hit "foo" y) before
      ∧ (m' = m2 ∨ m2 ∈ after).
Proof.
  intros m1 m2 o. split; [reflexivity|].
  apply (strict_hit_is_fuzzy_hit o "foo" m2). reflexivity.
Defined.

End more_lookup.


Section case_insensitive.

Import DrcovParser.

Lemma ascii_lower_dot c : Ascii.eqb (ascii_lower c) "." = Ascii.eqb c ".".
Proof. by destruct c as [[] [] [] [] [] [] [] []]. Qed.

Lemma str_contains_dot_cons c (s : str) :
  str_contains "." (String c s) = Ascii.eqb c "." || str_contains "." s.
Proof.
  cbn [str_contains String.prefix]. f_equal.
  destruct (ascii_dec "." c) as [<-|Hne]; [by destruct s|].
  symmetry. apply Ascii.eqb_neq. congruence.
Qed.

(** Two names that differ in case only have a dot at the same places. *)
Lemma lower_eq_dots (q q' : str) :
  str_lower q = str_lower q' →
  str_contains "." q = str_contains "." q'
  ∧ str_lower (before_first_dot q) = str_lower (before_first_dot q').
Proof.
  revert q'. induction q as [|c q IH]; intros [|c' q']; cbn [str_lower];
    try discriminate; [done|].
  intros [= Hc Hq]. destruct (IH q' Hq) as [IH1 IH2].
  rewrite !str_contains_dot_cons, IH1. cbn [before_first_dot].
  rewrite <-(ascii_lower_dot c), <-(ascii_lower_dot c'), Hc.
  split; [done|]. destruct (Ascii.eqb (ascii_lower c') "."); [done|].
  cbn [str_lower]. by rewrite Hc, IH2.
Qed.

Lemma lookup_fuzzy_lower o (q q' : str) :
  str_lower q = str_lower q' → lookup_fuzzy o q = lookup_fuzzy o q'.
Proof. unfold lookup_fuzzy. by intros ->. Qed.

(** X4. Fuzzy lookup does not see the case of a query of ASCII
    characters: two such queries that are equal once lower-cased resolve
    to the same module, or both to none. *)
Theorem fuzzy_lookup_ignores_case o (q q' : str) :
  ascii_text q →
  ascii_text q' →
  str_lower q = str_lower q' →
  get_module o q true = get_module o q' true.
Proof.
  intros _ _ Hq. unfold get_module.
  rewrite (lookup_fuzzy_lower o q q' Hq).
  destruct (lookup_fuzzy o q'); [done|].
  destruct (lower_eq_dots q q' Hq) as [-> Hb].
  destruct (str_contains "." q'); [|by apply lookup_fuzzy_lower].
  destruct (str_split_dot_first q) as [r ->].
  destruct (str_split_dot_first q') as [r' ->].
  by apply lookup_fuzzy_lower.
Qed.

Lemma fuzzy_lookup_ignores_case_witness :
  let m := ParsedModule.mk 0 "MyBinary.exe" 4194304 4198400 4096 0
                           "MyBinary.exe" 4194320 in
  let o := set_parsed_modules [m] (init []) in
  get_module o "MYBINARY.DLL" true = get_module o "mybinary.dll" true.
Proof.
  intros m o.
  apply (fuzzy_lookup_ignores_case o "MYBINARY.DLL" "mybinary.dll").
  - unfold ascii_text. cbn.
    repeat (apply Forall_cons_2; [vm_compute; lia|]). apply Forall_nil_2.
  - unfold ascii_text. cbn.
    repeat (apply Forall_cons_2; [vm_compute; lia|]). apply Forall_nil_2.
  - reflexivity.
Defined.

End case_insensitive.


(** ** What a decoded entry line always satisfies *)

Section decoded_entry.

Import DrcovModule.

Lemma modify_ok {S} (g : S → S) s a s1 : modify g s = (Ok a, s1) → s1 = g s.
Proof. unfold modify. by intros [= _ <-]. Qed.

Lemma get_ok {S} (s a s1 : S) : get s = (Ok a, s1) → a = s ∧ s1 = s.
Proof. unfold get. by intros [= <- <-]. Qed.

Lemma ret_ok {S A} (x a : A) (s s1 : S) : ret x s = (Ok a, s1) → s1 = s.
Proof. unfold ret. by intros [= _ <-]. Qed.

Lemma index_ok {A} (xs : list A) i x : index xs i = Ok x → (i < length xs)%nat.
Proof.
  unfold index. destruct (xs !! i) eqn:Hi; [|done].
  intros _. by eapply lookup_lt_Some.
Qed.

Lemma int_field_ok b data i s v s1 :
  int_field b data i s = (Ok v, s1) → s1 = s ∧ (i < length data)%nat.
Proof.
  unfold int_field. intros [Hr ->]%lift_ok. split; [done|].
  destruct (index data i) eqn:Hi; [|done]. by eapply index_ok.
Qed.

(** Takes a successful run of an entry parser apart, step by step. *)
Ltac entry_steps H :=
  repeat
    match type of H with
    | bind (int_field _ _ _) _ _ = (Ok _, _) =>
        let v := fresh "v" in
        let s := fresh "s" in
        let Hi := fresh "Hlen" in
        apply bind_ok in H as (v & s & [-> Hi]%int_field_ok & H)
    | bind (modify _) _ _ = (Ok _, _) =>
        let s := fresh "s" in
        apply bind_ok in H as (? & s & ->%modify_ok & H)
    | bind get _ _ = (Ok _, _) =>
        let s := fresh "s" in
        apply bind_ok in H as (? & s & [-> ->]%get_ok & H)
    | bind (lift _) _ _ = (Ok _, _) =>
        let s := fresh "s" in
        let Hr := fresh "Hr" in
        apply bind_ok in H as (? & s & [Hr ->]%lift_ok & H)
    | bind (last_field _) _ _ = (Ok _, _) =>
        let s := fresh "s" in
        apply bind_ok in H as (? & s & [_ ->]%lift_ok & H)
    | bind (if ?c then _ else _) _ _ = (Ok _, _) =>
        let s := fresh "s" in
        let Hc := fresh "Hpair" in
        apply bind_ok in H as (? & s & Hc & H);
        destruct c;
        [entry_steps Hc; apply modify_ok in Hc as ->
        |apply ret_ok in Hc as ->]
    end.

Ltac entry_done H :=
  unfold assign_filename in H;
  apply bind_ok in H as (? & ? & [-> ->]%get_ok & H);
  apply modify_ok in H as ->;
  lazy [set_id set_base set_end set_size set_entry set_checksum
        set_timestamp set_path set_filename set_containing_id set_offset
        init id base end_ size entry checksum timestamp path filename
        containing_id offset].

(** What the constructor leaves in a module it returns. *)
Lemma decoded_entry_facts line v m :
  new line v = Ok m →
  (v = 1 ∨ v = 2 ∨ v = 3 ∨ v = 4)
  ∧ (v = 1 →
     base m = 0 ∧ end_ m = 0 ∧ entry m = 0
     ∧ checksum m = 0 ∧ timestamp m = 0)
  ∧ (v ≠ 1 → size m = end_ m - base m)
  ∧ (v = 1 ∨ v = 2 → containing_id m = 0)
  ∧ (v ≠ 4 → offset m = None)
  ∧ (v = 4 → is_Some (offset m))
  ∧ (Z.to_nat v + 2 ≤ length (bytes_split (B ", ") line))%nat.
Proof.
  unfold new. destruct (_parse_module line v init) as [[[]|x] s'] eqn:H;
    [|done].
  intros [= <-]. unfold _parse_module in H.
  destruct (Z.eqb_spec v 1) as [->|?];
    [|destruct (Z.eqb_spec v 2) as [->|?];
      [|destruct (Z.eqb_spec v 3) as [->|?];
        [|destruct (Z.eqb_spec v 4) as [->|?]; [|discriminate]]]].
  - unfold _parse_module_v1 in H. entry_steps H. entry_done H.
    destruct (index _ 2) eqn:Hi; [|done]. apply index_ok in Hi.
    repeat split; try done; try lia; auto.
  - unfold _parse_module_v2 in H. entry_steps H; entry_done H;
      repeat split; try done; try lia; auto.
  - unfold _parse_module_v3 in H. entry_steps H; entry_done H;
      repeat split; try done; try lia; auto.
  - unfold _parse_module_v4 in H. entry_steps H; entry_done H;
      repeat split; try done; try lia; auto.
Qed.

(** X5. Whatever line is decoded, under a table version: the version is one
    of 1 to 4; under version 1 no address is set; under the other versions
    the size is the end address less the base address; the containing id
    is set under versions 3 and 4 only, the file offset under version 4
    only; and the line had at least 3, 4, 5, 6 fields for the versions 1,
    2, 3, 4. *)
Theorem decoded_entry_shape line v m :
  new line v = Ok m →
  (v = 1 ∨ v = 2 ∨ v = 3 ∨ v = 4)
  ∧ (v = 1 →
     base m = 0 ∧ end_ m = 0 ∧ entry m = 0
     ∧ checksum m = 0 ∧ timestamp m = 0)
  ∧ (v ≠ 1 → size m = end_ m - base m)
  ∧ (v = 1 ∨ v = 2 → containing_id m = 0)
  ∧ (v ≠ 4 → offset m = None)
  ∧ (v = 4 → is_Some (offset m))
  ∧ (Z.to_nat v + 2 ≤ length (bytes_split (B ", ") line))%nat.
Proof. exact (decoded_entry_facts line v m). Qed.

End decoded_entry.

Lemma decoded_entry_shape_witness :
  ∃ m,
    DrcovModule.new (B "3, 1, 0x7f0000, 0x7f8000, 0x7f0100, /lib/libm.so") 3
      = Ok m
    ∧ DrcovModule.size m = 32768.
Proof.
  destruct (DrcovModule.new
              (B "3, 1, 0x7f0000, 0x7f8000, 0x7f0100, /lib/libm.so") 3)
    as [m|x] eqn:Hnew; [|vm_compute in Hnew; discriminate].
  exists m. split; [reflexivity|].
  destruct (decoded_entry_shape _ 3 m Hnew) as (_ & _ & Hsize & _).
  rewrite Hsize by discriminate.
  vm_compute in Hnew. injection Hnew as <-. reflexivity.
Defined.


(** ** Entry lines that are read back *)

Lemma no_separator_without_comma (l : bytes) :
  Forall (λ c, c ≠ ","%char) l →
  ¬ ∃ pre post, l = pre ++ B ", " ++ post.
Proof.
  intros Hl (pre & post & ->). apply Forall_app in Hl as [_ Hl].
  change (B ", ") with [","%char; " "%char] in Hl. cbn in Hl.
  by apply Forall_cons in Hl as [? _].
Qed.

(** The layouts whose entry lines are decoded. *)
Lemma entry_line_decoded m version windows :
  encodable m →
  version = 1 ∨ version = 2 ∨ (version = 3 ∧ windows = false) →
  DrcovModule.new (entry_line version windows m) version
  = Ok (expected_module version windows m).
Proof.
  intros Hm [->|[->|[-> ->]]].
  - by apply entry_v1_read_back.
  - by apply entry_v2_read_back.
  - by apply entry_v3_read_back.
Qed.

Lemma sample_module_encodable offset :
  0 ≤ default 0 offset → encodable (sample_module offset).
Proof.
  intros Ho. unfold encodable. cbn -[B].
  repeat split; try lia.
  - repeat constructor; vm_compute; lia.
  - apply no_separator_without_comma. repeat constructor; discriminate.
Qed.

(** X6. The entry line of a module in the layout of version 1, of
    version 2 with or without the checksum and timestamp pair, and of
    version 3 without the pair, is decoded to the fields it was written
    from. *)
Theorem entry_line_read_back m version windows :
  encodable m →
  version = 1 ∨ version = 2 ∨ (version = 3 ∧ windows = false) →
  DrcovModule.new (entry_line version windows m) version
  = Ok (expected_module version windows m).
Proof. exact (entry_line_decoded m version windows). Qed.

Lemma entry_line_read_back_witness :
  DrcovModule.new (entry_line 2 true (sample_module None)) 2
  = Ok (expected_module 2 true (sample_module None)).
Proof.
  apply (entry_line_read_back (sample_module None) 2 true).
  - apply sample_module_encodable. cbn. lia.
  - right. left. reflexivity.
Defined.

(** ** Lines of the stream *)

Lemma take_line_app l rest :
  Forall (λ c, c ≠ LF) l → take_line (l ++ LF :: rest) = l ++ [LF].
Proof.
  induction 1 as [|c l Hc _ IH]; cbn [app take_line].
  - by rewrite Ascii.eqb_refl.
  - apply Ascii.eqb_neq in Hc. by rewrite Hc, IH.
Qed.

Lemma take_line_eof l : Forall (λ c, c ≠ LF) l → take_line l = l.
Proof.
  induction 1 as [|c l Hc _ IH]; cbn [take_line]; [done|].
  apply Ascii.eqb_neq in Hc. by rewrite Hc, IH.
Qed.

Lemma bytes_lstrip_head c l :
  is_space c = false → bytes_lstrip (c :: l) = c :: l.
Proof. intros Hc. cbn. by rewrite Hc. Qed.

Lemma bytes_strip_clean l : clean l → bytes_strip (l ++ [LF]) = l.
Proof.
  intros (_ & Hhead & Hlast). unfold bytes_strip, bytes_rstrip.
  destruct l as [|c l]; [done|].
  cbn [app]. rewrite bytes_lstrip_head by (by apply Hhead).
  change (c :: l ++ [LF]) with ((c :: l) ++ [LF]).
  rewrite rev_app_distr. cbn [rev app].
  change (bytes_lstrip (LF :: rev l ++ [c]))
    with (bytes_lstrip (rev l ++ [c])).
  change (rev l ++ [c]) with (rev (c :: l)).
  destruct (rev (c :: l)) as [|d r] eqn:Hr.
  - apply (f_equal (@rev ascii)) in Hr. by rewrite rev_involutive in Hr.
  - rewrite bytes_lstrip_head.
    + by rewrite <-Hr, rev_involutive.
    + apply Hlast. rewrite <-(rev_involutive (c :: l)), Hr.
      cbn [rev]. by rewrite last_snoc.
Qed.

Lemma bytes_strip_clean_eof l : clean l → bytes_strip l = l.
Proof.
  intros (_ & Hhead & Hlast). unfold bytes_strip, bytes_rstrip.
  destruct l as [|c l]; [done|].
  rewrite bytes_lstrip_head by (by apply Hhead).
  destruct (rev (c :: l)) as [|d r] eqn:Hr.
  - apply (f_equal (@rev ascii)) in Hr. by rewrite rev_involutive in Hr.
  - rewrite bytes_lstrip_head.
    + by rewrite <-Hr, rev_involutive.
    + apply Hlast. rewrite <-(rev_involutive (c :: l)), Hr.
      cbn [rev]. by rewrite last_snoc.
Qed.

Section lines.

Import DrcovParser.

(** [f.readline().strip()] on a stream that starts with a clean line. *)
Lemma readline_strip_line e l rest :
  clean l →
  stream_rest (f e) = l ++ LF :: rest →
  ∃ e',
    readline_strip e = (Ok l, e')
    ∧ self e' = self e
    ∧ buf (f e') = buf (f e)
    ∧ stream_rest (f e') = rest.
Proof.
  intros Hl Hrest. rewrite readline_strip_run, Hrest.
  rewrite take_line_app by apply Hl. rewrite bytes_strip_clean by done.
  eexists. split; [reflexivity|]. cbn [self f buf].
  split; [done|]. split; [done|].
  unfold stream_rest in *. cbn [pos buf].
  rewrite <-drop_drop, Hrest.
  change (l ++ LF :: rest) with (l ++ [LF] ++ rest).
  rewrite app_assoc. apply drop_app_length.
Qed.

(** At the end of the stream [f.readline()] gives the empty line. *)
Lemma readline_strip_eof e :
  stream_rest (f e) = [] →
  readline_strip e = (Ok [], mkEnv (self e) (mkStream (buf (f e)) (pos (f e) + 0))).
Proof. intros Hrest. by rewrite readline_strip_run, Hrest. Qed.

End lines.


(** ** Splitting at a separator *)

Lemma starts_with_app p rest : starts_with p (p ++ rest) = true.
Proof.
  induction p as [|c p IH]; [done|]. cbn. by rewrite Ascii.eqb_refl, IH.
Qed.

Lemma split_scan_skip sep s rest :
  split_scan sep (length s) (s ++ rest) = split_scan sep 0 rest.
Proof. induction s as [|c s IH]; [done|]. exact IH. Qed.

(** A piece without the first character of the separator, then the
    separator: the split cuts there. *)
Lemma split_scan_cut c0 sep' a rest :
  Forall (λ c, c ≠ c0) a →
  split_scan (c0 :: sep') 0 (a ++ (c0 :: sep') ++ rest)
  = a :: split_scan (c0 :: sep') 0 rest.
Proof.
  induction 1 as [|c a Hc _ IH].
  - cbn [app split_scan starts_with].
    rewrite Ascii.eqb_refl, starts_with_app. cbn [andb length].
    replace (S (length sep') - 1)%nat with (length sep') by lia.
    by rewrite split_scan_skip.
  - cbn [app] in IH. cbn [app split_scan starts_with].
    assert (Ascii.eqb c0 c = false) as ->
      by (apply Ascii.eqb_neq; congruence).
    cbn [andb]. by rewrite IH.
Qed.

(** A text without the first character of the separator is one piece. *)
Lemma split_scan_whole c0 sep' a :
  Forall (λ c, c ≠ c0) a → split_scan (c0 :: sep') 0 a = [a].
Proof.
  induction 1 as [|c a Hc _ IH]; [done|]. cbn [split_scan starts_with].
  assert (Ascii.eqb c0 c = false) as ->
    by (apply Ascii.eqb_neq; congruence).
  cbn [andb]. by rewrite IH.
Qed.

Lemma bytes_split_two c0 sep' a b :
  Forall (λ c, c ≠ c0) a →
  Forall (λ c, c ≠ c0) b →
  bytes_split (c0 :: sep') (a ++ (c0 :: sep') ++ b) = [a; b].
Proof.
  intros Ha Hb. unfold bytes_split.
  by rewrite split_scan_cut, split_scan_whole.
Qed.

Lemma alnum_not c d : alnum c → digit_value d = None → c ≠ d.
Proof. intros [v Hv] Hd ->. congruence. Qed.

Lemma alnum_all_not s d :
  Forall alnum s → digit_value d = None → Forall (λ c, c ≠ d) s.
Proof.
  intros Hs Hd. eapply Forall_impl; [exact Hs|].
  intros c Hc. by eapply alnum_not.
Qed.

(** [int(s)] reads back a decimal number that follows a blank. *)
Lemma py_int_blank_decimal v : 0 ≤ v → py_int 10 (" "%char :: decimal v) = Ok v.
Proof.
  intros Hv. rewrite <-(py_int_decimal v Hv). unfold py_int.
  assert (bytes_strip (" "%char :: decimal v) = bytes_strip (decimal v)) as ->;
    [|done].
  unfold bytes_strip. done.
Qed.

Lemma decimal_clean v : clean (decimal v).
Proof.
  pose proof (decimal_alnum v) as Ha. repeat split.
  - by apply alnum_all_not.
  - intros c Hc. destruct (decimal v) as [|d s]; [done|].
    injection Hc as ->. apply Forall_cons in Ha as [Hd _].
    by apply alnum_plain.
  - intros c Hc. apply last_Some in Hc as [l' Hl]. rewrite Hl in Ha.
    apply Forall_app in Ha as [_ Ha]. apply Forall_cons in Ha as [Hd _].
    by apply alnum_plain.
Qed.


(** ** Stages of the parse on the lines they expect *)

Lemma clean_sandwich a mid b :
  a ≠ [] → b ≠ [] →
  Forall (λ c, c ≠ LF) a → Forall (λ c, c ≠ LF) mid →
  Forall (λ c, c ≠ LF) b →
  (∀ c, head a = Some c → is_space c = false) →
  (∀ c, last b = Some c → is_space c = false) →
  clean (a ++ mid ++ b).
Proof.
  intros Ha Hb Fa Fm Fb Hhead Hlast. repeat split.
  - by rewrite !Forall_app.
  - destruct a as [|x a]; [done|]. exact Hhead.
  - intros c. rewrite app_assoc, last_app.
    destruct (last b) as [y|] eqn:Hy; [by intros [= <-]; apply Hlast|].
    by apply last_None in Hy.
Qed.

(** The characters of a literal are not [c]. *)
Ltac literal_without :=
  cbv [B list_ascii_of_string];
  repeat (apply Forall_cons; split; [discriminate|]);
  apply Forall_nil_2.

Lemma clean_after_literal lit t :
  lit ≠ [] → Forall (λ c, c ≠ LF) lit →
  (∀ c, head lit = Some c → is_space c = false) →
  t ≠ [] → clean t →
  clean (lit ++ t).
Proof.
  intros Hlit Flit Hhead Ht (Ft & _ & Hlast).
  apply (clean_sandwich lit [] t); try done.
Qed.

Ltac literal_head := intros ? [= <-]; reflexivity.

(** A literal is a phrase. *)
Ltac literal_phrase :=
  split; [discriminate|];
  split; [|literal_without];
  split; [literal_without|];
  split; intros ? Hc; vm_compute in Hc; injection Hc as <-; reflexivity.

Lemma decimal_nonnil v : decimal v ≠ [].
Proof. by destruct (decimal_nonempty v) as (c & s & -> & _). Qed.

Lemma version_line_clean v : clean (version_line v).
Proof.
  apply clean_after_literal; [done|literal_without|literal_head| |].
  - apply decimal_nonnil.
  - apply decimal_clean.
Qed.

Lemma flavor_line_clean fl : phrase fl → clean (flavor_line fl).
Proof.
  intros (Hne & Hc & _).
  by apply clean_after_literal; [|literal_without|literal_head| |].
Qed.

Section stages.

Import DrcovParser.

Lemma assign_run g e : assign g e = (Ok tt, mkEnv (g (self e)) (f e)).
Proof. reflexivity. Qed.

Lemma this_run e : this e = (Ok (self e), e).
Proof. reflexivity. Qed.

Lemma lift_run {A} (r : result A) (e : env) : lift r e = (r, e).
Proof. reflexivity. Qed.

Lemma ret_run {A} (a : A) (e : env) : ret a e = (Ok a, e).
Proof. reflexivity. Qed.

Lemma raise_run {A} x (e : env) : raise (A:=A) x e = (Raise x, e).
Proof. reflexivity. Qed.

(** The header stage on its two lines. *)
Lemma drcov_header_run e v fl rest :
  0 ≤ v →
  phrase fl →
  stream_rest (f e) = lines_then [version_line v; flavor_line fl] rest →
  ∃ e',
    _parse_drcov_header e
    = (if v =? 2 then Ok tt else Raise AssertionError, e')
    ∧ self e' = set_flavor (" "%char :: fl) (set_version v (self e))
    ∧ buf (f e') = buf (f e)
    ∧ stream_rest (f e') = rest.
Proof.
  intros Hv Hfl Hrest. cbn [lines_then] in Hrest.
  destruct (readline_strip_line e _ _ (version_line_clean v) Hrest)
    as (e1 & Hrun1 & Hself1 & Hbuf1 & Hrest1).
  unfold _parse_drcov_header. change (B ":") with [":"%char].
  rewrite (bind_run _ _ _ _ _ Hrun1).
  change (version_line v)
    with (B "DRCOV VERSION" ++ [":"%char] ++ " "%char :: decimal v).
  rewrite bytes_split_two;
    [|literal_without
     |apply Forall_cons; split;
      [discriminate|by apply alnum_all_not; [apply decimal_alnum|]]].
  change (index [B "DRCOV VERSION"; " "%char :: decimal v] 1)
    with (Ok (A:=bytes) (" "%char :: decimal v)).
  cbv beta iota. rewrite py_int_blank_decimal by done.
  rewrite (bind_run _ _ _ _ _ (lift_run _ _)).
  rewrite (bind_run _ _ _ _ _ (assign_run _ _)).
  set (e1' := mkEnv (set_version v (self e1)) (f e1)).
  destruct (readline_strip_line e1' _ _ (flavor_line_clean fl Hfl) Hrest1)
    as (e2 & Hrun2 & Hself2 & Hbuf2 & Hrest2).
  rewrite (bind_run _ _ _ _ _ Hrun2).
  change (flavor_line fl)
    with (B "DRCOV FLAVOR" ++ [":"%char] ++ " "%char :: fl).
  destruct Hfl as (_ & _ & Hcolon).
  rewrite bytes_split_two;
    [|literal_without|apply Forall_cons; split; [discriminate|done]].
  change (index [B "DRCOV FLAVOR"; " "%char :: fl] 1)
    with (Ok (A:=bytes) (" "%char :: fl)).
  rewrite (bind_run _ _ _ _ _ (lift_run _ _)).
  rewrite (bind_run _ _ _ _ _ (assign_run _ _)).
  rewrite (bind_run _ _ _ _ _ (this_run _)).
  cbn [self f]. rewrite Hself2. cbn [e1' self]. rewrite Hself1.
  assert (version (set_flavor (" "%char :: fl) (set_version v (self e))) = v)
    as -> by done.
  destruct (v =? 2); eexists; (split; [reflexivity|]); cbn [self f];
    rewrite Hbuf2; cbn [e1' f]; by rewrite Hbuf1.
Qed.

(** X7. The two header lines of a log.  The version is read and stored;
    the flavor attribute gets what follows the colon, the blank included;
    the stream is left after the two lines.  The version is checked last:
    the stage returns for version 2 and raises [AssertionError] for any
    other, with both attributes assigned. *)
Theorem drcov_header_read e v fl rest :
  0 ≤ v →
  phrase fl →
  stream_rest (f e) = lines_then [version_line v; flavor_line fl] rest →
  ∃ e',
    _parse_drcov_header e
    = (if v =? 2 then Ok tt else Raise AssertionError, e')
    ∧ self e' = set_flavor (" "%char :: fl) (set_version v (self e))
    ∧ buf (f e') = buf (f e)
    ∧ stream_rest (f e') = rest.
Proof. exact (drcov_header_run e v fl rest). Qed.

Lemma phrase_drcov : phrase (B "drcov").
Proof. literal_phrase. Qed.

Lemma drcov_header_read_witness :
  ∃ e',
    _parse_drcov_header
      (start_env (lines_then [version_line 3; flavor_line (B "drcov")]
                             (B "Module Table: 0")))
    = (Raise AssertionError, e')
    ∧ version (self e') = 3
    ∧ flavor (self e') = Some (B " drcov")
    ∧ stream_rest (f e') = B "Module Table: 0".
Proof.
  destruct (drcov_header_read
              (start_env (lines_then [version_line 3; flavor_line (B "drcov")]
                                     (B "Module Table: 0")))
              3 (B "drcov") (B "Module Table: 0"))
    as (e' & Hrun & Hself & _ & Hrest);
    [lia|apply phrase_drcov|reflexivity|].
  exists e'. split; [exact Hrun|]. rewrite Hself.
  split; [reflexivity|]. split; [reflexivity|exact Hrest].
Defined.

End stages.


Ltac without_char :=
  repeat first
    [ apply Forall_app; split
    | apply alnum_all_not; [apply decimal_alnum | reflexivity]
    | literal_without ].

Lemma module_table_line_clean version count :
  clean (module_table_line version count).
Proof.
  unfold module_table_line. destruct (version =? 1).
  - apply clean_after_literal;
      [done|literal_without|literal_head|apply decimal_nonnil
      |apply decimal_clean].
  - rewrite (app_assoc (decimal version)).
    apply clean_sandwich;
      [done|apply decimal_nonnil|literal_without|without_char
      |apply decimal_clean|literal_head|apply decimal_clean].
Qed.

Section table_stages.

Import DrcovParser.

(** The stage on the header line of the module table. *)
Lemma module_table_header_run e version count rest :
  0 ≤ version →
  0 ≤ count →
  stream_rest (f e) = lines_then [module_table_line version count] rest →
  let supported := bool_decide (version ∈ [1; 2; 3; 4]) in
  ∃ e',
    _parse_module_table_header e
    = (if supported then Ok tt else Raise ValueError, e')
    ∧ self e'
      = (if supported
         then set_module_table_count count
                (set_module_table_version version (self e))
         else set_module_table_version version (self e))
    ∧ buf (f e') = buf (f e)
    ∧ stream_rest (f e') = rest.
Proof.
  intros Hv Hc Hrest supported. cbn [lines_then] in Hrest.
  destruct (readline_strip_line e _ _
              (module_table_line_clean version count) Hrest)
    as (e1 & Hrun1 & Hself1 & Hbuf1 & Hrest1).
  unfold _parse_module_table_header.
  change (B ": ") with [":"%char; " "%char].
  change (B ", ") with [","%char; " "%char].
  change (B " ") with [" "%char].
  rewrite (bind_run _ _ _ _ _ Hrun1).
  unfold module_table_line. destruct (Z.eqb_spec version 1) as [->|Hne].
  - change (B "Module Table: " ++ decimal count)
      with (B "Module Table" ++ [":"%char; " "%char] ++ decimal count).
    rewrite bytes_split_two by without_char.
    cbn [unpack2]. rewrite (bind_run _ _ _ _ _ (lift_run _ _)).
    unfold bytes_split at 1.
    rewrite split_scan_whole by without_char. cbn [unpack2].
    rewrite py_int_decimal by done.
    rewrite (bind_run _ _ _ _ _ (lift_run _ _)).
    rewrite (bind_run _ _ _ _ _ (assign_run _ _)), assign_run.
    eexists. split; [reflexivity|]. cbn [self f]. rewrite Hself1.
    split; [by destruct (self e)|done].
  - change (B "Module Table: version " ++ decimal version
            ++ B ", count " ++ decimal count)
      with (B "Module Table" ++ [":"%char; " "%char]
            ++ (B "version" ++ [" "%char] ++ decimal version)
            ++ [","%char; " "%char]
            ++ (B "count" ++ [" "%char] ++ decimal count)).
    rewrite bytes_split_two by without_char.
    cbn [unpack2]. rewrite (bind_run _ _ _ _ _ (lift_run _ _)).
    rewrite bytes_split_two by without_char. cbn [unpack2].
    rewrite bytes_split_two by without_char. cbn [unpack2].
    rewrite (bind_run _ _ _ _ _ (lift_run _ _)).
    rewrite py_int_decimal by done.
    rewrite (bind_run _ _ _ _ _ (lift_run _ _)).
    rewrite (bind_run _ _ _ _ _ (assign_run _ _)).
    assert (bool_decide (version ∈ [2; 3; 4]) = supported) as ->.
    { unfold supported. apply bool_decide_ext.
      rewrite !elem_of_cons, !elem_of_nil. lia. }
    destruct supported; cbv iota.
    + rewrite (bind_run _ _ _ _ _ (ret_run _ _)).
      rewrite bytes_split_two by without_char. cbn [unpack2].
      rewrite (bind_run _ _ _ _ _ (lift_run _ _)).
      rewrite py_int_decimal by done.
      rewrite (bind_run _ _ _ _ _ (lift_run _ _)), assign_run.
      eexists. split; [reflexivity|]. cbn [self f]. by rewrite Hself1.
    + rewrite (bind_raise _ _ _ _ _ (raise_run _ _)).
      eexists. split; [reflexivity|]. cbn [self f]. by rewrite Hself1.
Qed.

(** X8. The header line of the module table, in the legacy form for
    version 1 and with the version token otherwise: the version and the
    count are read and stored for the versions 1 to 4; for any other
    version the stage raises [ValueError], with the version stored and
    the count not read.  The stream is left after the line. *)
Theorem module_table_header_read e version count rest :
  0 ≤ version →
  0 ≤ count →
  stream_rest (f e) = lines_then [module_table_line version count] rest →
  let supported := bool_decide (version ∈ [1; 2; 3; 4]) in
  ∃ e',
    _parse_module_table_header e
    = (if supported then Ok tt else Raise ValueError, e')
    ∧ self e'
      = (if supported
         then set_module_table_count count
                (set_module_table_version version (self e))
         else set_module_table_version version (self e))
    ∧ buf (f e') = buf (f e)
    ∧ stream_rest (f e') = rest.
Proof. exact (module_table_header_run e version count rest). Qed.

Lemma module_table_header_read_witness :
  ∃ e',
    _parse_module_table_header
      (start_env (lines_then [module_table_line 5 2] []))
    = (Raise ValueError, e')
    ∧ module_table_version (self e') = 5
    ∧ module_table_count (self e') = 0.
Proof.
  pose proof (module_table_header_read
                (start_env (lines_then [module_table_line 5 2] []))
                5 2 [] ltac:(lia) ltac:(lia) eq_refl) as H.
  cbv zeta in H. destruct H as (e' & Hrun & Hself & _).
  exists e'. split; [exact Hrun|]. rewrite Hself. split; reflexivity.
Defined.

End table_stages.


(** ** The entries of the module table *)

Lemma join_fields_snoc nums p :
  join_fields (nums ++ [p]) = concat ((λ y, y ++ B ", ") <$> nums) ++ p.
Proof.
  induction nums as [|x nums IH]; [done|].
  replace (join_fields ((x :: nums) ++ [p]))
    with (x ++ B ", " ++ join_fields (nums ++ [p]))
    by (by destruct nums).
  rewrite IH. cbn [fmap list_fmap concat]. by rewrite <-!app_assoc.
Qed.

Lemma join_fields_clean x nums p :
  x ≠ [] → p ≠ [] →
  (∀ c, head x = Some c → is_space c = false) →
  Forall (Forall (λ c, c ≠ LF)) (x :: nums) →
  clean p →
  clean (join_fields ((x :: nums) ++ [p])).
Proof.
  intros Hx Hp Hhead Hall (Fp & _ & Hlast).
  rewrite join_fields_snoc. cbn [fmap list_fmap concat].
  rewrite <-!app_assoc.
  apply Forall_cons in Hall as [Fx Fnums].
  rewrite (app_assoc (B ", ")).
  apply clean_sandwich; try done.
  apply Forall_app. split; [literal_without|].
  induction Fnums as [|y nums Fy _ IH]; [constructor|].
  cbn [fmap list_fmap concat]. rewrite Forall_app, Forall_app.
  split; [split; [done|literal_without]|done].
Qed.

Lemma number_head_plain s c :
  Forall alnum s → head s = Some c → is_space c = false.
Proof.
  intros Hs Hc. destruct s as [|d s]; [done|]. injection Hc as ->.
  apply Forall_cons in Hs as [Hd _]. by apply alnum_plain.
Qed.

Ltac number_fields :=
  repeat (apply Forall_cons; split;
          [first [apply alnum_all_not; [apply decimal_alnum|reflexivity]
                 |apply alnum_all_not; [apply hex_field_alnum|reflexivity]]
          |]);
  try apply Forall_nil_2.

Ltac all_but_last l :=
  match l with
  | [_] => constr:(@nil bytes)
  | ?x :: ?r => let fr := all_but_last r in constr:(x :: fr)
  end.

Ltac last_of l :=
  match l with
  | [?p] => p
  | _ :: ?r => last_of r
  end.

(** The entry line of a module is a clean line. *)
Lemma entry_line_clean version windows m :
  clean_path m → clean (entry_line version windows m).
Proof.
  intros [Hne Hclean]. unfold entry_line.
  destruct (version =? 1); [|destruct (version =? 2);
    [|destruct (version =? 3)]]; destruct windows; cbn [app];
  match goal with
  | |- clean (join_fields ?fields) =>
      let n := all_but_last fields in
      let p := last_of fields in
      change fields with (n ++ [p])
  end;
  (apply join_fields_clean;
   [apply decimal_nonnil | exact Hne
   | intros c; apply number_head_plain, decimal_alnum
   | number_fields | exact Hclean]).
Qed.


(** ** The stages of the module table *)

Section entries.
Import DrcovParser.

Lemma columns_line_clean cols : phrase cols → clean (columns_line cols).
Proof.
  intros (Hne & Hc & _).
  by apply clean_after_literal; [|literal_without|literal_head| |].
Qed.

(** The stage on the columns line. *)
Lemma module_table_columns_run e cols rest :
  phrase cols →
  stream_rest (f e)
  = (if module_table_version (self e) =? 1 then rest
     else lines_then [columns_line cols] rest) →
  ∃ e',
    _parse_module_table_columns e = (Ok tt, e')
    ∧ self e' = self e
    ∧ buf (f e') = buf (f e)
    ∧ stream_rest (f e') = rest.
Proof.
  intros Hcols Hrest. unfold _parse_module_table_columns.
  rewrite (bind_run _ _ _ _ _ (this_run _)).
  destruct (module_table_version (self e) =? 1).
  - exists e. by rewrite ret_run.
  - cbn [lines_then] in Hrest.
    destruct (readline_strip_line e _ _ (columns_line_clean cols Hcols) Hrest)
      as (e1 & Hrun1 & Hself1 & Hbuf1 & Hrest1).
    rewrite (bind_run _ _ _ _ _ Hrun1).
    change (B ": ") with [":"%char; " "%char].
    change (columns_line cols)
      with (B "Columns" ++ [":"%char; " "%char] ++ cols).
    rewrite bytes_split_two; [|literal_without|apply Hcols].
    cbn [unpack2]. rewrite (bind_run _ _ _ _ _ (lift_run _ _)).
    exists e1. by rewrite ret_run.
Qed.

Lemma for_each_app {S A} (xs ys : list A) (body : A → M S unit) s :
  for_each (xs ++ ys) body s
  = (for_each xs body ;; for_each ys body) s.
Proof.
  revert s. induction xs as [|x xs IH]; intros s; cbn [app for_each].
  - done.
  - unfold bind. destruct (body x s) as [[[]|?] s1]; [|done].
    rewrite IH. done.
Qed.

(** One iteration of the loop of [_parse_module_table_modules]. *)
Local Abbreviation read_entry :=
  (λ i : nat,
     do line <- readline_strip;
     do o <- this;
     do module <- lift (DrcovModule.new line (module_table_version o));
     assign (λ o, set_raw_modules (_raw_modules o ++ [module]) o)).

Lemma read_entry_run e i m l e1 :
  readline_strip e = (Ok l, e1) →
  DrcovModule.new l (module_table_version (self e1)) = Ok m →
  read_entry i e
  = (Ok tt, mkEnv (set_raw_modules (_raw_modules (self e1) ++ [m]) (self e1))
                  (f e1)).
Proof.
  intros Hrun Hnew. cbv beta.
  rewrite (bind_run _ _ _ _ _ Hrun).
  rewrite (bind_run _ _ _ _ _ (this_run _)).
  rewrite Hnew.
  rewrite (bind_run _ _ _ _ _ (lift_run _ _)).
  reflexivity.
Qed.

Lemma set_raw_modules_twice a b o :
  set_raw_modules b (set_raw_modules a o) = set_raw_modules b o.
Proof. by destruct o. Qed.

Lemma set_raw_modules_same o : set_raw_modules (_raw_modules o) o = o.
Proof. by destruct o. Qed.

Lemma raw_modules_set a o : _raw_modules (set_raw_modules a o) = a.
Proof. by destruct o. Qed.

Lemma table_version_set a o :
  module_table_version (set_raw_modules a o) = module_table_version o.
Proof. by destruct o. Qed.


(** The loop on as many entry lines as it has iterations. *)
Lemma read_entries ms : ∀ e k version windows rest,
  version = 1 ∨ version = 2 ∨ (version = 3 ∧ windows = false) →
  Forall (λ m, encodable m ∧ clean_path m) ms →
  module_table_version (self e) = version →
  stream_rest (f e) = lines_then (entry_line version windows <$> ms) rest →
  ∃ e',
    for_each (seq k (length ms)) read_entry e = (Ok tt, e')
    ∧ self e'
      = set_raw_modules
          (_raw_modules (self e) ++ (expected_module version windows <$> ms))
          (self e)
    ∧ buf (f e') = buf (f e)
    ∧ stream_rest (f e') = rest.
Proof.
  induction ms as [|m ms IH]; intros e k version windows rest Hv Hms Hver Hrest.
  - exists e. cbn [length seq for_each fmap list_fmap lines_then] in *.
    split; [done|]. split; [|done].
    by rewrite app_nil_r, set_raw_modules_same.
  - apply Forall_cons in Hms as [[Hm Hp] Hms].
    cbn [fmap list_fmap lines_then] in Hrest.
    destruct (readline_strip_line e _ _
                (entry_line_clean version windows m Hp) Hrest)
      as (e1 & Hrun1 & Hself1 & Hbuf1 & Hrest1).
    assert (Hnew : DrcovModule.new (entry_line version windows m)
                     (module_table_version (self e1))
                   = Ok (expected_module version windows m)).
    { rewrite Hself1, Hver. by apply entry_line_decoded. }
    pose proof (read_entry_run e k _ _ e1 Hrun1 Hnew) as Hstep.
    cbv beta in Hstep.
    cbn [length seq for_each fmap list_fmap].
    rewrite (bind_run _ _ _ _ _ Hstep).
    edestruct (IH (mkEnv (set_raw_modules
                         (_raw_modules (self e1)
                          ++ [expected_module version windows m]) (self e1))
                      (f e1)) (S k) version windows rest Hv Hms)
      as (e' & Hrun & Hself & Hbuf & Hrest').
    { cbn [self]. by rewrite table_version_set, Hself1. }
    { exact Hrest1. }
    exists e'. split; [exact Hrun|]. rewrite Hself, Hbuf, Hrest'.
    cbn [self f]. split; [|done].
    rewrite raw_modules_set, set_raw_modules_twice, Hself1.
    by rewrite <-app_assoc.
Qed.


(** The stage on the entry lines. *)
Lemma module_table_entries_run e ms version windows rest :
  version = 1 ∨ version = 2 ∨ (version = 3 ∧ windows = false) →
  Forall (λ m, encodable m ∧ clean_path m) ms →
  module_table_version (self e) = version →
  module_table_count (self e) = Z.of_nat (length ms) →
  stream_rest (f e) = lines_then (entry_line version windows <$> ms) rest →
  ∃ e',
    _parse_module_table_modules e = (Ok tt, e')
    ∧ self e'
      = set_raw_modules
          (_raw_modules (self e) ++ (expected_module version windows <$> ms))
          (self e)
    ∧ buf (f e') = buf (f e)
    ∧ stream_rest (f e') = rest.
Proof.
  intros Hv Hms Hver Hcount Hrest. unfold _parse_module_table_modules.
  rewrite (bind_run _ _ _ _ _ (this_run _)).
  rewrite Hcount. unfold range. rewrite Nat2Z.id.
  by apply (read_entries ms e 0%nat version windows rest).
Qed.

(** The constructor of a module on an empty line, whatever the version. *)
Lemma new_empty_line version : DrcovModule.new [] version = Raise ValueError.
Proof.
  unfold DrcovModule.new, DrcovModule._parse_module.
  destruct (version =? 1); [by vm_compute|].
  destruct (version =? 2); [by vm_compute|].
  destruct (version =? 3); [by vm_compute|].
  destruct (version =? 4); by vm_compute.
Qed.

(** X9. The columns line: none is read under table version 1; under any
    other version one line is read, and nothing of it is kept. *)
Theorem module_table_columns_read e cols rest :
  phrase cols →
  stream_rest (f e)
  = (if module_table_version (self e) =? 1 then rest
     else lines_then [columns_line cols] rest) →
  ∃ e',
    _parse_module_table_columns e = (Ok tt, e')
    ∧ self e' = self e
    ∧ buf (f e') = buf (f e)
    ∧ stream_rest (f e') = rest.
Proof. exact (module_table_columns_run e cols rest). Qed.

Lemma phrase_columns : phrase (B "id, base, end, entry, path").
Proof. literal_phrase. Qed.

Lemma module_table_columns_read_witness :
  ∃ e',
    _parse_module_table_columns
      (mkEnv (set_module_table_version 2 (init []))
             (mkStream
                (lines_then [columns_line (B "id, base, end, entry, path")]
                            (B "0, 0x0, 0x1, 0x0, a"))
                0))
    = (Ok tt, e')
    ∧ stream_rest (f e') = B "0, 0x0, 0x1, 0x0, a".
Proof.
  destruct (module_table_columns_read
              (mkEnv (set_module_table_version 2 (init []))
                     (mkStream
                        (lines_then
                           [columns_line (B "id, base, end, entry, path")]
                           (B "0, 0x0, 0x1, 0x0, a"))
                        0))
              (B "id, base, end, entry, path") (B "0, 0x0, 0x1, 0x0, a"))
    as (e' & Hrun & _ & _ & Hrest); [apply phrase_columns|reflexivity|].
  exists e'. split; [exact Hrun|exact Hrest].
Defined.

(** X10. The entries of the module table, in the layout of version 1, of
    version 2 with or without the checksum and timestamp pair, or of
    version 3 without the pair: as many lines as the count says are read,
    each is decoded to the module it was written from, and the modules
    are appended to the list in the order of the lines. *)
Theorem module_table_entries_read e ms version windows rest :
  version = 1 ∨ version = 2 ∨ (version = 3 ∧ windows = false) →
  Forall (λ m, encodable m ∧ clean_path m) ms →
  module_table_version (self e) = version →
  module_table_count (self e) = Z.of_nat (length ms) →
  stream_rest (f e) = lines_then (entry_line version windows <$> ms) rest →
  ∃ e',
    _parse_module_table_modules e = (Ok tt, e')
    ∧ self e'
      = set_raw_modules
          (_raw_modules (self e) ++ (expected_module version windows <$> ms))
          (self e)
    ∧ buf (f e') = buf (f e)
    ∧ stream_rest (f e') = rest.
Proof. exact (module_table_entries_run e ms version windows rest). Qed.

Lemma sample_module_listed offset :
  0 ≤ default 0 offset →
  encodable (sample_module offset) ∧ clean_path (sample_module offset).
Proof.
  intros Ho. split; [by apply sample_module_encodable|].
  split; [discriminate|].
  split; [literal_without|].
  split; intros ? Hc; vm_compute in Hc; injection Hc as <-; reflexivity.
Qed.

Lemma module_table_entries_read_witness :
  ∃ e',
    _parse_module_table_modules
      (mkEnv (set_module_table_count 2 (set_module_table_version 2 (init [])))
             (mkStream
                (lines_then
                   (entry_line 2 true
                      <$> [sample_module None; sample_module (Some 64)])
                   (B "BB Table: 0 bbs"))
                0))
    = (Ok tt, e')
    ∧ DrcovModule.filename <$> _raw_modules (self e') = ["ls"; "ls"]%string
    ∧ stream_rest (f e') = B "BB Table: 0 bbs".
Proof.
  destruct (module_table_entries_read
              (mkEnv (set_module_table_count 2
                        (set_module_table_version 2 (init [])))
                     (mkStream
                        (lines_then
                           (entry_line 2 true
                              <$> [sample_module None; sample_module (Some 64)])
                           (B "BB Table: 0 bbs"))
                        0))
              [sample_module None; sample_module (Some 64)] 2 true
              (B "BB Table: 0 bbs"))
    as (e' & Hrun & Hself & _ & Hrest).
  - right. left. reflexivity.
  - repeat apply Forall_cons_2; [| |apply Forall_nil_2];
      apply sample_module_listed; cbn; lia.
  - reflexivity.
  - reflexivity.
  - reflexivity.
  - exists e'. split; [exact Hrun|]. rewrite Hself.
    split; [reflexivity|exact Hrest].
Defined.

(** X11. A module table that ends before the count of entries it declares:
    the entries that are there are decoded and kept, then the read at the
    end of the stream gives an empty line, and the constructor of the
    entry raises [ValueError]. *)
Theorem module_table_cut_short e ms version windows :
  version = 1 ∨ version = 2 ∨ (version = 3 ∧ windows = false) →
  Forall (λ m, encodable m ∧ clean_path m) ms →
  module_table_version (self e) = version →
  Z.of_nat (length ms) < module_table_count (self e) →
  stream_rest (f e) = lines_then (entry_line version windows <$> ms) [] →
  ∃ e',
    _parse_module_table_modules e = (Raise ValueError, e')
    ∧ _raw_modules (self e')
      = _raw_modules (self e) ++ (expected_module version windows <$> ms).
Proof.
  intros Hv Hms Hver Hcount Hrest. unfold _parse_module_table_modules.
  rewrite (bind_run _ _ _ _ _ (this_run _)). unfold range.
  replace (Z.to_nat (module_table_count (self e)))
    with (length ms + S (Z.to_nat (module_table_count (self e))
                         - S (length ms)))%nat by lia.
  rewrite seq_app, for_each_app.
  destruct (read_entries ms e 0%nat version windows [] Hv Hms Hver Hrest)
    as (e1 & Hrun1 & Hself1 & Hbuf1 & Hrest1).
  rewrite (bind_run _ _ _ _ _ Hrun1). cbn [seq for_each].
  eexists. split.
  - apply bind_raise.
    rewrite (bind_run _ _ _ _ _ (readline_strip_eof e1 Hrest1)).
    rewrite (bind_run _ _ _ _ _ (this_run _)).
    apply bind_raise. by rewrite new_empty_line.
  - cbn [self]. by rewrite Hself1, raw_modules_set.
Qed.

Lemma module_table_cut_short_witness :
  ∃ e',
    _parse_module_table_modules
      (mkEnv (set_module_table_count 3 (set_module_table_version 1 (init [])))
             (mkStream
                (lines_then (entry_line 1 false <$> [sample_module None]) [])
                0))
    = (Raise ValueError, e')
    ∧ length (_raw_modules (self e')) = 1%nat.
Proof.
  destruct (module_table_cut_short
              (mkEnv (set_module_table_count 3
                        (set_module_table_version 1 (init [])))
                     (mkStream
                        (lines_then
                           (entry_line 1 false <$> [sample_module None]) [])
                        0))
              [sample_module None] 1 false)
    as (e' & Hrun & Hraw).
  - left. reflexivity.
  - apply Forall_cons_2; [|apply Forall_nil_2].
    apply sample_module_listed; cbn; lia.
  - reflexivity.
  - cbn. lia.
  - reflexivity.
  - exists e'. split; [exact Hrun|]. rewrite Hraw. reflexivity.
Defined.

End entries.


(** ** The block table after its header line *)

Lemma bb_table_line_clean n : clean (bb_table_line n).
Proof.
  unfold bb_table_line.
  apply clean_sandwich;
    [done|done|literal_without|without_char|literal_without|literal_head|].
  intros c [= <-]. reflexivity.
Qed.

Section block_stage.

Import DrcovParser.

(** The stage on the header line of the block table. *)
Lemma bb_table_header_run e n rest :
  0 ≤ n →
  stream_rest (f e) = lines_then [bb_table_line n] rest →
  ∃ e',
    _parse_bb_table_header e = (Ok tt, e')
    ∧ self e' = set_bb_table_is_binary true (set_bb_table_count n (self e))
    ∧ buf (f e') = buf (f e)
    ∧ stream_rest (f e') = rest.
Proof.
  intros Hn Hrest. cbn [lines_then] in Hrest.
  destruct (readline_strip_line e _ _ (bb_table_line_clean n) Hrest)
    as (e1 & Hrun1 & Hself1 & Hbuf1 & Hrest1).
  unfold _parse_bb_table_header.
  change (B ": ") with [":"%char; " "%char].
  change (B " ") with [" "%char].
  rewrite (bind_run _ _ _ _ _ Hrun1).
  change (bb_table_line n)
    with (B "BB Table" ++ [":"%char; " "%char]
          ++ (decimal n ++ [" "%char] ++ B "bbs")).
  rewrite bytes_split_two by without_char.
  cbn [unpack2]. rewrite (bind_run _ _ _ _ _ (lift_run _ _)).
  rewrite bytes_split_two by without_char. cbn [unpack2].
  rewrite (bind_run _ _ _ _ _ (lift_run _ _)).
  rewrite py_int_decimal by done.
  rewrite (bind_run _ _ _ _ _ (lift_run _ _)).
  rewrite (bind_run _ _ _ _ _ (assign_run _ _)).
  cbv [bind get on_stream stream_read stream_seek py_eq assign modify].
  eexists. split; [reflexivity|]. cbn [self f buf pos].
  rewrite Hself1. split; [done|]. split; [done|].
  exact Hrest1.
Qed.

(** X12. The header line of the block table: the count is read and
    stored, the table is marked binary whatever follows the line, and the
    stream is left after the line, at the first byte of the records. *)
Theorem bb_table_header_read e n rest :
  0 ≤ n →
  stream_rest (f e) = lines_then [bb_table_line n] rest →
  ∃ e',
    _parse_bb_table_header e = (Ok tt, e')
    ∧ self e' = set_bb_table_is_binary true (set_bb_table_count n (self e))
    ∧ buf (f e') = buf (f e)
    ∧ stream_rest (f e') = rest.
Proof. exact (bb_table_header_run e n rest). Qed.

Lemma bb_table_header_read_witness :
  ∃ e',
    _parse_bb_table_header
      (start_env (lines_then [bb_table_line 7] (B "module id, start, size:")))
    = (Ok tt, e')
    ∧ bb_table_count (self e') = 7
    ∧ bb_table_is_binary (self e') = true
    ∧ stream_rest (f e') = B "module id, start, size:".
Proof.
  destruct (bb_table_header_read
              (start_env (lines_then [bb_table_line 7]
                                     (B "module id, start, size:")))
              7 (B "module id, start, size:"))
    as (e' & Hrun & Hself & _ & Hrest); [lia|reflexivity|].
  exists e'. split; [exact Hrun|]. rewrite Hself.
  split; [reflexivity|]. split; [reflexivity|exact Hrest].
Defined.

End block_stage.


Section block_records.

Import DrcovParser.

(** The stage on the packed records. *)
Lemma binary_table_run e bbs tail :
  bb_table_is_binary (self e) = true →
  bb_table_count (self e) = Z.of_nat (length bbs) →
  Forall (λ bb, fits_widths (to_parsed_block bb)) bbs →
  stream_rest (f e) = binary_encoding bbs ++ tail →
  ∃ e',
    _parse_bb_table_entries e = (Ok tt, e')
    ∧ self e' = set_raw_basic_blocks bbs (self e)
    ∧ buf (f e') = buf (f e)
    ∧ stream_rest (f e') = tail.
Proof.
  intros Hbin Hn Hfit Hrest. rewrite (bb_table_entries_binary e Hbin).
  rewrite Hn, Nat2Z.id, Hrest.
  destruct (Z.ltb_spec (Z.of_nat (length bbs)) 0) as [|_]; [lia|].
  cbn zeta. unfold binary_encoding.
  rewrite take_app_length' by (by rewrite length_array_bytes).
  rewrite length_array_bytes, Nat.sub_diag.
  rewrite array_bytes_read_back by done.
  eexists. split; [reflexivity|]. cbn [self f buf pos].
  split; [done|]. split; [done|].
  unfold stream_rest in *. cbn [buf pos].
  rewrite <-drop_drop, Hrest. unfold binary_encoding.
  by rewrite drop_app_length' by (by rewrite length_array_bytes).
Qed.

(** X13. The records of a table marked binary, when the stream holds the
    packed records of as many blocks as the table declares: the array is
    those blocks, nothing else of the object changes, and the stream is
    left after the records. *)
Theorem bb_table_records_read e bbs tail :
  bb_table_is_binary (self e) = true →
  bb_table_count (self e) = Z.of_nat (length bbs) →
  Forall (λ bb, fits_widths (to_parsed_block bb)) bbs →
  stream_rest (f e) = binary_encoding bbs ++ tail →
  ∃ e',
    _parse_bb_table_entries e = (Ok tt, e')
    ∧ self e' = set_raw_basic_blocks bbs (self e)
    ∧ buf (f e') = buf (f e)
    ∧ stream_rest (f e') = tail.
Proof. exact (binary_table_run e bbs tail). Qed.

Lemma sample_block_fits : fits_widths (to_parsed_block sample_block).
Proof. unfold fits_widths. cbn. lia. Qed.

Lemma bb_table_records_read_witness :
  ∃ e',
    _parse_bb_table_entries
      (mkEnv (set_bb_table_count 2 (init []))
             (mkStream
                (binary_encoding [sample_block; DrcovBasicBlock.mk 4096 12 3]
                 ++ B "more")
                0))
    = (Ok tt, e')
    ∧ _raw_basic_blocks (self e')
      = [sample_block; DrcovBasicBlock.mk 4096 12 3]
    ∧ stream_rest (f e') = B "more".
Proof.
  destruct (bb_table_records_read
              (mkEnv (set_bb_table_count 2 (init []))
                     (mkStream
                        (binary_encoding
                           [sample_block; DrcovBasicBlock.mk 4096 12 3]
                         ++ B "more")
                        0))
              [sample_block; DrcovBasicBlock.mk 4096 12 3] (B "more"))
    as (e' & Hrun & Hself & _ & Hrest).
  - reflexivity.
  - reflexivity.
  - repeat apply Forall_cons_2; [apply sample_block_fits| |apply Forall_nil_2].
    unfold fits_widths. cbn. lia.
  - reflexivity.
  - exists e'. split; [exact Hrun|]. rewrite Hself.
    split; [reflexivity|exact Hrest].
Defined.

End block_records.

(** ** A whole log *)

Lemma lines_then_app a b rest :
  lines_then (a ++ b) rest = lines_then a (lines_then b rest).
Proof. induction a as [|l a IH]; cbn [app lines_then]; by rewrite ?IH. Qed.

Section whole_log.

Import DrcovParser.

Context (fl cols : bytes) (version : Z) (windows : bool).
Context (ms : list DrcovModule.t) (bbs : list DrcovBasicBlock.t).
Context (tail : bytes).

Hypothesis flavor_ok : phrase fl.
Hypothesis columns_ok : phrase cols.
Hypothesis layout_ok :
  version = 1 ∨ version = 2 ∨ (version = 3 ∧ windows = false).
Hypothesis modules_ok : Forall (λ m, encodable m ∧ clean_path m) ms.
Hypothesis blocks_ok : Forall (λ bb, fits_widths (to_parsed_block bb)) bbs.

(** The object the stages leave, from the object [o] they start on. *)
Local Abbreviation staged o :=
  (set_bb_hit_count_map (HitCount.generate (bb_hit_count_map o) bbs)
     (set_raw_basic_blocks bbs
        (set_bb_table_is_binary true
           (set_bb_table_count (Z.of_nat (length bbs))
              (set_raw_modules
                 (_raw_modules o ++ (expected_module version windows <$> ms))
                 (set_module_table_count (Z.of_nat (length ms))
                    (set_module_table_version version
                       (set_flavor (" "%char :: fl)
                          (set_version 2 o))))))))).

Lemma parse_stream_log o blob :
  blob = drcov_log fl cols version windows ms bbs tail →
  ∃ e',
    parse_stream (mkEnv o (mkStream blob 0)) = (Ok tt, e')
    ∧ self e' = staged o
    ∧ stream_rest (f e') = tail.
Proof.
  intros Hblob. unfold drcov_log in Hblob.
  change ([version_line 2; flavor_line fl;
           module_table_line version (Z.of_nat (length ms))] ++ ?x)
    with ([version_line 2; flavor_line fl]
          ++ [module_table_line version (Z.of_nat (length ms))] ++ x)
    in Hblob.
  rewrite !lines_then_app in Hblob.
  unfold parse_stream.
  (* the two header lines *)
  edestruct (drcov_header_run (mkEnv o (mkStream blob 0)) 2 fl)
    as (e1 & Hrun1 & Hself1 & Hbuf1 & Hrest1);
    [lia|exact flavor_ok|exact Hblob|].
  change (2 =? 2) with true in Hrun1. cbv iota in Hrun1.
  rewrite (bind_run _ _ _ _ _ Hrun1).
  (* the header of the module table *)
  edestruct (module_table_header_run e1 version (Z.of_nat (length ms)))
    as (e2 & Hrun2 & Hself2 & Hbuf2 & Hrest2); [lia|lia|exact Hrest1|].
  rewrite bool_decide_eq_true_2 in Hrun2, Hself2
    by (rewrite !elem_of_cons; lia).
  (* the columns *)
  assert (module_table_version (self e2) = version) as Hver2
    by (by rewrite Hself2).
  edestruct (module_table_columns_run e2 cols) as
    (e3 & Hrun3 & Hself3 & Hbuf3 & Hrest3); [exact columns_ok| |].
  { rewrite Hrest2, Hver2. destruct (version =? 1); reflexivity. }
  (* the entries *)
  edestruct (module_table_entries_run e3 ms version windows)
    as (e4 & Hrun4 & Hself4 & Hbuf4 & Hrest4);
    [exact layout_ok|exact modules_ok|by rewrite Hself3
    |by rewrite Hself3, Hself2|exact Hrest3|].
  assert (_parse_module_table e1 = (Ok tt, e4)) as Htable.
  { unfold _parse_module_table.
    by rewrite (bind_run _ _ _ _ _ Hrun2), (bind_run _ _ _ _ _ Hrun3). }
  rewrite (bind_run _ _ _ _ _ Htable).
  (* the header of the block table *)
  edestruct (bb_table_header_run e4 (Z.of_nat (length bbs)))
    as (e5 & Hrun5 & Hself5 & Hbuf5 & Hrest5); [lia|exact Hrest4|].
  (* the records *)
  edestruct (binary_table_run e5 bbs tail)
    as (e6 & Hrun6 & Hself6 & Hbuf6 & Hrest6);
    [by rewrite Hself5|by rewrite Hself5|exact blocks_ok|exact Hrest5|].
  assert (_parse_bb_table e4 = (Ok tt, e6)) as Hblocks.
  { unfold _parse_bb_table. by rewrite (bind_run _ _ _ _ _ Hrun5). }
  rewrite (bind_run _ _ _ _ _ Hblocks).
  (* the hit counts *)
  unfold _generate_bb_hit_count_map. rewrite assign_run.
  eexists. split; [reflexivity|]. cbn [self f]. split; [|exact Hrest6].
  rewrite Hself6, Hself5, Hself4, Hself3, Hself2, Hself1.
  reflexivity.
Qed.

(** X14. A log in the format of version 2, with a module table in the layout
    of version 1, 2 or (without the checksum and timestamp pair) 3, and
    with packed block records: the constructor returns; the object is
    marked parsed; it holds the log version, the flavor with the blank
    that follows the colon, and the table version; [get_modules] gives
    the modules of the entry lines in their order, [get_basic_blocks] the
    blocks of the records in their order, and the hit counts are those of
    the blocks.  Bytes after the last record are not looked at. *)
Theorem log_read_back :
  ∃ o,
    new (drcov_log fl cols version windows ms bbs tail) = Ok o
    ∧ is_parsed o = true
    ∧ DrcovParser.version o = 2
    ∧ flavor o = Some (" "%char :: fl)
    ∧ module_table_version o = version
    ∧ get_modules o
      = to_parsed_module <$> (expected_module version windows <$> ms)
    ∧ get_basic_blocks o = to_parsed_block <$> bbs
    ∧ bb_hit_count_map o = HitCount.generate ∅ bbs.
Proof.
  set (blob := drcov_log fl cols version windows ms bbs tail).
  destruct (parse_stream_log (init blob) blob eq_refl)
    as (e' & Hrun & Hself & _).
  eexists. split.
  - unfold new, parse.
    rewrite (bind_run get _ _ (init blob) (init blob) eq_refl).
    change (_parsed (init blob)) with false. cbv iota beta.
    unfold _parse_drcov_data at 1. change (data (init blob)) with blob.
    unfold bind at 1. rewrite Hrun.
    cbv [_convert_to_parsed_objects bind modify]. reflexivity.
  - rewrite Hself. repeat split; reflexivity.
Qed.

End whole_log.

Lemma log_read_back_witness :
  ∃ o,
    DrcovParser.new
      (drcov_log (B "drcov") (B "id, base, end, entry, path") 2 false
                 [sample_module None] [sample_block; sample_block]
                 (B "trailer"))
    = Ok o
    ∧ ParsedModule.filename <$> DrcovParser.get_modules o = ["ls"%string]
    ∧ DrcovParser.get_basic_blocks o
      = [ParsedBasicBlock.mk 16 4 0; ParsedBasicBlock.mk 16 4 0].
Proof.
  destruct (log_read_back (B "drcov") (B "id, base, end, entry, path") 2 false
              [sample_module None] [sample_block; sample_block]
              (B "trailer"))
    as (o & Hnew & _ & _ & _ & _ & Hms & Hbbs & _).
  - apply phrase_drcov.
  - apply phrase_columns.
  - right. left. reflexivity.
  - apply Forall_cons_2; [|apply Forall_nil_2].
    apply sample_module_listed; cbn; lia.
  - repeat apply Forall_cons_2;
      [apply sample_block_fits|apply sample_block_fits|apply Forall_nil_2].
  - exists o. split; [exact Hnew|]. rewrite Hms, Hbbs.
    split; reflexivity.
Defined.


(** ** What the stages of the stream leave alone *)

Section framing.

Import DrcovParser.

Context {X : Type} (P : t → X).

Lemma keeps_ret {A} (a : A) : keeps P (ret a).
Proof. by intros e r e' [= <- <-]. Qed.

Lemma keeps_raise {A} x : keeps P (raise (A:=A) x).
Proof. by intros e r e' [= <- <-]. Qed.

Lemma keeps_lift {A} (r : result A) : keeps P (lift r).
Proof. by intros e r' e' [= <- <-]. Qed.

Lemma keeps_get : keeps P get.
Proof. by intros e r e' [= <- <-]. Qed.

Lemma keeps_this : keeps P this.
Proof. by intros e r e' [= <- <-]. Qed.

Lemma keeps_on_stream {A} (op : stream → A * stream) : keeps P (on_stream op).
Proof.
  intros e r e'. unfold on_stream. destruct (op (f e)). by intros [= <- <-].
Qed.

Lemma keeps_assign g :
  (∀ o, P (g o) = P o) → keeps P (assign g).
Proof. intros Hg e r e' [= <- <-]. apply Hg. Qed.

Lemma keeps_bind {A C} (m : M env A) (k : A → M env C) :
  keeps P m → (∀ a, keeps P (k a)) → keeps P (bind m k).
Proof.
  intros Hm Hk e r e'. unfold bind.
  destruct (m e) as [[a|x] e1] eqn:H1.
  - intros H2. rewrite (Hk a e1 r e' H2). by apply (Hm e (Ok a)).
  - intros [= <- <-]. by apply (Hm e (Raise x)).
Qed.

Lemma keeps_for_each {A} (xs : list A) (body : A → M env unit) :
  (∀ x, keeps P (body x)) → keeps P (for_each xs body).
Proof.
  intros Hbody. induction xs as [|x xs IH]; cbn [for_each].
  - apply keeps_ret.
  - apply keeps_bind; [apply Hbody|]. intros _. apply IH.
Qed.

Lemma keeps_readline_strip : keeps P readline_strip.
Proof.
  apply keeps_bind; [apply keeps_on_stream|]. intros a. apply keeps_ret.
Qed.

End framing.

(** One step through the body of a routine. *)
Ltac frame :=
  repeat first
    [ apply keeps_ret | apply keeps_raise | apply keeps_lift
    | apply keeps_get | apply keeps_this | apply keeps_on_stream
    | apply keeps_readline_strip
    | apply keeps_assign; intros []; reflexivity
    | apply keeps_for_each; intros
    | apply keeps_bind; [|intros]
    | match goal with
      | |- keeps _ (match ?x with _ => _ end) => destruct x
      end ].

Section stages_keep.

Import DrcovParser.

Lemma untouched_drcov_header : keeps untouched _parse_drcov_header.
Proof. unfold _parse_drcov_header. frame. Qed.

Lemma untouched_module_table : keeps untouched _parse_module_table.
Proof.
  unfold _parse_module_table, _parse_module_table_header,
    _parse_module_table_columns, _parse_module_table_modules.
  frame.
Qed.

Lemma untouched_bb_table : keeps untouched _parse_bb_table.
Proof.
  unfold _parse_bb_table, _parse_bb_table_header, _parse_bb_table_entries,
    assign_block.
  frame.
Qed.

Lemma table_drcov_header : keeps table_attributes _parse_drcov_header.
Proof. unfold _parse_drcov_header. frame. Qed.

Lemma table_columns : keeps table_attributes _parse_module_table_columns.
Proof. unfold _parse_module_table_columns. frame. Qed.

Lemma table_bb_table : keeps table_attributes _parse_bb_table.
Proof.
  unfold _parse_bb_table, _parse_bb_table_header, _parse_bb_table_entries,
    assign_block.
  frame.
Qed.

Lemma raw_modules_table_header :
  keeps _raw_modules _parse_module_table_header.
Proof. unfold _parse_module_table_header. frame. Qed.

End stages_keep.


(** ** The object after a parse *)

Section after_parse.

Import DrcovParser HitCount.

Lemma parse_stream_raise_frames e x e' :
  parse_stream e = (Raise x, e') → untouched (self e') = untouched (self e).
Proof.
  unfold parse_stream, bind.
  destruct (_parse_drcov_header e) as [[[]|x1] e1] eqn:H1;
    [|intros [= <- <-]; by apply (untouched_drcov_header e (Raise x1))].
  destruct (_parse_module_table e1) as [[[]|x2] e2] eqn:H2;
    [|intros [= <- <-];
      rewrite (untouched_module_table e1 _ _ H2);
      by apply (untouched_drcov_header e (Ok tt))].
  destruct (_parse_bb_table e2) as [[[]|x3] e3] eqn:H3;
    [discriminate|].
  intros [= <- <-]. rewrite (untouched_bb_table e2 _ _ H3).
  rewrite (untouched_module_table e1 _ _ H2).
  by apply (untouched_drcov_header e (Ok tt)).
Qed.

(** X15. A parse that raises: the object is not marked parsed, its lists of
    modules and of blocks are empty and it has no hit counts; what the
    stages had stored before the exception is in the raw attributes
    only. *)
Theorem failed_parse_leaves_nothing blob x o :
  parse (init blob) = (Raise x, o) →
  is_parsed o = false
  ∧ get_modules o = []
  ∧ get_basic_blocks o = []
  ∧ bb_hit_count_map o = ∅.
Proof.
  unfold parse. rewrite (bind_run get _ _ (init blob) (init blob) eq_refl).
  change (_parsed (init blob)) with false. cbv iota beta.
  unfold bind, _parse_drcov_data. change (data (init blob)) with blob.
  destruct (parse_stream (mkEnv (init blob) (mkStream blob 0)))
    as [[[]|x1] e1] eqn:Hs.
  - cbv [_convert_to_parsed_objects bind modify]. discriminate.
  - intros [= <- <-]. apply parse_stream_raise_frames in Hs.
    cbn [self] in Hs. unfold untouched in Hs. cbn [init] in Hs.
    unfold is_parsed, get_modules, get_basic_blocks.
    by injection Hs as _ -> -> -> ->.
Qed.

Lemma failed_parse_leaves_nothing_witness :
  ∃ o,
    parse (init (lines_then [version_line 3; flavor_line (B "drcov")] []))
    = (Raise AssertionError, o)
    ∧ version o = 3
    ∧ is_parsed o = false
    ∧ get_modules o = [].
Proof.
  exists (snd (parse (init (lines_then
                              [version_line 3; flavor_line (B "drcov")] [])))).
  split; [vm_compute; reflexivity|]. split; [vm_compute; reflexivity|].
  destruct (failed_parse_leaves_nothing
              (lines_then [version_line 3; flavor_line (B "drcov")] [])
              AssertionError
              (snd (parse (init (lines_then
                                   [version_line 3; flavor_line (B "drcov")]
                                   [])))))
    as (Hp & Hm & _); [vm_compute; reflexivity|].
  split; [exact Hp|exact Hm].
Defined.

(** The raw and the parsed attributes of an object the constructor
    returned. *)
Lemma new_attributes blob o :
  new blob = Ok o →
  is_parsed o = true
  ∧ data o = blob
  ∧ get_modules o = to_parsed_module <$> _raw_modules o
  ∧ get_basic_blocks o = to_parsed_block <$> _raw_basic_blocks o
  ∧ bb_hit_count_map o = generate ∅ (_raw_basic_blocks o).
Proof.
  intros (e1 & e2 & e3 & e4 & H1 & H2 & H3 & H4 & ->)%new_ok.
  assert (_parse_bb_table e2 = (Ok tt, e4)) as H34.
  { unfold _parse_bb_table. by rewrite (bind_run _ _ _ _ _ H3). }
  pose proof (untouched_bb_table _ _ _ H34) as F.
  rewrite (untouched_module_table _ _ _ H2) in F.
  rewrite (untouched_drcov_header _ _ _ H1) in F.
  unfold untouched, start_env in F. cbn [self init] in F.
  fold (init blob) in F.
  injection F as Fdata _ _ _ Fmap.
  unfold is_parsed, get_modules, get_basic_blocks, finish.
  destruct (self e4). cbn in *. by subst.
Qed.

(** X16. A second call of [parse] on an object the constructor returned
    does nothing: it returns at once and the object is as it was. *)
Theorem parse_again_does_nothing blob o :
  new blob = Ok o → is_parsed o = true ∧ parse o = (Ok tt, o).
Proof.
  intros (Hp & _)%new_attributes. split; [done|].
  unfold parse. rewrite (bind_run get _ _ o o eq_refl).
  unfold is_parsed in Hp. by rewrite Hp.
Qed.

Lemma parse_again_does_nothing_witness :
  ∃ o,
    new (sample_head ++ bb_table 1 (binary_encoding [sample_block])) = Ok o
    ∧ parse o = (Ok tt, o).
Proof.
  destruct (new (sample_head ++ bb_table 1 (binary_encoding [sample_block])))
    as [o|x] eqn:Hnew; [|vm_compute in Hnew; discriminate].
  exists o. split; [reflexivity|].
  apply (parse_again_does_nothing _ o Hnew).
Defined.

(** X17. The lists of the accessors and the legacy lists of an object the
    constructor returned go element by element, in the same order and
    with the same length: a module of [get_modules] has the id, the file
    name, the base, the end, the size, the checksum, the path and the
    entry of the module of [modules] at its place, a block of
    [get_basic_blocks] has the offset, the size and the module id of the
    block of [basic_blocks] at its place. *)
Theorem accessors_mirror_legacy_lists blob o :
  new blob = Ok o →
  Forall2 (λ parsed raw,
             ParsedModule.id parsed = DrcovModule.id raw
             ∧ ParsedModule.filename parsed = DrcovModule.filename raw
             ∧ ParsedModule.base parsed = DrcovModule.base raw
             ∧ ParsedModule.end_ parsed = DrcovModule.end_ raw
             ∧ ParsedModule.size parsed = DrcovModule.size raw
             ∧ ParsedModule.checksum parsed = DrcovModule.checksum raw
             ∧ ParsedModule.path parsed = DrcovModule.path raw
             ∧ ParsedModule.entry parsed = DrcovModule.entry raw)
          (get_modules o) (modules o)
  ∧ Forall2 (λ parsed raw,
               ParsedBasicBlock.offset parsed = DrcovBasicBlock.offset raw
               ∧ ParsedBasicBlock.size parsed = DrcovBasicBlock.size raw
               ∧ ParsedBasicBlock.mod_id parsed = DrcovBasicBlock.mod_id raw)
            (get_basic_blocks o) (basic_blocks o).
Proof.
  intros (_ & _ & -> & -> & _)%new_attributes. unfold modules, basic_blocks.
  split; apply Forall2_fmap_l, Forall_Forall2_diag, Forall_forall;
    intros x _; cbn; done.
Qed.

Lemma accessors_mirror_legacy_lists_witness :
  ∃ o,
    new (sample_head ++ bb_table 1 (binary_encoding [sample_block])) = Ok o
    ∧ Forall2 (λ parsed raw,
                 ParsedModule.base parsed = DrcovModule.base raw
                 ∧ ParsedModule.end_ parsed = DrcovModule.end_ raw)
              (get_modules o) (modules o)
    ∧ length (get_basic_blocks o) = length (basic_blocks o).
Proof.
  destruct (new (sample_head ++ bb_table 1 (binary_encoding [sample_block])))
    as [o|x] eqn:Hnew; [|vm_compute in Hnew; discriminate].
  exists o. split; [reflexivity|].
  destruct (accessors_mirror_legacy_lists _ o Hnew) as [Hm Hb].
  split; [|by eapply Forall2_length].
  eapply Forall2_impl; [exact Hm|]. cbn. intros parsed raw H.
  split; apply H.
Defined.

Lemma occurrences_block_hits mid off raw :
  occurrences mid off raw = block_hits mid off (to_parsed_block <$> raw).
Proof.
  unfold block_hits. induction raw as [|bb raw IH]; [done|].
  cbn [occurrences fmap list_fmap List.filter]. rewrite IH.
  change (bool_decide (ParsedBasicBlock.mod_id (to_parsed_block bb) = mid)
          && bool_decide (ParsedBasicBlock.offset (to_parsed_block bb) = off))
    with (same_key mid off bb).
  destruct (same_key mid off bb); cbn [length]; lia.
Qed.

(** X18. The hit counts of a parsed log are the counts of its blocks: a pair
    of a module id and an offset is a key exactly if a block of
    [get_basic_blocks] is there, with the number of those blocks; and the
    counts add up to the number of blocks. *)
Theorem hit_counts_count_blocks blob o :
  new blob = Ok o →
  (∀ mid off,
     hit_count (bb_hit_count_map o) mid off
     = if decide (block_hits mid off (get_basic_blocks o) = 0) then None
       else Some (block_hits mid off (get_basic_blocks o)))
  ∧ total_hits (bb_hit_count_map o) = Z.of_nat (length (get_basic_blocks o)).
Proof.
  intros (_ & _ & _ & -> & ->)%new_attributes. split.
  - intros mid off. rewrite hit_count_generate, occurrences_block_hits.
    by case_decide; unfold hit_count; rewrite lookup_empty.
  - rewrite total_hits_generate, length_fmap. unfold total_hits.
    rewrite map_fold_empty. lia.
Qed.

Lemma hit_counts_count_blocks_witness :
  ∃ o,
    new (sample_head
         ++ bb_table 2 (binary_encoding [sample_block; sample_block]))
    = Ok o
    ∧ total_hits (bb_hit_count_map o) = Z.of_nat (length (get_basic_blocks o)).
Proof.
  destruct (new (sample_head
                 ++ bb_table 2 (binary_encoding [sample_block; sample_block])))
    as [o|x] eqn:Hnew; [|vm_compute in Hnew; discriminate].
  exists o. split; [reflexivity|].
  apply (hit_counts_count_blocks _ o Hnew).
Defined.

End after_parse.


(** ** The hit counts of one module *)

Section module_hits.

Import DrcovParser HitCount.

Implicit Types (m : hit_map) (raw : list DrcovBasicBlock.t).

(** The blocks of module [mid] among the parsed blocks. *)
Local Abbreviation of_module mid bbs :=
  (List.filter (λ bb, bool_decide (ParsedBasicBlock.mod_id bb = mid)) bbs).

Lemma lookup_record_hit_eq m bb :
  let inner := default ∅ (m !! DrcovBasicBlock.mod_id bb) in
  record_hit m bb !! DrcovBasicBlock.mod_id bb
  = Some (<[DrcovBasicBlock.offset bb :=
              default 0 (inner !! DrcovBasicBlock.offset bb) + 1]> inner).
Proof. rewrite record_hit_insert. cbn zeta. by rewrite lookup_insert_eq. Qed.

Lemma of_module_cons mid bb raw :
  of_module mid (to_parsed_block <$> bb :: raw)
  = if bool_decide (DrcovBasicBlock.mod_id bb = mid)
    then to_parsed_block bb :: of_module mid (to_parsed_block <$> raw)
    else of_module mid (to_parsed_block <$> raw).
Proof. reflexivity. Qed.

(** A module id is a key of the dictionary exactly if it was one, or a
    block of the module was met. *)
Lemma generate_lookup_None raw m mid :
  generate m raw !! mid = None
  ↔ m !! mid = None ∧ of_module mid (to_parsed_block <$> raw) = [].
Proof.
  unfold generate. revert m.
  induction raw as [|bb raw IH]; intros m; cbn [foldl].
  - split; [by intros ->|by intros [-> _]].
  - rewrite IH, of_module_cons. case_bool_decide as Hmid.
    + rewrite <-Hmid, lookup_record_hit_eq. cbn zeta.
      split; [by intros [[=] _]|by intros [_ [=]]].
    + by rewrite lookup_record_hit_ne.
Qed.

(** The counts of one module add up to the number of its blocks. *)
Lemma sum_counts_generate raw m mid :
  sum_counts (default ∅ (generate m raw !! mid))
  = sum_counts (default ∅ (m !! mid))
    + Z.of_nat (length (of_module mid (to_parsed_block <$> raw))).
Proof.
  unfold generate. revert m.
  induction raw as [|bb raw IH]; intros m; cbn [foldl].
  - cbn. lia.
  - rewrite IH, of_module_cons. case_bool_decide as Hmid.
    + rewrite <-Hmid, lookup_record_hit_eq. cbn zeta.
      cbn [from_option id length]. rewrite sum_counts_insert. lia.
    + by rewrite lookup_record_hit_ne.
Qed.

Lemma block_hits_of_module mid off bbs :
  block_hits mid off (of_module mid bbs) = block_hits mid off bbs.
Proof.
  unfold block_hits. f_equal. f_equal.
  induction bbs as [|bb bbs IH]; [done|]. cbn [List.filter].
  case_bool_decide as Hmid; cbn [List.filter andb].
  - rewrite bool_decide_eq_true_2 by done. cbn [andb]. by rewrite IH.
  - exact IH.
Qed.

Lemma sum_counts_pairs (inner : gmap Z Z) :
  sum_counts inner = foldr (λ p acc, acc + p.2) 0 (map_to_list inner).
Proof.
  unfold sum_counts. rewrite map_fold_foldr.
  induction (map_to_list inner) as [|[k c] l IH]; [done|].
  cbn. by rewrite IH.
Qed.

(** X19. The hit counts of a module of a parsed log.  When no block of the
    log is of the module, [get_blocks_by_module] returns the empty list
    and [get_hit_count_map_by_module] raises [KeyError].  Otherwise the
    pairs returned have distinct offsets: one pair for each offset at
    which a block of the module is, with the number of these blocks; and
    the counts add up to the number of blocks of the module. *)
Theorem module_hit_counts blob o name md :
  new blob = Ok o →
  get_module o name true = Some md →
  ∃ blocks,
    get_blocks_by_module o name = Ok blocks
    ∧ match get_hit_count_map_by_module o name with
      | inl x => x = HitKeyError ∧ blocks = []
      | inr pairs =>
          blocks ≠ []
          ∧ NoDup pairs.*1
          ∧ (∀ off k,
               (off, k) ∈ pairs
               ↔ 0 < k ∧ k = block_hits (ParsedModule.id md) off blocks)
          ∧ foldr (λ p acc, acc + p.2) 0 pairs = Z.of_nat (length blocks)
      end.
Proof.
  intros (_ & _ & _ & Hbbs & Hmap)%new_attributes Hmod.
  unfold get_blocks_by_module, get_hit_count_map_by_module.
  rewrite Hmod. cbn zeta. eexists. split; [reflexivity|].
  unfold get_basic_blocks in Hbbs. rewrite Hbbs, Hmap.
  set (mid := ParsedModule.id md). set (raw := _raw_basic_blocks o).
  destruct (generate ∅ raw !! mid) as [inner|] eqn:Hin.
  - split; [|split; [|split]].
    + intros Hnil.
      assert (generate ∅ raw !! mid = None) as Hnone
        by (by apply generate_lookup_None).
      congruence.
    + apply NoDup_fst_map_to_list.
    + intros off k. rewrite elem_of_map_to_list, block_hits_of_module.
      rewrite <-occurrences_block_hits.
      assert (inner !! off = hit_count (generate ∅ raw) mid off) as ->
        by (unfold hit_count; by rewrite Hin).
      rewrite hit_count_generate.
      pose proof (occurrences_nonneg mid off raw).
      case_decide; unfold hit_count; rewrite lookup_empty; cbn.
      * split; [done|lia].
      * split; [intros [= <-]; lia|intros [_ ->]; done].
    + rewrite <-sum_counts_pairs.
      pose proof (sum_counts_generate raw ∅ mid) as Hsum.
      rewrite Hin, lookup_empty in Hsum. cbn [from_option id] in Hsum.
      rewrite sum_counts_empty in Hsum. lia.
  - split; [done|]. by apply generate_lookup_None in Hin as [_ Hnil].
Qed.

Lemma module_hit_counts_witness :
  ∃ o pairs,
    new (sample_head
         ++ bb_table 2 (binary_encoding [sample_block; sample_block]))
    = Ok o
    ∧ get_hit_count_map_by_module o "TARGET" = inr pairs
    ∧ NoDup pairs.*1
    ∧ foldr (λ p acc, acc + p.2) 0 pairs = 2.
Proof.
  destruct (new (sample_head
                 ++ bb_table 2 (binary_encoding [sample_block; sample_block])))
    as [o|x] eqn:Hnew; [|vm_compute in Hnew; discriminate].
  assert (get_blocks_by_module o "TARGET"
          = Ok [ParsedBasicBlock.mk 16 4 0; ParsedBasicBlock.mk 16 4 0])
    as Hb by (vm_compute in Hnew; injection Hnew as <-; reflexivity).
  destruct (get_module o "TARGET" true) as [md|] eqn:Hmod;
    [|vm_compute in Hnew; injection Hnew as <-; vm_compute in Hmod;
      discriminate].
  destruct (module_hit_counts _ o "TARGET" md Hnew Hmod)
    as (blocks & Hblocks & H).
  rewrite Hb in Hblocks. injection Hblocks as <-.
  destruct (get_hit_count_map_by_module o "TARGET") as [x|pairs] eqn:Hp;
    [by destruct H as [_ [=]]|].
  exists o, pairs. split; [reflexivity|]. split; [exact Hp|].
  destruct H as (_ & Hnd & _ & Hsum). split; [exact Hnd|exact Hsum].
Defined.

End module_hits.


(** ** The module list after a parse *)

Section module_list.

Import DrcovParser.

(** The header stage of the module table returns for the versions 1 to 4
    only. *)
Lemma table_header_version e e' :
  _parse_module_table_header e = (Ok tt, e') →
  module_table_version (self e') = 1 ∨ module_table_version (self e') = 2
  ∨ module_table_version (self e') = 3 ∨ module_table_version (self e') = 4.
Proof.
  unfold _parse_module_table_header. intros H.
  apply bind_ok in H as (l & s1 & _ & H).
  apply bind_ok in H as ([fn fd] & s2 & _ & H).
  destruct (unpack2 (bytes_split (B ", ") fd)) as [[vd cd]|x].
  - apply bind_ok in H as ([dn v_] & s3 & _ & H).
    apply bind_ok in H as (v & s4 & _ & H).
    apply bind_ok in H as ([] & s5 & [= <-] & H).
    apply bind_ok in H as ([] & s6 & Hin & H).
    case_bool_decide as Hv; [|discriminate]. injection Hin as <-.
    apply bind_ok in H as ([dn' c_] & s7 & [_ ->]%lift_ok & H).
    apply bind_ok in H as (c & s8 & [_ ->]%lift_ok & H).
    injection H as <-. cbn [self].
    assert (module_table_version
              (set_module_table_count c (set_module_table_version v (self s4)))
            = v) as -> by done.
    rewrite !elem_of_cons, elem_of_nil in Hv. lia.
  - apply bind_ok in H as (c & s3 & _ & H).
    apply bind_ok in H as ([] & s4 & _ & H).
    injection H as <-. by left.
Qed.

(** One iteration of the loop of [_parse_module_table_modules] that
    completes. *)
Local Abbreviation read_entry :=
  (λ i : nat,
     do line <- readline_strip;
     do o <- this;
     do module <- lift (DrcovModule.new line (module_table_version o));
     assign (λ o, set_raw_modules (_raw_modules o ++ [module]) o)).

Lemma read_entry_ok e i e' :
  read_entry i e = (Ok tt, e') →
  ∃ line m,
    DrcovModule.new line (module_table_version (self e)) = Ok m
    ∧ self e' = set_raw_modules (_raw_modules (self e) ++ [m]) (self e).
Proof.
  cbv beta. intros H. rewrite (bind_run _ _ _ _ _ (readline_strip_run e)) in H.
  rewrite (bind_run _ _ _ _ _ (this_run _)) in H. cbn [self] in H.
  apply bind_ok in H as (m & s1 & [Hnew ->]%lift_ok & H).
  injection H as <-. cbn [self]. eauto.
Qed.

Lemma read_entries_ok xs : ∀ e e',
  for_each xs read_entry e = (Ok tt, e') →
  ∃ ms,
    self e' = set_raw_modules (_raw_modules (self e) ++ ms) (self e)
    ∧ length ms = length xs
    ∧ Forall (λ m, ∃ line,
                DrcovModule.new line (module_table_version (self e)) = Ok m)
             ms.
Proof.
  induction xs as [|i xs IH]; intros e e'; cbn [for_each].
  - intros [= <-]. exists []. rewrite app_nil_r, set_raw_modules_same.
    by repeat split.
  - intros H. apply bind_ok in H as ([] & e1 & H1 & H).
    apply (read_entry_ok _ i) in H1 as (line & m & Hnew & Hself1).
    apply IH in H as (ms & Hself & Hlen & Hall).
    exists (m :: ms). rewrite Hself, Hself1.
    rewrite raw_modules_set, set_raw_modules_twice, <-app_assoc.
    split; [done|]. split; [cbn; by rewrite Hlen|].
    rewrite Hself1, table_version_set in Hall.
    apply Forall_cons. split; [by exists line|exact Hall].
Qed.

Lemma table_count_set a o :
  module_table_count (set_raw_modules a o) = module_table_count o.
Proof. by destruct o. Qed.

(** The module table as a whole, from an object without modules. *)
Lemma module_table_ok e e' :
  _parse_module_table e = (Ok tt, e') →
  _raw_modules (self e) = [] →
  let v := module_table_version (self e') in
  (v = 1 ∨ v = 2 ∨ v = 3 ∨ v = 4)
  ∧ length (_raw_modules (self e'))
    = Z.to_nat (module_table_count (self e'))
  ∧ Forall (λ m, ∃ line, DrcovModule.new line v = Ok m)
           (_raw_modules (self e')).
Proof.
  unfold _parse_module_table. intros H Hnil.
  apply bind_ok in H as ([] & ea & Ha & H).
  apply bind_ok in H as ([] & eb & Hb & H).
  pose proof (table_header_version _ _ Ha) as Hv.
  pose proof (raw_modules_table_header _ _ _ Ha) as Hra.
  pose proof (table_columns _ _ _ Hb) as Hkb.
  unfold table_attributes in Hkb. injection Hkb as Hvb Hcb Hrb.
  unfold _parse_module_table_modules in H.
  rewrite (bind_run _ _ _ _ _ (this_run _)) in H.
  apply read_entries_ok in H as (ms & Hself & Hlen & Hall).
  cbn zeta. rewrite Hself.
  rewrite raw_modules_set, table_version_set, table_count_set.
  rewrite Hrb, Hra, Hnil, Hvb, Hcb. cbn [app].
  rewrite Hvb in Hall. split; [exact Hv|]. split; [|exact Hall].
  rewrite Hlen. unfold range. by rewrite length_seq, Hcb.
Qed.

(** X20. The module list of an object the constructor returned: the
    table version is one of 1 to 4; [get_modules] has as many modules as
    the header of the table declares (none for a negative count); under
    version 1 the base, the end, the entry and the checksum of every
    module are 0, under the other versions the size of every module is
    its end less its base. *)
Theorem module_list_shape blob o :
  new blob = Ok o →
  let v := module_table_version o in
  (v = 1 ∨ v = 2 ∨ v = 3 ∨ v = 4)
  ∧ length (get_modules o) = Z.to_nat (module_table_count o)
  ∧ Forall (λ m,
              if v =? 1
              then ParsedModule.base m = 0 ∧ ParsedModule.end_ m = 0
                   ∧ ParsedModule.entry m = 0 ∧ ParsedModule.checksum m = 0
              else ParsedModule.size m
                   = ParsedModule.end_ m - ParsedModule.base m)
           (get_modules o).
Proof.
  intros (e1 & e2 & e3 & e4 & H1 & H2 & H3 & H4 & ->)%new_ok.
  assert (_parse_bb_table e2 = (Ok tt, e4)) as H34.
  { unfold _parse_bb_table. by rewrite (bind_run _ _ _ _ _ H3). }
  pose proof (table_bb_table _ _ _ H34) as K4.
  pose proof (table_drcov_header _ _ _ H1) as K1.
  unfold table_attributes in K4, K1. injection K4 as Kv Kc Kr.
  injection K1 as _ _ Knil.
  destruct (module_table_ok _ _ H2 Knil) as (Hv & Hlen & Hall).
  assert (module_table_version (finish (self e4))
          = module_table_version (self e2)) as -> by (by rewrite <-Kv).
  assert (module_table_count (finish (self e4))
          = module_table_count (self e2)) as -> by (by rewrite <-Kc).
  assert (get_modules (finish (self e4))
          = to_parsed_module <$> _raw_modules (self e2)) as ->
    by (by rewrite <-Kr).
  cbn zeta. split; [exact Hv|]. split; [by rewrite length_fmap|].
  apply Forall_fmap. eapply Forall_impl; [exact Hall|].
  intros m [line Hnew]. cbn.
  destruct (decoded_entry_facts _ _ _ Hnew) as (_ & Hone & Hsize & _).
  destruct (Z.eqb_spec (module_table_version (self e2)) 1) as [Heq|Hne].
  - destruct (Hone Heq) as (? & ? & ? & ? & _). done.
  - by apply Hsize.
Qed.

Lemma module_list_shape_witness :
  ∃ o,
    new (sample_head ++ bb_table 1 (binary_encoding [sample_block])) = Ok o
    ∧ length (get_modules o) = 1%nat
    ∧ Forall (λ m, ParsedModule.size m = 4096) (get_modules o).
Proof.
  destruct (new (sample_head ++ bb_table 1 (binary_encoding [sample_block])))
    as [o|x] eqn:Hnew; [|vm_compute in Hnew; discriminate].
  exists o. split; [reflexivity|].
  pose proof (module_list_shape _ o Hnew) as H. cbv zeta in H.
  destruct H as (_ & Hlen & Hall).
  assert (module_table_version o = 2 ∧ module_table_count o = 1
          ∧ Forall (λ m, ParsedModule.end_ m - ParsedModule.base m = 4096)
                   (get_modules o)) as (Hv & Hc & Hd).
  { vm_compute in Hnew. injection Hnew as <-.
    split; [reflexivity|]. split; [reflexivity|].
    apply Forall_cons_2; [reflexivity|apply Forall_nil_2]. }
  rewrite Hv in Hall. rewrite Hc in Hlen. split; [exact Hlen|].
  rewrite Forall_forall in Hall, Hd. apply Forall_forall.
  intros m Hm. specialize (Hall m Hm). cbn in Hall. rewrite Hall.
  by apply Hd.
Defined.

End module_list.


(** ** The other layouts of an entry line *)

Section other_layouts.

Import DrcovModule.

(** X21. The entry line of a module in the layout of version 3 or 4 with
    the checksum and timestamp pair is decoded, and the pair is lost: the
    module has checksum 0 and timestamp 0, and every other field as it
    was written. *)
Theorem entry_pair_dropped m version :
  encodable m →
  version = 3 ∨ version = 4 →
  new (entry_line version true m) version
  = Ok (set_timestamp 0 (set_checksum 0 (expected_module version true m))).
Proof.
  intros Hm [->| ->].
  - by apply entry_v3_pair_dropped.
  - by apply entry_v4_pair_dropped.
Qed.

Lemma entry_pair_dropped_witness :
  ∃ m,
    new (entry_line 4 true (sample_module (Some 5))) 4 = Ok m
    ∧ checksum (sample_module (Some 5)) = 4660
    ∧ checksum m = 0
    ∧ offset m = Some 5.
Proof.
  eexists. split.
  - apply (entry_pair_dropped (sample_module (Some 5)) 4).
    + apply sample_module_encodable. cbn. lia.
    + right. reflexivity.
  - repeat split; reflexivity.
Defined.

(** X22. The entry line of a module in the layout of version 4 without
    the checksum and timestamp pair is never decoded: the constructor
    raises [ValueError] or [IndexError]. *)
Theorem entry_v4_without_pair_rejected m :
  encodable m →
  ∃ x, new (entry_line 4 false m) 4 = Raise x
       ∧ (x = ValueError ∨ x = IndexError).
Proof. intros Hm. by apply entry_v4_rejected. Qed.

Lemma entry_v4_without_pair_rejected_witness :
  ∃ x, new (B "7, 1, 0x400000, 0x401000, 0x400010, 0x0, /bin/ls") 4 = Raise x
       ∧ (x = ValueError ∨ x = IndexError).
Proof.
  apply (entry_v4_without_pair_rejected (sample_module (Some 0))).
  apply sample_module_encodable. cbn. lia.
Defined.

End other_layouts.

(** ** The block records, whatever the stream holds *)

Section any_records.

Import DrcovParser.

(** X23. A negative count of blocks, from [-2^63] on:
    [_parse_bb_table_entries] raises [ValueError] when it makes the
    array, before it reads a byte, and the object and the stream are as
    they were; this is so for a table marked binary and for one marked
    text. *)
Theorem negative_block_count_rejected e :
  - 2 ^ 63 ≤ bb_table_count (self e) < 0 →
  _parse_bb_table_entries e = (Raise ValueError, e).
Proof.
  intros [_ Hn]. unfold _parse_bb_table_entries.
  rewrite (bind_run _ _ _ _ _ (this_run _)).
  apply Z.ltb_lt in Hn. rewrite Hn.
  by rewrite (bind_raise _ _ _ _ _ (raise_run _ _)).
Qed.

Lemma negative_block_count_rejected_witness :
  _parse_bb_table_entries
    (mkEnv (set_bb_table_is_binary false (set_bb_table_count (-1) (init [])))
           (mkStream (text_encoding [sample_block]) 0))
  = (Raise ValueError,
     mkEnv (set_bb_table_is_binary false (set_bb_table_count (-1) (init [])))
           (mkStream (text_encoding [sample_block]) 0)).
Proof.
  apply (negative_block_count_rejected
           (mkEnv (set_bb_table_is_binary false
                     (set_bb_table_count (-1) (init [])))
                  (mkStream (text_encoding [sample_block]) 0))).
  cbn. lia.
Defined.

(** X24. A table marked text, with a count from [-2^63] on whose array
    is no larger than the input, is never read: [_parse_bb_table_entries]
    raises [ValueError].  For a negative count it does so when it makes
    the array, and nothing has changed; otherwise when it compares the
    header line it read, a [bytes] object, with the [str] literal: the
    array then holds as many zero records as the count says, and the
    stream has given out one line. *)
Theorem text_table_always_rejected e :
  bb_table_is_binary (self e) = false →
  - 2 ^ 63 ≤ bb_table_count (self e) →
  array_within_input (bb_table_count (self e)) (f e) →
  ∃ e',
    _parse_bb_table_entries e = (Raise ValueError, e')
    ∧ (bb_table_count (self e) < 0 → e' = e)
    ∧ (0 ≤ bb_table_count (self e) →
       self e'
       = set_raw_basic_blocks
           (replicate (Z.to_nat (bb_table_count (self e)))
                      DrcovBasicBlock.zero)
           (self e)
       ∧ buf (f e') = buf (f e)
       ∧ pos (f e')
         = (pos (f e) + length (take_line (stream_rest (f e))))%nat).
Proof.
  intros Hbin _ _. unfold _parse_bb_table_entries.
  rewrite (bind_run _ _ _ _ _ (this_run _)).
  destruct (Z.ltb_spec (bb_table_count (self e)) 0) as [Hn|Hn].
  - rewrite (bind_raise _ _ _ _ _ (raise_run _ _)).
    exists e. split; [done|]. split; [done|lia].
  - rewrite (bind_run _ _ _ _ _ (assign_run _ _)).
    rewrite (bind_run _ _ _ _ _ (this_run _)). cbn [self].
    assert (bb_table_is_binary
              (set_raw_basic_blocks
                 (replicate (Z.to_nat (bb_table_count (self e)))
                            DrcovBasicBlock.zero) (self e)) = false) as ->
      by (by rewrite <-Hbin; destruct (self e)).
    rewrite (bind_run _ _ _ _ _ (readline_strip_run _)).
    cbn [py_ne py_eq negb].
    rewrite (bind_raise _ _ _ _ _ (raise_run _ _)).
    eexists. split; [reflexivity|]. split; [lia|]. intros _.
    cbn [self f buf pos]. done.
Qed.

Lemma text_table_always_rejected_witness :
  ∃ e',
    _parse_bb_table_entries
      (mkEnv (set_bb_table_is_binary false (set_bb_table_count 1 (init [])))
             (mkStream (text_encoding [sample_block]) 0))
    = (Raise ValueError, e')
    ∧ _raw_basic_blocks (self e') = [DrcovBasicBlock.zero]
    ∧ pos (f e') = 24%nat.
Proof.
  destruct (text_table_always_rejected
              (mkEnv (set_bb_table_is_binary false
                        (set_bb_table_count 1 (init [])))
                     (mkStream (text_encoding [sample_block]) 0)))
    as (e' & Hrun & _ & H);
    [reflexivity | cbn; lia | vm_compute; discriminate |].
  exists e'. split; [exact Hrun|].
  destruct H as (Hself & _ & Hpos); [cbn; lia|].
  rewrite Hself, Hpos. split; reflexivity.
Defined.

(** X25. A table marked binary with a count [n] that is not negative,
    whose array is no larger than the input, is read without error
    whatever bytes the stream holds: the array has [n] blocks, each
    within the widths of its fields; the stream has given out [8 n]
    bytes, or all it had when it had fewer; and no attribute other than
    the array has changed. *)
Theorem binary_table_read_on_any_bytes e :
  bb_table_is_binary (self e) = true →
  0 ≤ bb_table_count (self e) →
  array_within_input (bb_table_count (self e)) (f e) →
  let n := Z.to_nat (bb_table_count (self e)) in
  ∃ e' arr,
    _parse_bb_table_entries e = (Ok tt, e')
    ∧ self e' = set_raw_basic_blocks arr (self e)
    ∧ length arr = n
    ∧ Forall fits_widths (to_parsed_block <$> arr)
    ∧ buf (f e') = buf (f e)
    ∧ pos (f e')
      = (pos (f e) + (8 * n) `min` length (stream_rest (f e)))%nat.
Proof.
  intros Hbin Hn _ n. rewrite (bb_table_entries_binary e Hbin).
  destruct (Z.ltb_spec (bb_table_count (self e)) 0) as [|_]; [lia|].
  cbn zeta. fold n. eexists _, _. split; [reflexivity|]. cbn [self f buf pos].
  split; [reflexivity|]. split; [apply length_array_of_bytes|].
  split; [apply array_of_bytes_fits|]. split; [done|].
  by rewrite length_take.
Qed.

Lemma binary_table_read_on_any_bytes_witness :
  ∃ e' arr,
    _parse_bb_table_entries
      (mkEnv (set_bb_table_count 2 (init []))
             (mkStream (B "twenty bytes of text") 0))
    = (Ok tt, e')
    ∧ _raw_basic_blocks (self e') = arr
    ∧ length arr = 2%nat
    ∧ pos (f e') = 16%nat.
Proof.
  pose proof (binary_table_read_on_any_bytes
                (mkEnv (set_bb_table_count 2 (init []))
                       (mkStream (B "twenty bytes of text") 0))
                eq_refl ltac:(cbn; lia) ltac:(vm_compute; discriminate)) as H.
  cbv zeta in H. destruct H as (e' & arr & Hrun & Hself & Hlen & _ & _ & Hpos).
  exists e', arr. split; [exact Hrun|]. rewrite Hself.
  split; [reflexivity|]. split; [exact Hlen|exact Hpos].
Defined.

End any_records.
